(** * Keyscore API search tool: a shallow embedding of [api.py]

    The development follows the Python source function by function:
    the HTTP client ([KeyscoreAPI.search], [KeyscoreAPI.count]), the
    multi-source fan-out ([search_all_sources], [count_all_sources]) and
    the two report renderers ([print_results], [save_results_to_file],
    [print_count_results]).

    Modelling conventions.
    - A Python [str] is a Rocq [string] holding its UTF-8 bytes.
    - A Python [int] is a [Z].
    - A Python [dict] is an association list in insertion order; assigning
      to an existing key keeps its position ([dict_set]).
    - A decoded response body is a [JsonDict]: the JSON object with the
      keys the program reads, each optional, at the type the service
      documents for it.  Field values of a breach record are arbitrary
      JSON values.  A body that is not JSON makes [response.json()] raise
      [requests.exceptions.JSONDecodeError], which is a [RequestException]
      (requests 2.27 and later).
    - Printed and written text is kept as a sequence of pieces (literal
      segments and interpolated values of an f-string) instead of being
      flattened to bytes, so that [str()] of a number or of a JSON value
      and [str.title()] stay symbolic.
    - A raised exception is a value of [exn]; a function that may raise
      returns a [Result].
    - What the program obtains from its environment (the HTTP exchange,
      the file system, the Unicode tables behind [str.lower] and
      [str.isalnum]) is a Section variable. *)

From Stdlib Require Import String Ascii List ZArith Lia Bool.
Import ListNotations.

Set Warnings "-register-all".

Open Scope string_scope.
Open Scope Z_scope.
Open Scope list_scope.

(* ------------------------------------------------------------------ *)
(** ** Python values *)

Inductive json : Type :=
| JNull
| JBool (b : bool)
| JNum (n : Z)
| JStr (s : string)
| JArr (items : list json)
| JObj (members : list (string * json)).

(** [bool(v)] *)
Definition truthy (v : json) : bool :=
  match v with
  | JNull => false
  | JBool b => b
  | JNum n => negb (n =? 0)
  | JStr s => negb (s =? "")%string
  | JArr items => match items with [] => false | _ => true end
  | JObj members => match members with [] => false | _ => true end
  end.

(** [v == 'N/A'] *)
Definition is_NA (v : json) : bool :=
  match v with
  | JStr s => (s =? "N/A")%string
  | _ => false
  end.

(** [x in ['N/A', None, '']] where [x] is the result of [record.get(...)]:
    [None] stands both for an absent key and for a JSON null. *)
Definition in_NA_None_empty (x : option json) : bool :=
  match x with
  | None => true
  | Some JNull => true
  | Some (JStr s) => (s =? "N/A")%string || (s =? "")%string
  | Some _ => false
  end.

(** *** Dictionaries *)

Definition dict (V : Type) : Type := list (string * V).

Fixpoint dict_get {V : Type} (k : string) (d : dict V) : option V :=
  match d with
  | [] => None
  | (k', v) :: d' => if (k =? k')%string then Some v else dict_get k d'
  end.

(** [d[k] = v] *)
Fixpoint dict_set {V : Type} (k : string) (v : V) (d : dict V) : dict V :=
  match d with
  | [] => [(k, v)]
  | (k', v') :: d' =>
      if (k =? k')%string then (k', v) :: d' else (k', v') :: dict_set k v d'
  end.

Definition dict_keys {V : Type} (d : dict V) : list string := map fst d.
Definition dict_values {V : Type} (d : dict V) : list V := map snd d.

(** [k in d] *)
Definition dict_mem {V : Type} (k : string) (d : dict V) : bool :=
  match dict_get k d with Some _ => true | None => false end.

(** The keys of a Python dict are pairwise distinct. *)
Definition dict_wf {V : Type} (d : dict V) : Prop := NoDup (dict_keys d).

(** One breach record: a JSON object. *)
Definition record : Type := dict json.

(** [d.get(k, default)] on an optional typed key. *)
Definition get_default {A : Type} (x : option A) (default : A) : A :=
  match x with Some a => a | None => default end.

(** [enumerate(l, start)] *)
Fixpoint enumerate {A : Type} (start : Z) (l : list A) : list (Z * A) :=
  match l with
  | [] => []
  | x :: l' => (start, x) :: enumerate (start + 1) l'
  end.

(** [sum(l)] *)
Definition sum (l : list Z) : Z := fold_right Z.add 0 l.

(** [len(l)] *)
Definition len {A : Type} (l : list A) : Z := Z.of_nat (length l).

(* ------------------------------------------------------------------ *)
(** ** Text *)

Inductive piece : Type :=
| Lit (s : string)              (* a literal segment, or an interpolated str *)
| NL                            (* a line feed *)
| Int (n : Z)                   (* f"{n}" *)
| IntComma (n : Z)              (* f"{n:,}" *)
| Val (v : json)                (* f"{v}" of a record value *)
| Title (s : string)            (* s.title() *)
| TitleSpaced (s : string)      (* s.replace('_', ' ').title() *)
| Upper (s : string)            (* s.upper() *)
| Rep (s : string) (n : Z)      (* s * n *)
| Fixed1 (num den : Z)          (* f"{num / den:.1f}" *)
| Now.                          (* datetime.now().strftime('%Y-%m-%d %H:%M:%S') *)

Definition text : Type := list piece.

(** [print(t)] and [print(t, end=" ")] append one chunk to the stream. *)
Definition print (t : text) (out : list text) : list text := out ++ [t ++ [NL]].
Definition print_end_space (t : text) (out : list text) : list text :=
  out ++ [t ++ [Lit " "]].

(* ------------------------------------------------------------------ *)
(** ** Exceptions *)

Inductive exn_class : Type :=
| Exception
| IndexError
| PermissionError
| OSError
| MemoryError.

Record exn : Type := mk_exn { exn_type : exn_class; exn_msg : text }.

(** [type(e).__name__] *)
Definition exn_name (c : exn_class) : string :=
  match c with
  | Exception => "Exception"
  | IndexError => "IndexError"
  | PermissionError => "PermissionError"
  | OSError => "OSError"
  | MemoryError => "MemoryError"
  end.

Inductive Result (A : Type) : Type :=
| Ok (a : A)
| Raise (e : exn).

Arguments Ok {A} a.
Arguments Raise {A} e.

(* ------------------------------------------------------------------ *)
(** ** Response bodies *)

Definition buckets : Type := dict (list record).

Record JsonDict : Type := mk_JsonDict {
  d_results : option buckets;       (* "results" *)
  d_size : option Z;                (* "size" *)
  d_took : option Z;                (* "took" *)
  d_count : option Z;               (* "count" *)
  d_counts : option (dict Z);       (* "counts" *)
  d_total_count : option Z          (* "total_count" *)
}.

Definition empty_dict : JsonDict := mk_JsonDict None None None None None None.

(** ** The HTTP exchange *)

Record Request : Type := mk_Request {
  url : string;
  headers : dict string;
  payload : dict json;
  timeout : Z
}.

(** What [requests.post] gives: a response whose body is JSON, with its
    status code and the value [response.json()] decodes; a response whose
    body is not JSON, for which [response.json()] raises
    [requests.exceptions.JSONDecodeError], a [RequestException], with the
    given message; or a [RequestException] raised by the call itself. *)
Inductive HttpOutcome : Type :=
| Response (status_code : Z) (body : JsonDict)
| ResponseNotJson (status_code : Z) (msg : string)
| RequestException (msg : string).

(* ------------------------------------------------------------------ *)
(** ** class KeyscoreAPI *)

Record KeyscoreAPI : Type := mk_KeyscoreAPI {
  api_key : string;
  base_url : string;
  api_headers : dict string;
  all_sources : list string
}.

(** [KeyscoreAPI.__init__] *)
Definition KeyscoreAPI_init (key : string) : KeyscoreAPI :=
  {| api_key := key;
     base_url := "https://api.keysco.re";
     api_headers := [("Authorization", ("Bearer " ++ key)%string);
                     ("Content-Type", "application/json")];
     all_sources := ["xkeyscore"; "snusbase"; "leakcheck"; "hackcheck"; "oathnet";
                     "ghosint.leakosint"; "ghosint.seon"; "ghosint.breachvip";
                     "osintdog.intelvault"; "osintdog.breachbase"; "osintdog.akula"] |}.

(** [if s:] for an [Optional[str]] *)
Definition truthy_str (s : option string) : bool :=
  match s with Some s => negb (s =? "")%string | None => false end.

(** [if v:] for an [Optional[Union[str, int]]] *)
Definition truthy_opt (v : option json) : bool :=
  match v with Some v => truthy v | None => false end.

(** Lines 74-91 of [search]: the dispatch on [response.status_code] inside
    the [try], and the [except RequestException] clause, which also catches
    what [response.json()] raises at line 76. *)
Definition search_outcome (o : HttpOutcome) : Result JsonDict :=
  match o with
  | Response status_code body =>
      if status_code =? 200 then Ok body
      else if status_code =? 400 then
        Raise (mk_exn Exception [Lit "Bad Request: Invalid request body"])
      else if status_code =? 401 then
        Raise (mk_exn Exception [Lit "Unauthorized: Missing or invalid API key"])
      else if status_code =? 402 then
        Raise (mk_exn Exception [Lit "Payment Required: Insufficient credits"])
      else if status_code =? 403 then
        Raise (mk_exn Exception [Lit "Forbidden: Invalid request origin"])
      else if status_code =? 500 then
        Raise (mk_exn Exception [Lit "Internal Server Error"])
      else
        Raise (mk_exn Exception [Lit "Unexpected status code: "; Int status_code])
  | ResponseNotJson status_code e =>
      if status_code =? 200 then
        Raise (mk_exn Exception [Lit "Request failed: "; Lit e])
      else if status_code =? 400 then
        Raise (mk_exn Exception [Lit "Bad Request: Invalid request body"])
      else if status_code =? 401 then
        Raise (mk_exn Exception [Lit "Unauthorized: Missing or invalid API key"])
      else if status_code =? 402 then
        Raise (mk_exn Exception [Lit "Payment Required: Insufficient credits"])
      else if status_code =? 403 then
        Raise (mk_exn Exception [Lit "Forbidden: Invalid request origin"])
      else if status_code =? 500 then
        Raise (mk_exn Exception [Lit "Internal Server Error"])
      else
        Raise (mk_exn Exception [Lit "Unexpected status code: "; Int status_code])
  | RequestException e =>
      Raise (mk_exn Exception [Lit "Request failed: "; Lit e])
  end.

(** Lines 120-132 of [count]; [response.json()] is at line 121. *)
Definition count_outcome (o : HttpOutcome) : Result JsonDict :=
  match o with
  | Response status_code body =>
      if status_code =? 200 then Ok body
      else if status_code =? 400 then
        Raise (mk_exn Exception [Lit "Bad Request: Invalid request body"])
      else if status_code =? 401 then
        Raise (mk_exn Exception [Lit "Unauthorized: Missing or invalid API key"])
      else if status_code =? 402 then
        Raise (mk_exn Exception [Lit "Payment Required: Insufficient credits"])
      else
        Raise (mk_exn Exception [Lit "Unexpected status code: "; Int status_code])
  | ResponseNotJson status_code e =>
      if status_code =? 200 then
        Raise (mk_exn Exception [Lit "Count request failed: "; Lit e])
      else if status_code =? 400 then
        Raise (mk_exn Exception [Lit "Bad Request: Invalid request body"])
      else if status_code =? 401 then
        Raise (mk_exn Exception [Lit "Unauthorized: Missing or invalid API key"])
      else if status_code =? 402 then
        Raise (mk_exn Exception [Lit "Payment Required: Insufficient credits"])
      else
        Raise (mk_exn Exception [Lit "Unexpected status code: "; Int status_code])
  | RequestException e =>
      Raise (mk_exn Exception [Lit "Count request failed: "; Lit e])
  end.

Section Client.

(** [requests.post(url, headers=..., json=..., timeout=...)], with what
    [response.json()] gives on the response. *)
Variable requests_post : Request -> HttpOutcome.

(** [KeyscoreAPI.search] *)
Definition search (self : KeyscoreAPI) (terms types : list string) (source : string)
    (wildcard regex : bool) (operator : string)
    (date_from date_to : option string)
    (page : Z) (pages : option json) (pagesize : Z) : Result JsonDict :=
  let payload : dict json :=
    [("terms", JArr (map JStr terms));
     ("types", JArr (map JStr types));
     ("source", JStr source);
     ("wildcard", JBool wildcard);
     ("regex", JBool regex);
     ("operator", JStr operator);
     ("page", JNum page);
     ("pagesize", JNum pagesize)] in
  let payload :=
    if truthy_str date_from
    then dict_set "dateFrom" (JStr (get_default date_from "")) payload else payload in
  let payload :=
    if truthy_str date_to
    then dict_set "dateTo" (JStr (get_default date_to "")) payload else payload in
  let payload :=
    if truthy_opt pages
    then dict_set "pages" (get_default pages JNull) payload else payload in
  search_outcome (requests_post {| url := (base_url self ++ "/search")%string;
                                   headers := api_headers self;
                                   payload := payload;
                                   timeout := 30 |}).

(** [KeyscoreAPI.count] *)
Definition count (self : KeyscoreAPI) (terms types : list string) (source : string)
    (wildcard regex : bool) (operator : string)
    (date_from date_to : option string) : Result JsonDict :=
  let payload : dict json :=
    [("terms", JArr (map JStr terms));
     ("types", JArr (map JStr types));
     ("source", JStr source);
     ("wildcard", JBool wildcard);
     ("regex", JBool regex);
     ("operator", JStr operator)] in
  let payload :=
    if truthy_str date_from
    then dict_set "dateFrom" (JStr (get_default date_from "")) payload else payload in
  let payload :=
    if truthy_str date_to
    then dict_set "dateTo" (JStr (get_default date_to "")) payload else payload in
  count_outcome (requests_post {| url := (base_url self ++ "/count")%string;
                                  headers := api_headers self;
                                  payload := payload;
                                  timeout := 30 |}).

End Client.

(* ------------------------------------------------------------------ *)
(** ** KeyscoreAPI.search_all_sources *)

(** The accumulator [all_results = {"results": {}, "size": 0, "took": 0}]. *)
Record AllResults : Type := mk_AllResults {
  results : buckets;
  size : Z;
  took : Z
}.

(** The accumulator seen as the dict handed to the renderers. *)
Definition as_dict (r : AllResults) : JsonDict :=
  mk_JsonDict (Some (results r)) (Some (size r)) (Some (took r)) None None None.

(** The local state of the fan-out loop, with the console it prints to. *)
Record SearchState : Type := mk_SearchState {
  all_results : AllResults;
  successful_sources : Z;
  stdout : list text
}.

Definition say (t : text) (st : SearchState) : SearchState :=
  mk_SearchState (all_results st) (successful_sources st) (print t (stdout st)).

Definition say_end_space (t : text) (st : SearchState) : SearchState :=
  mk_SearchState (all_results st) (successful_sources st)
                 (print_end_space t (stdout st)).

Definition with_results (b : buckets) (st : SearchState) : SearchState :=
  mk_SearchState (mk_AllResults b (size (all_results st)) (took (all_results st)))
                 (successful_sources st) (stdout st).

(** [all_results["size"] += n] *)
Definition add_size (n : Z) (st : SearchState) : SearchState :=
  mk_SearchState (mk_AllResults (results (all_results st))
                                (size (all_results st) + n)
                                (took (all_results st)))
                 (successful_sources st) (stdout st).

(** [all_results["took"] += n] *)
Definition add_took (n : Z) (st : SearchState) : SearchState :=
  mk_SearchState (mk_AllResults (results (all_results st))
                                (size (all_results st))
                                (took (all_results st) + n))
                 (successful_sources st) (stdout st).

(** [successful_sources += 1] *)
Definition incr_successful (st : SearchState) : SearchState :=
  mk_SearchState (all_results st) (successful_sources st + 1) (stdout st).

(** [f"🔸{source}➤{db_name}"] *)
Definition bucket_key (source db_name : string) : string :=
  ("🔸" ++ source ++ "➤" ++ db_name)%string.

(** The body of [for record in records], lines 160-165.  [types[0]] raises
    [IndexError] on an empty list. *)
Definition fix_record (types : list string) (search_term : string) (r : record)
  : Result record :=
  match types with
  | [] => Raise (mk_exn IndexError [Lit "list index out of range"])
  | t0 :: _ =>
      if (t0 =? "email")%string && in_NA_None_empty (dict_get "email" r)
      then Ok (dict_set "email" (JStr search_term) r)
      else if (t0 =? "url")%string && in_NA_None_empty (dict_get "url" r)
      then Ok (dict_set "url" (JStr search_term) r)
      else if (t0 =? "username")%string && in_NA_None_empty (dict_get "username" r)
      then Ok (dict_set "username" (JStr search_term) r)
      else Ok r
  end.

(** [for record in records: ...]: the records are repaired in place, in
    order; an exception leaves the loop. *)
Fixpoint fix_records (types : list string) (search_term : string) (records : list record)
  : Result (list record) :=
  match records with
  | [] => Ok []
  | r :: rest =>
      match fix_record types search_term r with
      | Raise e => Raise e
      | Ok r' =>
          match fix_records types search_term rest with
          | Raise e => Raise e
          | Ok rest' => Ok (r' :: rest')
          end
      end
  end.

(** [for db_name, records in result["results"].items(): ...], lines 157-167.
    Buckets stored before an exception stay stored. *)
Fixpoint merge_buckets (types : list string) (search_term source : string)
    (items : buckets) (acc : buckets) : buckets * option exn :=
  match items with
  | [] => (acc, None)
  | (db_name, records) :: rest =>
      match fix_records types search_term records with
      | Raise e => (acc, Some e)
      | Ok records' =>
          merge_buckets types search_term source rest
                        (dict_set (bucket_key source db_name) records' acc)
      end
  end.

(** [if result.get("results"):] *)
Definition truthy_results (b : option buckets) : bool :=
  match b with
  | Some (_ :: _) => true
  | _ => false
  end.

Section SearchAllSources.

Variable requests_post : Request -> HttpOutcome.

(** The [try] block of one iteration, lines 143-175: the state it leaves
    and the exception that left it, if any. *)
Definition try_source (self : KeyscoreAPI) (terms types : list string)
    (search_term : string) (st : SearchState) (i : Z) (source : string)
  : SearchState * option exn :=
  let st := say_end_space [Lit "   ["; Int i; Lit "/"; Int (len (all_sources self));
                           Lit "] Querying "; Lit source; Lit "..."] st in
  match search requests_post self terms types source
               false false "OR" None None 1 None 10000 with
  | Raise e => (st, Some e)
  | Ok result =>
      let after_if : SearchState * option exn :=
        if truthy_results (d_results result) then
          let found_count := get_default (d_size result) 0 in
          if found_count >? 0 then
            let st := say [Lit "✅ "; Int found_count; Lit " results"] st in
            match merge_buckets types search_term source
                                (get_default (d_results result) [])
                                (results (all_results st)) with
            | (b, Some e) => (with_results b st, Some e)
            | (b, None) => (incr_successful (add_size found_count (with_results b st)), None)
            end
          else (say [Lit "❌ No results"] st, None)
        else (say [Lit "❌ No results"] st, None) in
      match after_if with
      | (st, Some e) => (st, Some e)
      | (st, None) => (add_took (get_default (d_took result) 0) st, None)
      end
  end.

(** One iteration with its [except Exception as e] handler. *)
Definition query_source (self : KeyscoreAPI) (terms types : list string)
    (search_term : string) (st : SearchState) (i : Z) (source : string)
  : SearchState :=
  match try_source self terms types search_term st i source with
  | (st, None) => st
  | (st, Some e) => say ([Lit "⚠️ Error: "] ++ exn_msg e) st
  end.

(** The [for i, source in enumerate(..., 1)] loop over the given sources. *)
Definition search_loop (self : KeyscoreAPI) (terms types : list string)
    (search_term : string) (sources : list (Z * string)) (st : SearchState)
  : SearchState :=
  fold_left (fun st (p : Z * string) =>
               query_source self terms types search_term st (fst p) (snd p))
            sources st.

Definition search_start (self : KeyscoreAPI) : SearchState :=
  say [Lit "📊 This may take a moment as we query multiple databases..."]
    (say [Lit "🔍 Searching across "; Int (len (all_sources self)); Lit " sources..."]
       (mk_SearchState (mk_AllResults [] 0 0) 0 [])).

(** The state when the loop of [search_all_sources] has ended. *)
Definition search_all_sources_state (self : KeyscoreAPI) (terms types : list string)
    (search_term : string) : SearchState :=
  search_loop self terms types search_term
              (enumerate 1 (all_sources self)) (search_start self).

(** [KeyscoreAPI.search_all_sources]: the returned dict and the console. *)
Definition search_all_sources (self : KeyscoreAPI) (terms types : list string)
    (search_term : string) : AllResults * list text :=
  let st := search_all_sources_state self terms types search_term in
  let st := say [NL; Lit "🎯 Search completed! Found data in ";
                 Int (successful_sources st); Lit "/";
                 Int (len (all_sources self)); Lit " sources"] st in
  (all_results st, stdout st).

Definition search_email_all_sources (self : KeyscoreAPI) (email : string) :=
  search_all_sources self [email] ["email"] email.

Definition search_domain_all_sources (self : KeyscoreAPI) (domain : string) :=
  search_all_sources self [domain] ["url"] domain.

Definition search_username_all_sources (self : KeyscoreAPI) (username : string) :=
  search_all_sources self [username] ["username"] username.

End SearchAllSources.

(* ------------------------------------------------------------------ *)
(** ** Rendering: the field groups *)

(** One printed line: [print(t)] writes [t] and a line feed. *)
Definition line (t : text) : text := t ++ [NL].

Definition priority_fields : list string :=
  ["email"; "login"; "username"; "user"; "profile"; "nick"].
Definition password_fields : list string := ["password"; "pass"; "pwd"].
Definition url_fields : list string := ["url"; "website"; "site"; "domain"].

(** [set(priority_fields + password_fields + url_fields)] *)
Definition shown_fields : list string :=
  priority_fields ++ password_fields ++ url_fields.

(** [x in s] for a string [x] *)
Definition str_in (x : string) (s : list string) : bool :=
  existsb (String.eqb x) s.

(** *** Characters of a str

    [for c in s] walks the code points of [s]; on the UTF-8 bytes this cuts
    the string after each encoded code point, whose width is given by its
    first byte. *)
Definition utf8_width (b : ascii) : nat :=
  let n := nat_of_ascii b in
  if (n <? 192)%nat then 1%nat
  else if (n <? 224)%nat then 2%nat
  else if (n <? 240)%nat then 3%nat
  else 4%nat.

Definition flush (cur : string) : list string :=
  match cur with EmptyString => [] | _ => [cur] end.

Fixpoint chars_from (pending : nat) (cur s : string) : list string :=
  match s with
  | EmptyString => flush cur
  | String b rest =>
      match pending with
      | O => flush cur ++ chars_from (utf8_width b - 1) (String b EmptyString) rest
      | S p => chars_from p (cur ++ String b EmptyString)%string rest
      end
  end.

Definition chars (s : string) : list string := chars_from 0 EmptyString s.

(** [c.isalnum()] on the ASCII range. *)
Definition ascii_isalnum (a : ascii) : bool :=
  let n := nat_of_ascii a in
  ((48 <=? n) && (n <=? 57) || (65 <=? n) && (n <=? 90) || (97 <=? n) && (n <=? 122))%nat.

(** [s.lower()] on the ASCII range. *)
Definition ascii_lower_char (a : ascii) : ascii :=
  let n := nat_of_ascii a in
  if ((65 <=? n) && (n <=? 90))%nat then ascii_of_nat (n + 32) else a.

Fixpoint ascii_lower (s : string) : string :=
  match s with
  | EmptyString => EmptyString
  | String a rest => String (ascii_lower_char a) (ascii_lower rest)
  end.

(** [isalnum] restricted to one-byte characters, false elsewhere: an
    instance of the Section variable [isalnum] below that is exact on ASCII
    input. *)
Definition isalnum_ascii_only (c : string) : bool :=
  match c with
  | String a EmptyString => (nat_of_ascii a <? 128)%nat && ascii_isalnum a
  | _ => false
  end.

(* ------------------------------------------------------------------ *)
(** ** print_results *)

Section PrintResults.

(** [str.lower] *)
Variable lower : string -> string.

(** [for field in fields: if field in record and record[field] and
    record[field] != 'N/A': print(...); break], lines 224-239. *)
Fixpoint print_first (fields : list string) (r : record) : list text :=
  match fields with
  | [] => []
  | field :: rest =>
      match dict_get field r with
      | Some v =>
          if truthy v && negb (is_NA v)
          then [line [Lit "      "; Title field; Lit ": "; Val v]]
          else print_first rest r
      | None => print_first rest r
      end
  end.

(** [for field, value in record.items(): ...], lines 243-245. *)
Fixpoint print_others (items : record) : list text :=
  match items with
  | [] => []
  | (field, value) :: rest =>
      (if negb (str_in (lower field) shown_fields) && truthy value && negb (is_NA value)
       then [line [Lit "      "; TitleSpaced field; Lit ": "; Val value]]
       else [])
      ++ print_others rest
  end.

(** The body of [for i, record in enumerate(records, 1)], lines 215-247,
    given the value of [total_records] after its increment. *)
Definition print_record (total_records i : Z) (r : record) : list text :=
  [line [Lit "  ["; Int total_records; Lit "] Record "; Int i; Lit ":"]]
  ++ print_first priority_fields r
  ++ print_first password_fields r
  ++ print_first url_fields r
  ++ print_others r
  ++ [line [Rep "-" 30]].

Fixpoint print_records (records : list (Z * record)) (total_records : Z)
  : list text * Z :=
  match records with
  | [] => ([], total_records)
  | (i, r) :: rest =>
      let total_records := total_records + 1 in
      let (out, n) := print_records rest total_records in
      (print_record total_records i r ++ out, n)
  end.

(** [for db_name, records in results["results"].items()], lines 209-247. *)
Fixpoint print_buckets (items : buckets) (total_records : Z) : list text * Z :=
  match items with
  | [] => ([], total_records)
  | (db_name, records) :: rest =>
      let (out1, n1) := print_records (enumerate 1 records) total_records in
      let (out2, n2) := print_buckets rest n1 in
      ([line [NL; Lit "🗄️  Database: "; Lit db_name];
        line [Lit "📈 Records found: "; Int (len records)];
        line [Rep "-" 40]] ++ out1 ++ out2, n2)
  end.

(** [print_results]: what it prints. *)
Definition print_results (res : JsonDict) : list text :=
  match d_results res with
  | Some items =>
      [line [NL; Lit "=== 📊 SEARCH RESULTS ==="];
       line [Lit "Total results: "; Int (get_default (d_size res) 0)];
       line [Lit "Search took: "; Int (get_default (d_took res) 0); Lit "ms"];
       line [Rep "-" 60]]
      ++ (if get_default (d_size res) 0 =? 0
          then [line [Lit "❌ No results found across any sources"]]
          else
            let (out, total_records) := print_buckets items 0 in
            out ++ [line [NL; Lit "📈 Total records displayed: "; Int total_records]])
  | None => [line [Lit "❌ No results found or unexpected response format"]]
  end.

End PrintResults.

(* ------------------------------------------------------------------ *)
(** ** save_results_to_file *)

Section SaveResults.

(** [str.lower] and [str.isalnum] (on one character). *)
Variable lower : string -> string.
Variable isalnum : string -> bool.

(** [open(filename, 'w', encoding='utf-8')]: the exception it raises, if
    any; and [os.path.getsize(filename)] once the file is closed.  In this
    section the writes, the [close] and [os.path.getsize] succeed; the
    section on a file system that can fail, further down, lets each of
    them raise. *)
Variable open_w : string -> option exn.
Variable getsize : string -> Z.

(** [c.isalnum() or c in ('-', '_', '.')] *)
Definition keep_char (c : string) : bool :=
  isalnum c || str_in c ["-"; "_"; "."].

(** Line 257: [safe_term] *)
Definition sanitize (search_term : string) : string :=
  String.concat "" (filter keep_char (chars search_term)).

(** Line 258: [filename] *)
Definition output_filename (search_term search_type : string) : string :=
  (sanitize search_term ++ "-" ++ search_type ++ "-output.txt")%string.

(** Lines 305-320, writing to [f]. *)
Fixpoint write_first (fields : list string) (r : record) : list text :=
  match fields with
  | [] => []
  | field :: rest =>
      match dict_get field r with
      | Some v =>
          if truthy v && negb (is_NA v)
          then [[Lit "      "; Title field; Lit ": "; Val v; NL]]
          else write_first rest r
      | None => write_first rest r
      end
  end.

(** Lines 324-326. *)
Fixpoint write_others (items : record) : list text :=
  match items with
  | [] => []
  | (field, value) :: rest =>
      (if negb (str_in (lower field) shown_fields) && truthy value && negb (is_NA value)
       then [[Lit "      "; TitleSpaced field; Lit ": "; Val value; NL]]
       else [])
      ++ write_others rest
  end.

(** The body of [for i, record in enumerate(records, 1)], lines 291-328,
    given [record_count] after its increment: the progress message on the
    console and the writes to the file. *)
Definition write_record (record_count total_records i : Z) (r : record)
  : list text * list text :=
  ((if record_count mod 1000 =? 0
    then [line [Lit "   📝 Writing record "; Int record_count; Lit "/";
                Int total_records; Lit "..."]]
    else []),
   [[Lit "  ["; Int record_count; Lit "] Record "; Int i; Lit ":"; NL]]
   ++ write_first priority_fields r
   ++ write_first password_fields r
   ++ write_first url_fields r
   ++ write_others r
   ++ [[Rep "-" 30; NL]]).

Fixpoint write_records (records : list (Z * record)) (record_count total_records : Z)
  : list text * list text * Z :=
  match records with
  | [] => ([], [], record_count)
  | (i, r) :: rest =>
      let record_count := record_count + 1 in
      let (con1, file1) := write_record record_count total_records i r in
      let '(con2, file2, n) := write_records rest record_count total_records in
      (con1 ++ con2, file1 ++ file2, n)
  end.

(** [for db_name, records in results.get("results", {}).items()],
    lines 284-330. *)
Fixpoint write_buckets (items : buckets) (record_count total_records : Z)
  : list text * list text * Z :=
  match items with
  | [] => ([], [], record_count)
  | (db_name, records) :: rest =>
      let '(con1, file1, n1) :=
        write_records (enumerate 1 records) record_count total_records in
      let '(con2, file2, n2) := write_buckets rest n1 total_records in
      (con1 ++ con2,
       [[Rep "-" 60; NL];
        [Lit "🗄️  Database: "; Lit db_name; NL];
        [Lit "📈 Records found: "; Int (len records); NL];
        [Rep "-" 40; NL]]
       ++ file1 ++ [[NL]] ++ file2,
       n2)
  end.

(** The header, lines 265-273. *)
Definition write_header (res : JsonDict) (search_term search_type : string)
  : list text :=
  [[Rep "=" 80; NL];
   [Lit "KEYSCORE BREACH DATABASE SEARCH RESULTS"; NL];
   [Rep "=" 80; NL];
   [Lit "Search Term: "; Lit search_term; NL];
   [Lit "Search Type: "; Lit search_type; NL];
   [Lit "Generated: "; Now; NL];
   [Lit "Total Results: "; Int (get_default (d_size res) 0); NL];
   [Lit "Search Duration: "; Int (get_default (d_took res) 0); Lit "ms"; NL];
   [Rep "=" 80; NL; NL]].

(** The summary, lines 333-341. *)
Definition write_summary (res : JsonDict) (search_term search_type : string)
    (record_count : Z) : list text :=
  [[Rep "=" 80; NL];
   [Lit "SEARCH SUMMARY"; NL];
   [Rep "=" 80; NL];
   [Lit "Total Records: "; Int record_count; NL];
   [Lit "Databases with Results: "; Int (len (get_default (d_results res) [])); NL];
   [Lit "Search Term: "; Lit search_term; NL];
   [Lit "Search Type: "; Upper search_type; NL];
   [Lit "File Generated: "; Now; NL];
   [Rep "=" 80; NL]].

(** Lines 346-351: [size_str] *)
Definition size_str (file_size : Z) : text :=
  if file_size >? 1024 * 1024 then [Fixed1 file_size (1024 * 1024); Lit " MB"]
  else if file_size >? 1024 then [Fixed1 file_size 1024; Lit " KB"]
  else [Int file_size; Lit " bytes"].

(** The [except] clauses, lines 359-374. *)
Definition save_failed (res : JsonDict) (filename : string) (e : exn) : list text :=
  match exn_type e with
  | PermissionError =>
      [line [Lit "❌ Permission denied: Cannot write to "; Lit filename];
       line [Lit "   💡 Try running with different permissions or change directory"]]
  | OSError =>
      [line ([Lit "❌ File system error: "] ++ exn_msg e);
       line [Lit "   💡 Check disk space and file path validity"]]
  | MemoryError =>
      [line [Lit "❌ Not enough memory to save "; Int (get_default (d_size res) 0);
             Lit " records"];
       line [Lit "   💡 Try searching with smaller result sets or increase system memory"]]
  | c =>
      [line ([Lit "❌ Unexpected error saving file: "] ++ exn_msg e);
       line [Lit "   💡 Error type: "; Lit (exn_name c)]]
  end.

(** [save_results_to_file]: the console output, the text written to the
    file, and the returned file name ([None] on failure). *)
Definition save_results_to_file (res : JsonDict) (search_term search_type : string)
  : list text * list text * option string :=
  let filename := output_filename search_term search_type in
  let preparing :=
    [line [Lit "💾 Preparing to save "; Int (get_default (d_size res) 0);
           Lit " records..."]] in
  match open_w filename with
  | Some e => (preparing ++ save_failed res filename e, [], None)
  | None =>
      let header := write_header res search_term search_type in
      if get_default (d_size res) 0 =? 0 then
        (preparing ++ [line [Lit "✅ Empty results saved to: "; Lit filename]],
         header ++ [[Lit "No results found across any sources."; NL]],
         Some filename)
      else
        let total_records := get_default (d_size res) 0 in
        let '(progress, body, record_count) :=
          write_buckets (get_default (d_results res) []) 0 total_records in
        (preparing ++ progress
         ++ [line [Lit "✅ Results saved successfully!"];
             line [Lit "   📁 File: "; Lit filename];
             line [Lit "   📊 Records: "; IntComma record_count];
             line ([Lit "   💾 Size: "] ++ size_str (getsize filename))],
         header ++ body ++ write_summary res search_term search_type record_count,
         Some filename)
  end.

End SaveResults.

(* ------------------------------------------------------------------ *)
(** ** print_count_results *)

(** Lines 391 and 415: [pages_needed = (count // 10000) + 1] *)
Definition pages_needed (count : Z) : Z := count / 10000 + 1.

(** Lines 388-392: the credit estimate for [count] records. *)
Definition print_credits (count : Z) : list text :=
  [line [Lit "💰 Estimated credits for full search:"];
   line [Lit "   - Single page: 1 credit (up to 10,000 records)"]]
  ++ (if count >? 10000
      then
        [line [Lit "   - All data: ~"; Int (pages_needed count); Lit " credits (";
               Int (pages_needed count); Lit " pages)"]]
      else []).

(** [for source, count in counts.items()], lines 405-409. *)
Fixpoint print_breakdown (items : dict Z) : list text :=
  match items with
  | [] => []
  | (source, count) :: rest =>
      (if count >? 0
       then line [Lit "   ✅ "; Lit source; Lit ": "; IntComma count; Lit " records"]
       else line [Lit "   ❌ "; Lit source; Lit ": No records"])
      :: print_breakdown rest
  end.

(** [print_count_results] *)
Definition print_count_results (count_data : JsonDict) (search_terms : list string)
    (search_type : string) : list text :=
  [line [NL; Lit "=== 📊 COUNT RESULTS ==="];
   line [Lit "Search terms: "; Lit (String.concat ", " search_terms)];
   line [Lit "Search type: "; Lit search_type];
   line [Rep "-" 50]]
  ++ match d_count count_data with
     | Some count =>
         [line [Lit "🔢 Total records available: "; IntComma count]]
         ++ (if count >? 0
             then print_credits count
             else [line [Lit "❌ No records found for this search"]])
     | None =>
         match d_counts count_data, d_total_count count_data with
         | Some counts, Some total_count =>
             let took := get_default (d_took count_data) 0 in
             [line [Lit "🔢 Total records available: "; IntComma total_count];
              line [Lit "⏱️  Search took: "; Int took; Lit "ms"];
              line [NL; Lit "📊 Breakdown by source:"]]
             ++ print_breakdown counts
             ++ (if total_count >? 0
                 then
                   [line [NL; Lit "💰 Estimated credits for full search:"];
                    line [Lit "   - Single page: 1 credit (up to 10,000 records)"]]
                   ++ (if total_count >? 10000
                       then
                         [line [Lit "   - All data: ~"; Int (pages_needed total_count);
                                Lit " credits ("; Int (pages_needed total_count);
                                Lit " pages)"]]
                       else [])
                 else [])
         | _, _ => [line [Lit "❌ Unexpected response format"]]
         end
     end.

(* ------------------------------------------------------------------ *)
(** ** count_all_sources *)

Record CountState : Type := mk_CountState {
  total_count : Z;
  source_counts : dict Z;
  count_stdout : list text
}.

Section CountAllSources.

Variable requests_post : Request -> HttpOutcome.

(** One iteration of the loop, lines 428-437. *)
Definition count_source (api : KeyscoreAPI) (terms types : list string)
    (st : CountState) (source : string) : CountState :=
  let out := print_end_space [Lit "   Counting "; Lit source; Lit "..."]
                             (count_stdout st) in
  match count requests_post api terms types source false false "OR" None None with
  | Ok result =>
      let n := get_default (d_count result) 0 in
      mk_CountState (total_count st + n)
                    (dict_set source n (source_counts st))
                    (print [IntComma n; Lit " results"] out)
  | Raise e =>
      mk_CountState (total_count st)
                    (dict_set source 0 (source_counts st))
                    (print ([Lit "Error: "] ++ exn_msg e) out)
  end.

Definition count_loop (api : KeyscoreAPI) (terms types : list string)
    (sources : list string) (st : CountState) : CountState :=
  fold_left (count_source api terms types) sources st.

(** The state when the loop of [count_all_sources] has ended. *)
Definition count_all_sources_state (api : KeyscoreAPI) (terms types : list string)
  : CountState :=
  count_loop api terms types (all_sources api)
             (mk_CountState 0 [] [[Lit "📊 Getting counts from all sources..."; NL]]).

(** [count_all_sources]: the returned dict and the console. *)
Definition count_all_sources (api : KeyscoreAPI) (terms types : list string)
  : JsonDict * list text :=
  let st := count_all_sources_state api terms types in
  (mk_JsonDict None None (Some 0) None (Some (source_counts st)) (Some (total_count st)),
   count_stdout st).

End CountAllSources.

(* ------------------------------------------------------------------ *)
(** ** Vocabulary of the specification

    The definitions below are not translated from [api.py]: they name the
    notions the specification uses, so that the properties can be stated
    against the code above. *)

(** The error kinds of the specification (§3). *)
Inductive ErrorKind : Type :=
| Transport
| BadRequest
| Unauthorized
| PaymentRequired
| Forbidden
| ServerError
| Unexpected (code : Z).

(** The specification's mapping of a non-200 status code (§6). *)
Definition status_error_kind (code : Z) : ErrorKind :=
  if code =? 400 then BadRequest
  else if code =? 401 then Unauthorized
  else if code =? 402 then PaymentRequired
  else if code =? 403 then Forbidden
  else if code =? 500 then ServerError
  else Unexpected code.

(** The same mapping restricted to the codes 400, 401 and 402. *)
Definition count_status_error_kind (code : Z) : ErrorKind :=
  if code =? 400 then BadRequest
  else if code =? 401 then Unauthorized
  else if code =? 402 then PaymentRequired
  else Unexpected code.

(** The kind an exception of the client stands for: the client raises a
    plain [Exception] whose message tells the kinds apart. *)
Definition error_kind (e : exn) : option ErrorKind :=
  match exn_msg e with
  | [Lit s] =>
      if (s =? "Bad Request: Invalid request body")%string then Some BadRequest
      else if (s =? "Unauthorized: Missing or invalid API key")%string then Some Unauthorized
      else if (s =? "Payment Required: Insufficient credits")%string then Some PaymentRequired
      else if (s =? "Forbidden: Invalid request origin")%string then Some Forbidden
      else if (s =? "Internal Server Error")%string then Some ServerError
      else None
  | [Lit s; Int code] =>
      if (s =? "Unexpected status code: ")%string then Some (Unexpected code) else None
  | [Lit s; Lit _] =>
      if (s =? "Request failed: ")%string || (s =? "Count request failed: ")%string
      then Some Transport else None
  | _ => None
  end.

(** [Σ len(bucket.records)] over all buckets. *)
Definition total_records (b : buckets) : Z :=
  sum (map (fun kv : string * list record => len (snd kv)) b).

(** A response body that would be merged: its results are a dict and its
    size is the number of records it carries. *)
Definition size_consistent (result : JsonDict) : Prop :=
  dict_wf (get_default (d_results result) [])
  /\ get_default (d_size result) 0 = total_records (get_default (d_results result) []).

(** No source identifier of the list is a prefix of a later or earlier one
    (in particular, no identifier occurs twice). *)
Fixpoint prefix_free (l : list string) : bool :=
  match l with
  | [] => true
  | s :: l' =>
      forallb (fun s' => negb (prefix s s') && negb (prefix s' s)) l'
      && prefix_free l'
  end.

(** The fields normalization may repair. *)
Definition repairable (t0 : string) : bool :=
  (t0 =? "email")%string || (t0 =? "url")%string || (t0 =? "username")%string.

(** §4.2: [r'] is [r] normalized for the query type [t0] and the term. *)
Definition normalized (t0 search_term : string) (r r' : record) : Prop :=
  if repairable t0 && in_NA_None_empty (dict_get t0 r)
  then dict_get t0 r' = Some (JStr search_term)
       /\ (forall k, k <> t0 -> dict_get k r' = dict_get k r)
  else r' = r.

(** The records of a merged bucket against the records the source sent:
    each is the normalization of its original for the first query type. *)
Definition normalized_all (types : list string) (search_term : string)
    (orig recs : list record) : Prop :=
  Forall2 (fun r r' => exists t0, hd_error types = Some t0
                                  /\ normalized t0 search_term r r')
          orig recs.

(** A bucket of the accumulator comes from a source of the catalog: its key
    is made of the source and a database name of the source's response. *)
Definition from_response (requests_post : Request -> HttpOutcome) (self : KeyscoreAPI)
    (terms types : list string) (search_term : string)
    (key : string) (recs : list record) : Prop :=
  exists (source db : string) (result : JsonDict) (items : buckets) (orig : list record),
    In source (all_sources self)
    /\ search requests_post self terms types source false false "OR" None None 1 None 10000
       = Ok result
    /\ d_results result = Some items
    /\ In (db, orig) items
    /\ key = bucket_key source db
    /\ normalized_all types search_term orig recs.

(** Every bucket of the accumulator comes from a response. *)
Definition provenance (requests_post : Request -> HttpOutcome) (self : KeyscoreAPI)
    (terms types : list string) (search_term : string) (st : SearchState) : Prop :=
  forall key recs,
    In (key, recs) (results (all_results st)) ->
    from_response requests_post self terms types search_term key recs.

(** The invariant of the fan-out loop once the sources [S] were queried:
    [size] counts the records of the buckets, and every bucket key is made
    of one of these sources. *)
Definition size_invariant (S : list string) (st : SearchState) : Prop :=
  size (all_results st) = total_records (results (all_results st))
  /\ forall key, In key (dict_keys (results (all_results st))) ->
                 exists s d, In s S /\ key = bucket_key s d.

(** §4.3: the per-source count of a count run: the count of the response,
    0 for a failed call. *)
Definition recorded_count (requests_post : Request -> HttpOutcome) (api : KeyscoreAPI)
    (terms types : list string) (source : string) : Z :=
  match count requests_post api terms types source false false "OR" None None with
  | Ok result => get_default (d_count result) 0
  | Raise _ => 0
  end.

(** §4.3: [ceil(count / 10000)] and the credit estimate. *)
Definition ceil_div (a b : Z) : Z := (a + b - 1) / b.

Definition credit_estimate (count : Z) : Z :=
  if count <=? 10000 then 1 else ceil_div count 10000.

(** The field a chunk of a report renders, if it is a field line: whether
    it comes from a priority group, the field name and the value. *)
Definition selected_field (t : text) : list (bool * string * json) :=
  match t with
  | [Lit _; Title f; Lit _; Val v; NL] => [(true, f, v)]
  | [Lit _; TitleSpaced f; Lit _; Val v; NL] => [(false, f, v)]
  | _ => []
  end.

(** The fields a report renders, in order. *)
Definition selected (out : list text) : list (bool * string * json) :=
  flat_map selected_field out.

(** §4.4: a rendered field obeys the selection rule: it is non-empty and not
    "N/A", and either it stands for a priority group and its name is one of
    the group names, or it comes from the remaining-fields pass and its
    lower-cased name is none of them. *)
Definition obeys_selection (lower : string -> string) (x : bool * string * json) : Prop :=
  (if fst (fst x)
   then str_in (snd (fst x)) shown_fields = true
   else str_in (lower (snd (fst x))) shown_fields = false)
  /\ truthy (snd x) = true /\ is_NA (snd x) = false.

(** A string that is one encoded character: a first byte followed by as
    many bytes as its width asks for; and one that may stop short of that
    (the cut-off tail of a byte string that is not valid UTF-8). *)
Definition whole_char (c : string) : Prop :=
  match c with
  | EmptyString => False
  | String b rest => String.length rest = (utf8_width b - 1)%nat
  end.

Definition started_char (c : string) : Prop :=
  match c with
  | EmptyString => False
  | String b rest => (String.length rest <= utf8_width b - 1)%nat
  end.

(** A list of characters as [chars] yields them: whole ones, the last one
    possibly cut off. *)
Fixpoint chars_wf (l : list string) : Prop :=
  match l with
  | [] => True
  | c :: l' =>
      match l' with
      | [] => started_char c
      | _ :: _ => whole_char c /\ chars_wf l'
      end
  end.

(** A chunk that carries a credit estimate. *)
Definition is_credit_line (t : text) : bool :=
  match t with
  | Lit s :: _ =>
      (s =? "💰 Estimated credits for full search:")%string
      || (s =? "   - Single page: 1 credit (up to 10,000 records)")%string
      || (s =? "   - All data: ~")%string
  | NL :: Lit s :: _ => (s =? "💰 Estimated credits for full search:")%string
  | _ => false
  end.

(* ------------------------------------------------------------------ *)
(** ** Sample data *)

Definition sample_api : KeyscoreAPI := KeyscoreAPI_init "k".

(** A service that answers every request with status 401. *)
Definition always_401 (_ : Request) : HttpOutcome := Response 401 empty_dict.

(** A service that answers every request with one record and a reported
    size of five. *)
Definition one_record_size5 (_ : Request) : HttpOutcome :=
  Response 200 (mk_JsonDict (Some [("db", [[("password", JStr "x")]])])
                            (Some 5) (Some 1) None None None).

(** A service that answers every request with no results in 7 ms. *)
Definition nothing_in_7ms (_ : Request) : HttpOutcome :=
  Response 200 (mk_JsonDict (Some []) (Some 0) (Some 7) None None None).

(** A service whose first source [xkeyscore] is unauthorized and whose
    other sources return two records with an empty e-mail field. *)
Definition first_source_fails (req : Request) : HttpOutcome :=
  match dict_get "source" (payload req) with
  | Some (JStr "xkeyscore") => Response 401 empty_dict
  | _ =>
      Response 200 (mk_JsonDict
                      (Some [("db", [[("email", JStr ""); ("password", JStr "x")];
                                     [("password", JStr "y")]])])
                      (Some 2) (Some 3) (Some 2) None None)
  end.

(** A service that answers every request with two records and a reported
    size of two. *)
Definition two_records_each (_ : Request) : HttpOutcome :=
  Response 200 (mk_JsonDict
                  (Some [("db", [[("email", JStr "N/A"); ("password", JStr "x")];
                                 [("password", JStr "y")]])])
                  (Some 2) (Some 3) None None None).

Definition sample_record : record :=
  [("Email", JStr "a@b.com"); ("login", JStr "bob"); ("PASSWORD", JStr "hunter2");
   ("pwd", JStr "N/A"); ("site", JStr "example.org"); ("first_name", JStr "Bob");
   ("note", JStr "")].

Definition sample_results : JsonDict :=
  mk_JsonDict (Some [("🔸xkeyscore➤db", [sample_record])]) (Some 1) (Some 3)
              None None None.

(** A record with two fields of the identity group, two of the password
    group and one of the location group. *)
Definition two_names_record : record :=
  [("login", JStr "bob"); ("email", JStr "a@b.com"); ("pass", JStr "y");
   ("password", JStr "x"); ("site", JStr "example.org")].

(** Results in two buckets, of two records and of one, whose reported
    size is 7. *)
Definition two_bucket_results : JsonDict :=
  mk_JsonDict (Some [("🔸xkeyscore➤db", [sample_record; two_names_record]);
                     ("🔸snusbase➤dump", [two_names_record])])
              (Some 7) (Some 3) None None None.

(** A file system on which every file can be opened and holds 2048 bytes
    afterwards. *)
Definition open_ok (_ : string) : option exn := None.
Definition getsize_2048 (_ : string) : Z := 2048.

(* ------------------------------------------------------------------ *)
(** ** The requests of the client *)

(** Lines 47-72 of [search]: the request handed to [requests.post]. *)
Definition search_request (self : KeyscoreAPI) (terms types : list string)
    (source : string) (wildcard regex : bool) (operator : string)
    (date_from date_to : option string)
    (page : Z) (pages : option json) (pagesize : Z) : Request :=
  let payload : dict json :=
    [("terms", JArr (map JStr terms));
     ("types", JArr (map JStr types));
     ("source", JStr source);
     ("wildcard", JBool wildcard);
     ("regex", JBool regex);
     ("operator", JStr operator);
     ("page", JNum page);
     ("pagesize", JNum pagesize)] in
  let payload :=
    if truthy_str date_from
    then dict_set "dateFrom" (JStr (get_default date_from "")) payload else payload in
  let payload :=
    if truthy_str date_to
    then dict_set "dateTo" (JStr (get_default date_to "")) payload else payload in
  let payload :=
    if truthy_opt pages
    then dict_set "pages" (get_default pages JNull) payload else payload in
  {| url := (base_url self ++ "/search")%string;
     headers := api_headers self;
     payload := payload;
     timeout := 30 |}.

(** Lines 98-118 of [count]: the request handed to [requests.post]. *)
Definition count_request (self : KeyscoreAPI) (terms types : list string)
    (source : string) (wildcard regex : bool) (operator : string)
    (date_from date_to : option string) : Request :=
  let payload : dict json :=
    [("terms", JArr (map JStr terms));
     ("types", JArr (map JStr types));
     ("source", JStr source);
     ("wildcard", JBool wildcard);
     ("regex", JBool regex);
     ("operator", JStr operator)] in
  let payload :=
    if truthy_str date_from
    then dict_set "dateFrom" (JStr (get_default date_from "")) payload else payload in
  let payload :=
    if truthy_str date_to
    then dict_set "dateTo" (JStr (get_default date_to "")) payload else payload in
  {| url := (base_url self ++ "/count")%string;
     headers := api_headers self;
     payload := payload;
     timeout := 30 |}.

(** The request [search_all_sources] posts for a source: the call of line
    146 passes terms, types and source and leaves every other parameter of
    [search] at its default. *)
Definition fan_out_request (self : KeyscoreAPI) (terms types : list string)
    (source : string) : Request :=
  {| url := (base_url self ++ "/search")%string;
     headers := api_headers self;
     payload := [("terms", JArr (map JStr terms));
                 ("types", JArr (map JStr types));
                 ("source", JStr source);
                 ("wildcard", JBool false);
                 ("regex", JBool false);
                 ("operator", JStr "OR");
                 ("page", JNum 1);
                 ("pagesize", JNum 10000)];
     timeout := 30 |}.

(* ------------------------------------------------------------------ *)
(** ** What one source contributes to the aggregate *)

(** The response of a source when its buckets are merged: the call
    succeeded, the results are a non-empty dict and the size is positive. *)
Definition merged_response (requests_post : Request -> HttpOutcome) (self : KeyscoreAPI)
    (terms types : list string) (source : string) : option JsonDict :=
  match search requests_post self terms types source
               false false "OR" None None 1 None 10000 with
  | Ok result =>
      if truthy_results (d_results result) && (get_default (d_size result) 0 >? 0)
      then Some result else None
  | Raise _ => None
  end.

(** A record after lines 160-165, when [types] is not empty. *)
Definition repaired (types : list string) (search_term : string) (r : record) : record :=
  match fix_record types search_term r with
  | Ok r' => r'
  | Raise _ => r
  end.

(** The buckets a source adds to [all_results["results"]]. *)
Definition buckets_of (requests_post : Request -> HttpOutcome) (self : KeyscoreAPI)
    (terms types : list string) (search_term source : string) : buckets :=
  match merged_response requests_post self terms types source with
  | Some result =>
      map (fun kv : string * list record =>
             (bucket_key source (fst kv), map (repaired types search_term) (snd kv)))
          (get_default (d_results result) [])
  | None => []
  end.

(** What a source adds to [size], to [successful_sources] and to [took]. *)
Definition size_of (requests_post : Request -> HttpOutcome) (self : KeyscoreAPI)
    (terms types : list string) (source : string) : Z :=
  match merged_response requests_post self terms types source with
  | Some result => get_default (d_size result) 0
  | None => 0
  end.

Definition success_of (requests_post : Request -> HttpOutcome) (self : KeyscoreAPI)
    (terms types : list string) (source : string) : Z :=
  match merged_response requests_post self terms types source with
  | Some _ => 1
  | None => 0
  end.

Definition took_of (requests_post : Request -> HttpOutcome) (self : KeyscoreAPI)
    (terms types : list string) (source : string) : Z :=
  match search requests_post self terms types source
               false false "OR" None None 1 None 10000 with
  | Ok result => get_default (d_took result) 0
  | Raise _ => 0
  end.

(** A field of a record that a group scan would print. *)
Definition renderable (r : record) (field : string) : bool :=
  match dict_get field r with
  | Some v => truthy v && negb (is_NA v)
  | None => false
  end.

(** The [(total_records, i)] pairs of the [Record] header lines of a report. *)
Definition record_number (t : text) : list (Z * Z) :=
  match t with
  | [Lit a; Int n; Lit b; Int i; Lit c; NL] =>
      if (a =? "  [")%string && (b =? "] Record ")%string && (c =? ":")%string
      then [(n, i)] else []
  | _ => []
  end.

Definition record_numbers (out : list text) : list (Z * Z) :=
  flat_map record_number out.

(** All records of a result dict, bucket after bucket. *)
Definition all_records (b : buckets) : list record := flat_map snd b.

(** [start, start + 1, ...], [k] numbers. *)
Fixpoint Zseq (start : Z) (k : nat) : list Z :=
  match k with
  | O => []
  | S k' => start :: Zseq (start + 1) k'
  end.

(** The progress messages of [save_results_to_file] among its console
    chunks. *)
Definition is_progress_line (t : text) : bool :=
  match t with
  | Lit s :: _ => (s =? "   📝 Writing record ")%string
  | _ => false
  end.

(* ------------------------------------------------------------------ *)
(** ** count_all_sources against a service that changes

    Above, the service is a function of the request.  When the catalog
    names a source twice the loop posts the same request twice, and the
    service can answer the two calls differently.  Here its answer depends
    on the number of the call as well. *)

Section CountAllSourcesCalls.

(** The answer to the call number [k] of the run, from 0. *)
Variable requests_post_at : nat -> Request -> HttpOutcome.

(** The loop of lines 427-437 from the call number [k] on. *)
Fixpoint count_loop_at (api : KeyscoreAPI) (terms types : list string)
    (sources : list string) (k : nat) (st : CountState) : CountState :=
  match sources with
  | [] => st
  | source :: rest =>
      count_loop_at api terms types rest (S k)
                    (count_source (requests_post_at k) api terms types st source)
  end.

(** [count_all_sources] *)
Definition count_all_sources_at (api : KeyscoreAPI) (terms types : list string)
  : JsonDict * list text :=
  let st :=
    count_loop_at api terms types (all_sources api) 0
      (mk_CountState 0 [] [[Lit "📊 Getting counts from all sources..."; NL]]) in
  (mk_JsonDict None None (Some 0) None (Some (source_counts st)) (Some (total_count st)),
   count_stdout st).

End CountAllSourcesCalls.

(** The calls of the loop: each source of the list with the number of its
    call, counted from [k]. *)
Fixpoint calls_from (k : nat) (sources : list string) : list (nat * string) :=
  match sources with
  | [] => []
  | source :: rest => (k, source) :: calls_from (S k) rest
  end.

(** The number of the last call made for a source, if any. *)
Fixpoint last_call_from (k : nat) (s : string) (sources : list string) : option nat :=
  match sources with
  | [] => None
  | source :: rest =>
      match last_call_from (S k) s rest with
      | Some j => Some j
      | None => if (s =? source)%string then Some k else None
      end
  end.

(** A catalog that names [xkeyscore] twice, and a service that answers the
    first call with a count of 3 and refuses every later one. *)
Definition catalog_with_duplicate : KeyscoreAPI :=
  mk_KeyscoreAPI "k" "https://api.keysco.re" [] ["xkeyscore"; "snusbase"; "xkeyscore"].

Definition three_then_unauthorized (k : nat) (_ : Request) : HttpOutcome :=
  match k with
  | O => Response 200 (mk_JsonDict None None None (Some 3) None None)
  | _ => Response 401 empty_dict
  end.

(* ------------------------------------------------------------------ *)
(** ** save_results_to_file on a file system that can fail

    [save_results_to_file] above takes every operation on the file for
    granted once [open] has succeeded.  Here each of them can raise: [open],
    every [f.write], the [close] that ends the [with] block, and
    [os.path.getsize]. *)

Record FileSystem : Type := mk_FileSystem {
  fs_open : string -> option exn;           (* open(filename, 'w', encoding='utf-8') *)
  fs_write : string -> nat -> option exn;   (* the k-th f.write on the file, from 0 *)
  fs_close : string -> option exn;          (* f.close(), on leaving the with block *)
  fs_getsize : string -> Result Z           (* os.path.getsize(filename) *)
}.

(** What the [with] block of lines 263-341 does, in program order. *)
Inductive file_event : Type :=
| Printed (t : text)            (* print(t) *)
| Written (t : text).           (* f.write(t) *)

(** [print]ed chunks and chunks handed to [f.write], each in order. *)
Fixpoint printed (evs : list file_event) : list text :=
  match evs with
  | [] => []
  | Printed t :: rest => t :: printed rest
  | Written _ :: rest => printed rest
  end.

Fixpoint written (evs : list file_event) : list text :=
  match evs with
  | [] => []
  | Printed _ :: rest => written rest
  | Written t :: rest => t :: written rest
  end.

(** The events up to the first [f.write] that raises: what was printed,
    what was written, and the exception.  [k] counts the writes done. *)
Fixpoint run_events (write : nat -> option exn) (k : nat) (evs : list file_event)
  : list text * list text * option exn :=
  match evs with
  | [] => ([], [], None)
  | Printed t :: rest =>
      let '(con, file, e) := run_events write k rest in (t :: con, file, e)
  | Written t :: rest =>
      match write k with
      | Some e => ([], [], Some e)
      | None =>
          let '(con, file, e) := run_events write (S k) rest in (con, t :: file, e)
      end
  end.

Section SaveOnFileSystem.

Variable lower : string -> string.
Variable isalnum : string -> bool.
Variable fs : FileSystem.

(** Lines 291-328: the progress message comes before the writes of the
    record. *)
Definition record_events (record_count total_records i : Z) (r : record)
  : list file_event :=
  map Printed (fst (write_record lower record_count total_records i r))
  ++ map Written (snd (write_record lower record_count total_records i r)).

Fixpoint records_events (records : list (Z * record)) (record_count total_records : Z)
  : list file_event * Z :=
  match records with
  | [] => ([], record_count)
  | (i, r) :: rest =>
      let record_count := record_count + 1 in
      let (evs, n) := records_events rest record_count total_records in
      (record_events record_count total_records i r ++ evs, n)
  end.

(** Lines 284-330. *)
Fixpoint buckets_events (items : buckets) (record_count total_records : Z)
  : list file_event * Z :=
  match items with
  | [] => ([], record_count)
  | (db_name, records) :: rest =>
      let (evs1, n1) := records_events (enumerate 1 records) record_count total_records in
      let (evs2, n2) := buckets_events rest n1 total_records in
      (map Written [[Rep "-" 60; NL];
                    [Lit "🗄️  Database: "; Lit db_name; NL];
                    [Lit "📈 Records found: "; Int (len records); NL];
                    [Rep "-" 40; NL]]
       ++ evs1 ++ [Written [NL]] ++ evs2,
       n2)
  end.

(** Lines 265-341: the body of the [with] block.  With a size of 0 it
    ends at the [return] of line 278. *)
Definition save_events (res : JsonDict) (search_term search_type : string)
  : list file_event :=
  let filename := output_filename isalnum search_term search_type in
  map Written (write_header res search_term search_type)
  ++ (if get_default (d_size res) 0 =? 0 then
        [Written [Lit "No results found across any sources."; NL];
         Printed (line [Lit "✅ Empty results saved to: "; Lit filename])]
      else
        let total_records := get_default (d_size res) 0 in
        let (evs, record_count) :=
          buckets_events (get_default (d_results res) []) 0 total_records in
        evs ++ map Written (write_summary res search_term search_type record_count)).

(** [save_results_to_file]: the console output, the text written to the
    file when it was opened, and the returned file name ([None] on
    failure).  An exception raised in the [with] block closes the file on
    the way out; when [close] raises, its exception is the one that reaches
    the [except] clauses. *)
Definition save_results_to_file_fs (res : JsonDict) (search_term search_type : string)
  : list text * option (list text) * option string :=
  let filename := output_filename isalnum search_term search_type in
  let preparing :=
    [line [Lit "💾 Preparing to save "; Int (get_default (d_size res) 0);
           Lit " records..."]] in
  match fs_open fs filename with
  | Some e => (preparing ++ save_failed res filename e, None, None)
  | None =>
      let '(console, file, raised) :=
        run_events (fs_write fs filename) 0
                   (save_events res search_term search_type) in
      let raised :=
        match fs_close fs filename with
        | Some e => Some e
        | None => raised
        end in
      match raised with
      | Some e => (preparing ++ console ++ save_failed res filename e, Some file, None)
      | None =>
          if get_default (d_size res) 0 =? 0 then
            (preparing ++ console, Some file, Some filename)
          else
            match fs_getsize fs filename with
            | Raise e =>
                (preparing ++ console ++ save_failed res filename e, Some file, None)
            | Ok file_size =>
                let record_count :=
                  snd (buckets_events (get_default (d_results res) []) 0
                                      (get_default (d_size res) 0)) in
                (preparing ++ console
                 ++ [line [Lit "✅ Results saved successfully!"];
                     line [Lit "   📁 File: "; Lit filename];
                     line [Lit "   📊 Records: "; IntComma record_count];
                     line ([Lit "   💾 Size: "] ++ size_str file_size)],
                 Some file,
                 Some filename)
            end
      end
  end.

End SaveOnFileSystem.

(** The whole report of [save_results_to_file]: what it writes when no
    write fails. *)
Definition file_report (lower : string -> string) (res : JsonDict)
    (search_term search_type : string) : list text :=
  write_header res search_term search_type
  ++ (if get_default (d_size res) 0 =? 0
      then [[Lit "No results found across any sources."; NL]]
      else
        let '(_, body, record_count) :=
          write_buckets lower (get_default (d_results res) []) 0
                        (get_default (d_size res) 0) in
        body ++ write_summary res search_term search_type record_count).

(** [a] is the beginning of [b]. *)
Definition begins {A : Type} (a b : list A) : Prop := exists rest, b = a ++ rest.

(** A file system on which no operation fails and every file holds 2048
    bytes; and one on which the write number 5 of every file fails for
    lack of space. *)
Definition reliable_fs : FileSystem :=
  mk_FileSystem (fun _ => None) (fun _ _ => None) (fun _ => None) (fun _ => Ok 2048).

Definition disk_full_at_5 : FileSystem :=
  mk_FileSystem (fun _ => None)
                (fun _ k => if (k =? 5)%nat
                            then Some (mk_exn OSError [Lit "No space left on device"])
                            else None)
                (fun _ => None) (fun _ => Ok 2048).

(** Results of 2200 records in two buckets, of 1500 and of 700. *)
Definition many_records : JsonDict :=
  mk_JsonDict (Some [("🔸xkeyscore➤db", repeat two_names_record 1500);
                     ("🔸snusbase➤dump", repeat sample_record 700)])
              (Some 2200) (Some 3) None None None.

(* ------------------------------------------------------------------ *)
(** ** main

    The menu loop reads its answers with [input].  What happens at the
    prompts is given as a list: a line is typed, the user interrupts the
    program (Ctrl-C, [input] raises [KeyboardInterrupt]), or [input] raises
    another exception; reading past the end of the list raises [EOFError].
    An interrupt is delivered while the program waits at a prompt.  The
    effects of a run are what it prints and the files it opens for writing,
    each with the text written to it. *)

Inductive user_input : Type :=
| Typed (s : string)            (* a line typed at the prompt *)
| Interrupt                     (* KeyboardInterrupt *)
| Fails (msg : string).         (* an Exception with str(e) = msg *)

(** What a run prints and the files it writes, each with its name. *)
Definition effects : Type := list text * list (string * list text).

Definition then_effects (a b : effects) : effects := (fst a ++ fst b, snd a ++ snd b).

(** [str(EOFError)] as [input] raises it. *)
Definition eof_message : string := "EOF when reading a line".

(** Lines 455-459. *)
Definition main_banner (api : KeyscoreAPI) : list text :=
  [line [Lit "🔐 KEYSCORE BREACH DATABASE SEARCH TOOL"];
   line [Lit "🎯 Specialized for Penetration Testing & Domain Intelligence"];
   line [Rep "=" 60];
   line [Lit "💡 Perfect for OSINT and reconnaissance!"];
   line [Lit "🌐 Searches across "; Int (len (all_sources api)); Lit " breach databases!"]].

(** Lines 462-472. *)
Definition main_menu : list text :=
  [line [NL; Rep "=" 60];
   line [Lit "🚀 MAIN MENU"];
   line [Rep "=" 60];
   line [Lit "1. 🎯 Comprehensive Domain Search"];
   line [Lit "2. 🔍 Quick Domain Lookup (ALL SOURCES)"];
   line [Lit "3. 📧 Email Search (ALL SOURCES)"];
   line [Lit "4. 👤 Username Search (ALL SOURCES)"];
   line [Lit "5. 🔎 Wildcard Search"];
   line [Lit "6. 📊 Count Check (Before Full Search)"];
   line [Lit "7. ℹ️  Show API Info"];
   line [Lit "8. 🚪 Exit"]].

(** Lines 477-479. *)
Definition main_choice_1 : list text :=
  [line [NL; Lit "🎯 Comprehensive Domain Search"];
   line [Lit "This option uses the original search configuration..."];
   line [Lit "Feature coming soon - use options 2-4 for multi-source searches!"]].

(** Lines 575-596. *)
Definition main_choice_7 (api : KeyscoreAPI) : list text :=
  [line [NL; Lit "📊 KEYSCORE API INFORMATION"];
   line [Rep "=" 50];
   line [Lit "💰 Credits:"];
   line [Lit "   • Each search = 1 credit per source"];
   line [Lit "   • Each count = 1 credit per source"];
   line [Lit "   • Multi-page: Credits = pages × sources"];
   line [NL; Lit "🗄️  Available Sources ("; Int (len (all_sources api)); Lit "):"]]
  ++ map (fun p : Z * string => line [Lit "   "; Int (fst p); Lit ". "; Lit (snd p)])
         (enumerate 1 (all_sources api))
  ++ [line [NL; Lit "🔍 Search Types:"];
      line [Lit "   • url: Domain/URL searches"];
      line [Lit "   • email: Email address searches"];
      line [Lit "   • username: Username searches"];
      line [Lit "   • password: Password searches"];
      line [Lit "   • phone: Phone number searches"];
      line [Lit "   • name: Full name searches"];
      line [NL; Lit "🚀 Multi-Source Features:"];
      line [Lit "   • Options 2-4 search ALL sources automatically"];
      line [Lit "   • Shows actual search terms (no more N/A)"];
      line [Lit "   • Source-prefixed database names for clarity"];
      line [Lit "   • Real-time progress indicators"];
      line [Lit "   • Auto-save option with custom filenames"]].

Section Main.

Variable requests_post : Request -> HttpOutcome.
Variable lower : string -> string.
Variable isalnum : string -> bool.
Variable fs : FileSystem.

(** [str.strip] *)
Variable strip : string -> string.

(** The outer [except Exception] clause, line 607, entered when [input]
    raises an exception with message [msg] outside the inner [try] blocks;
    [prompt] is what [input] printed before. *)
Definition main_failed (prompt : text) (msg : string) : effects :=
  ([prompt; line [Lit "❌ Unexpected error: "; Lit msg]], []).

(** The same when [input] finds no line to read. *)
Definition main_eof (prompt : text) : effects := main_failed prompt eof_message.

(** The [except KeyboardInterrupt] clause, lines 605-606. *)
Definition main_interrupted (prompt : text) : effects :=
  ([prompt; line [NL; NL; Lit "👋 Search interrupted by user. Goodbye!"]], []).

(** A call of [save_results_to_file], whose result [main] drops: what it
    prints and the file it opened. *)
Definition save_effects (results : JsonDict) (search_term search_type : string)
  : effects :=
  let '(console, file, _) :=
    save_results_to_file_fs lower isalnum fs results search_term search_type in
  (console,
   match file with
   | Some text_written => [(output_filename isalnum search_term search_type, text_written)]
   | None => []
   end).

(** Lines 487-495 (and 503-511, 519-527, 541-549): the results are printed
    and, when their size is positive, the user is asked whether to save
    them.  An exception of [input] at this question is caught by the
    [except Exception] of the inner [try]; an interrupt is not.  [loop] is
    the rest of the run. *)
Definition show_and_offer_save (results : JsonDict) (search_term search_type : string)
    (loop : list user_input -> effects) (inputs : list user_input) : effects :=
  let shown : effects := (print_results lower results, []) in
  if get_default (d_size results) 0 >? 0 then
    let asked := then_effects shown ([[NL; Lit "💾 Save results to file? (y/n): "]], []) in
    match inputs with
    | [] =>
        then_effects asked
          (then_effects ([line [Lit "❌ Error: "; Lit eof_message]], []) (loop inputs))
    | Fails msg :: rest =>
        then_effects asked
          (then_effects ([line [Lit "❌ Error: "; Lit msg]], []) (loop rest))
    | Interrupt :: _ =>
        then_effects shown (main_interrupted [NL; Lit "💾 Save results to file? (y/n): "])
    | Typed answer :: rest =>
        if (lower (strip answer) =? "y")%string then
          then_effects asked
            (then_effects (save_effects results search_term search_type) (loop rest))
        else then_effects asked (loop rest)
    end
  else then_effects shown (loop inputs).

(** Lines 482-495: choice 2. *)
Definition main_domain (api : KeyscoreAPI) (loop : list user_input -> effects)
    (inputs : list user_input) : effects :=
  match inputs with
  | [] => main_eof [NL; Lit "🔍 Enter domain for lookup: "]
  | Fails msg :: _ => main_failed [NL; Lit "🔍 Enter domain for lookup: "] msg
  | Interrupt :: _ => main_interrupted [NL; Lit "🔍 Enter domain for lookup: "]
  | Typed typed :: rest =>
      let domain := strip typed in
      if negb (domain =? "")%string then
        let '(results, console) := search_domain_all_sources requests_post api domain in
        then_effects ([[NL; Lit "🔍 Enter domain for lookup: "];
                       line [NL; Lit "🚀 Searching for domain: "; Lit domain]], [])
          (then_effects (console, [])
             (show_and_offer_save (as_dict results) domain "domain" loop rest))
      else then_effects ([[NL; Lit "🔍 Enter domain for lookup: "]], []) (loop rest)
  end.

(** Lines 498-511: choice 3. *)
Definition main_email (api : KeyscoreAPI) (loop : list user_input -> effects)
    (inputs : list user_input) : effects :=
  match inputs with
  | [] => main_eof [NL; Lit "📧 Enter email address to search: "]
  | Fails msg :: _ => main_failed [NL; Lit "📧 Enter email address to search: "] msg
  | Interrupt :: _ => main_interrupted [NL; Lit "📧 Enter email address to search: "]
  | Typed typed :: rest =>
      let email := strip typed in
      if negb (email =? "")%string then
        let '(results, console) := search_email_all_sources requests_post api email in
        then_effects ([[NL; Lit "📧 Enter email address to search: "];
                       line [NL; Lit "🚀 Searching for email: "; Lit email]], [])
          (then_effects (console, [])
             (show_and_offer_save (as_dict results) email "email" loop rest))
      else then_effects ([[NL; Lit "📧 Enter email address to search: "]], []) (loop rest)
  end.

(** Lines 514-527: choice 4. *)
Definition main_username (api : KeyscoreAPI) (loop : list user_input -> effects)
    (inputs : list user_input) : effects :=
  match inputs with
  | [] => main_eof [NL; Lit "👤 Enter username to search: "]
  | Fails msg :: _ => main_failed [NL; Lit "👤 Enter username to search: "] msg
  | Interrupt :: _ => main_interrupted [NL; Lit "👤 Enter username to search: "]
  | Typed typed :: rest =>
      let username := strip typed in
      if negb (username =? "")%string then
        let '(results, console) := search_username_all_sources requests_post api username in
        then_effects ([[NL; Lit "👤 Enter username to search: "];
                       line [NL; Lit "🚀 Searching for username: "; Lit username]], [])
          (then_effects (console, [])
             (show_and_offer_save (as_dict results) username "username" loop rest))
      else then_effects ([[NL; Lit "👤 Enter username to search: "]], []) (loop rest)
  end.

(** Lines 530-549: choice 5. *)
Definition main_wildcard (api : KeyscoreAPI) (loop : list user_input -> effects)
    (inputs : list user_input) : effects :=
  match inputs with
  | [] => main_eof [NL; Lit "🔎 Enter wildcard pattern (e.g., *.target.com): "]
  | Fails msg :: _ =>
      main_failed [NL; Lit "🔎 Enter wildcard pattern (e.g., *.target.com): "] msg
  | Interrupt :: _ =>
      main_interrupted [NL; Lit "🔎 Enter wildcard pattern (e.g., *.target.com): "]
  | Typed typed :: rest =>
      let pattern := strip typed in
      if negb (pattern =? "")%string then
        let asked_pattern : effects :=
          ([[NL; Lit "🔎 Enter wildcard pattern (e.g., *.target.com): "]], []) in
        match rest with
        | [] =>
            then_effects asked_pattern
              (main_eof [Lit "🗄️  Enter source (default: xkeyscore): "])
        | Fails msg :: _ =>
            then_effects asked_pattern
              (main_failed [Lit "🗄️  Enter source (default: xkeyscore): "] msg)
        | Interrupt :: _ =>
            then_effects asked_pattern
              (main_interrupted [Lit "🗄️  Enter source (default: xkeyscore): "])
        | Typed typed_source :: rest' =>
            let source :=
              if (strip typed_source =? "")%string then "xkeyscore"
              else strip typed_source in
            let asked : effects :=
              ([[NL; Lit "🔎 Enter wildcard pattern (e.g., *.target.com): "];
                [Lit "🗄️  Enter source (default: xkeyscore): "];
                line [NL; Lit "🚀 Wildcard search: "; Lit pattern]], []) in
            match search requests_post api [pattern] ["url"] source
                         true false "OR" None None 1 None 10000 with
            | Ok results =>
                then_effects asked
                  (show_and_offer_save results pattern "wildcard" loop rest')
            | Raise e =>
                then_effects asked
                  (then_effects ([line ([Lit "❌ Error: "] ++ exn_msg e)], [])
                                (loop rest'))
            end
        end
      else
        then_effects ([[NL; Lit "🔎 Enter wildcard pattern (e.g., *.target.com): "]], [])
                     (loop rest)
  end.

(** Line 563: [type_map] *)
Definition type_map : dict (list string) :=
  [("1", ["url"]); ("2", ["email"]); ("3", ["username"])].

(** Lines 552-572: choice 6.  [type_map[type_choice][0]] is the first
    element of a list that is never empty. *)
Definition main_count (api : KeyscoreAPI) (loop : list user_input -> effects)
    (inputs : list user_input) : effects :=
  let heading : list text := [line [NL; Lit "📊 COUNT CHECK"]; line [Rep "=" 30]] in
  match inputs with
  | [] => then_effects (heading, []) (main_eof [Lit "🔍 Enter search term: "])
  | Fails msg :: _ =>
      then_effects (heading, []) (main_failed [Lit "🔍 Enter search term: "] msg)
  | Interrupt :: _ =>
      then_effects (heading, []) (main_interrupted [Lit "🔍 Enter search term: "])
  | Typed typed :: rest =>
      let search_term := strip typed in
      let asked : list text := heading ++ [[Lit "🔍 Enter search term: "]] in
      if negb (search_term =? "")%string then
        let types_menu : list text :=
          [line [NL; Lit "📋 Search type:"];
           line [Lit "1. Domain/URL"];
           line [Lit "2. Email"];
           line [Lit "3. Username"]] in
        match rest with
        | [] =>
            then_effects (asked ++ types_menu, []) (main_eof [Lit "Select type (1-3): "])
        | Fails msg :: _ =>
            then_effects (asked ++ types_menu, [])
                         (main_failed [Lit "Select type (1-3): "] msg)
        | Interrupt :: _ =>
            then_effects (asked ++ types_menu, [])
                         (main_interrupted [Lit "Select type (1-3): "])
        | Typed typed_choice :: rest' =>
            let type_choice := strip typed_choice in
            let asked : list text := asked ++ types_menu ++ [[Lit "Select type (1-3): "]] in
            match dict_get type_choice type_map with
            | Some types =>
                let '(count_result, console) :=
                  count_all_sources requests_post api [search_term] types in
                then_effects
                  (asked ++ console
                   ++ print_count_results count_result [search_term] (hd "" types), [])
                  (loop rest')
            | None =>
                then_effects (asked ++ [line [Lit "❌ Invalid choice"]], []) (loop rest')
            end
        end
      else then_effects (asked, []) (loop rest)
  end.

(** The [while True] loop, lines 461-603, with the ways it ends: choice 8,
    an interrupt, and an exception of [input] outside the inner [try]
    blocks. *)
Fixpoint main_loop (api : KeyscoreAPI) (inputs : list user_input) : effects :=
  match inputs with
  | [] => then_effects (main_menu, []) (main_eof [NL; Lit "👉 Enter your choice (1-8): "])
  | Fails msg :: _ =>
      then_effects (main_menu, [])
                   (main_failed [NL; Lit "👉 Enter your choice (1-8): "] msg)
  | Interrupt :: _ =>
      then_effects (main_menu, [])
                   (main_interrupted [NL; Lit "👉 Enter your choice (1-8): "])
  | Typed typed :: rest =>
      let choice := strip typed in
      then_effects (main_menu ++ [[NL; Lit "👉 Enter your choice (1-8): "]], [])
        (if (choice =? "1")%string then
           then_effects (main_choice_1, []) (main_loop api rest)
         else if (choice =? "2")%string then main_domain api (main_loop api) rest
         else if (choice =? "3")%string then main_email api (main_loop api) rest
         else if (choice =? "4")%string then main_username api (main_loop api) rest
         else if (choice =? "5")%string then main_wildcard api (main_loop api) rest
         else if (choice =? "6")%string then main_count api (main_loop api) rest
         else if (choice =? "7")%string then
           then_effects (main_choice_7 api, []) (main_loop api rest)
         else if (choice =? "8")%string then
           ([line [NL; Lit "👋 Happy hunting! Stay safe and legal! 🔒"]], [])
         else
           then_effects ([line [Lit "❌ Invalid choice. Please try again."]], [])
                        (main_loop api rest))
  end.

(** [main] *)
Definition main (inputs : list user_input) : effects :=
  let api := KeyscoreAPI_init "place-your-api-key" in
  then_effects (main_banner api, []) (main_loop api inputs).

End Main.

(** *** Vocabulary for runs of [main] *)

(** An answer that makes [main] save: line 491, [save_choice == 'y']. *)
Definition says_yes (lower strip : string -> string) (answer : user_input) : bool :=
  match answer with
  | Typed s => (lower (strip s) =? "y")%string
  | _ => false
  end.

(** A line typed that is choice 8 when it is read at the menu. *)
Definition types_8 (strip : string -> string) (answer : user_input) : bool :=
  match answer with
  | Typed s => (strip s =? "8")%string
  | _ => false
  end.

Definition is_typed (answer : user_input) : bool :=
  match answer with
  | Typed _ => true
  | _ => false
  end.

Definition is_interrupt (answer : user_input) : bool :=
  match answer with
  | Interrupt => true
  | _ => false
  end.

(** The lines a run of [main] can end with. *)
Definition goodbye_line : text :=
  line [NL; Lit "👋 Happy hunting! Stay safe and legal! 🔒"].

Definition interrupted_line : text :=
  line [NL; NL; Lit "👋 Search interrupted by user. Goodbye!"].

Definition unexpected_line (msg : string) : text :=
  line [Lit "❌ Unexpected error: "; Lit msg].

Definition eof_line : text := unexpected_line eof_message.

(** A file a run may leave: it could be opened, it is named after a term
    and one of the four search types, and what was written to it is the
    beginning of the report of results of positive size. *)
Definition written_on_request (lower : string -> string) (isalnum : string -> bool)
    (fs : FileSystem) (f : string * list text) : Prop :=
  exists (search_term search_type : string) (results : JsonDict),
    In search_type ["domain"; "email"; "username"; "wildcard"]
    /\ get_default (d_size results) 0 > 0
    /\ fst f = output_filename isalnum search_term search_type
    /\ fs_open fs (fst f) = None
    /\ begins (snd f) (file_report lower results search_term search_type).

(* ================================================================== *)
(** * Properties *)

(* ------------------------------------------------------------------ *)
(** ** Status codes (§6) *)

Ltac case_status :=
  repeat match goal with
         | |- context [Z.eqb ?a ?b] => destruct (Z.eqb_spec a b); subst; try lia
         end.

Lemma search_outcome_ok_iff (o : HttpOutcome) (j : JsonDict) :
  search_outcome o = Ok j <-> o = Response 200 j.
Proof.
  split.
  - destruct o as [code body|code msg|msg]; cbn; [| |discriminate].
    + case_status; intros H; inversion H; reflexivity.
    + case_status; discriminate.
  - intros ->. reflexivity.
Qed.

Lemma count_outcome_ok_iff (o : HttpOutcome) (j : JsonDict) :
  count_outcome o = Ok j <-> o = Response 200 j.
Proof.
  split.
  - destruct o as [code body|code msg|msg]; cbn; [| |discriminate].
    + case_status; intros H; inversion H; reflexivity.
    + case_status; discriminate.
  - intros ->. reflexivity.
Qed.

Lemma search_outcome_transport (msg : string) :
  exists e, search_outcome (RequestException msg) = Raise e
            /\ error_kind e = Some Transport.
Proof. eexists. split; reflexivity. Qed.

Lemma count_outcome_transport (msg : string) :
  exists e, count_outcome (RequestException msg) = Raise e
            /\ error_kind e = Some Transport.
Proof. eexists. split; reflexivity. Qed.

(** C5 (amended).  [search] returns exactly when the status is 200 and the
    body is JSON, and then returns the decoded body.  On a response whose
    body decodes it otherwise raises the exception of the mapped kind
    (400 BadRequest, 401 Unauthorized, 402 PaymentRequired, 403 Forbidden,
    500 ServerError, any other code Unexpected(code)); on a response whose
    body is not JSON it raises the transport error at status 200, where
    [response.json()] is called, and the mapped kind at every other status.
    [count] returns under the same condition, maps 400, 401 and 402 in the
    same way, and raises Unexpected(code) for every other status, 403 and
    500 included; at status 200 with a body that is not JSON it raises the
    transport error. *)
Theorem status_code_mapping (code : Z) (body : JsonDict) (msg : string) :
  match search_outcome (Response code body) with
  | Ok j => code = 200 /\ j = body
  | Raise e =>
      code <> 200 /\ exn_type e = Exception
      /\ error_kind e = Some (status_error_kind code)
  end
  /\ match count_outcome (Response code body) with
     | Ok j => code = 200 /\ j = body
     | Raise e =>
         code <> 200 /\ exn_type e = Exception
         /\ error_kind e = Some (count_status_error_kind code)
     end
  /\ match search_outcome (ResponseNotJson code msg) with
     | Ok _ => False
     | Raise e =>
         exn_type e = Exception
         /\ error_kind e
            = Some (if code =? 200 then Transport else status_error_kind code)
     end
  /\ match count_outcome (ResponseNotJson code msg) with
     | Ok _ => False
     | Raise e =>
         exn_type e = Exception
         /\ error_kind e
            = Some (if code =? 200 then Transport else count_status_error_kind code)
     end
  /\ (forall (o : HttpOutcome) (j : JsonDict),
         (search_outcome o = Ok j <-> o = Response 200 j)
         /\ (count_outcome o = Ok j <-> o = Response 200 j)).
Proof.
  split; [|split; [|split; [|split]]].
  - unfold search_outcome, status_error_kind.
    case_status; cbn; repeat split; auto; lia.
  - unfold count_outcome, count_status_error_kind.
    case_status; cbn; repeat split; auto; lia.
  - unfold search_outcome, status_error_kind.
    destruct (Z.eqb_spec code 200); [cbn; split; reflexivity|].
    case_status; cbn; repeat split; auto; lia.
  - unfold count_outcome, count_status_error_kind.
    destruct (Z.eqb_spec code 200); [cbn; split; reflexivity|].
    case_status; cbn; repeat split; auto; lia.
  - intros o j. split; [apply search_outcome_ok_iff | apply count_outcome_ok_iff].
Qed.

(** At status 200 a body that is not JSON makes both calls raise: the
    status alone does not decide whether they return. *)
Lemma status_200_not_json_raises (msg : string) :
  search_outcome (ResponseNotJson 200 msg)
  = Raise (mk_exn Exception [Lit "Request failed: "; Lit msg])
  /\ count_outcome (ResponseNotJson 200 msg)
     = Raise (mk_exn Exception [Lit "Count request failed: "; Lit msg]).
Proof. split; reflexivity. Qed.

(** C5, as stated, fails for [count]: on status 403 it does not raise the
    kind the shared mapping gives (Forbidden) but Unexpected(403). *)
Lemma count_403_is_unexpected :
  ~ (exists e, count_outcome (Response 403 empty_dict) = Raise e
               /\ error_kind e = Some (status_error_kind 403)).
Proof.
  intros [e [H K]]. cbv in H. inversion H; subst e. cbv in K. discriminate K.
Qed.

Lemma count_500_is_unexpected :
  exists e, count_outcome (Response 500 empty_dict) = Raise e
            /\ error_kind e = Some (Unexpected 500)
            /\ status_error_kind 500 = ServerError.
Proof. eexists. repeat split. Qed.

(* ------------------------------------------------------------------ *)
(** ** Credit estimate (§4.3) *)

Lemma pages_needed_off_multiples (count : Z) :
  10000 < count -> count mod 10000 <> 0 -> pages_needed count = credit_estimate count.
Proof.
  intros Hgt Hmod. unfold pages_needed, credit_estimate, ceil_div.
  destruct (Z.leb_spec count 10000); [lia|].
  pose proof (Z.div_mod count 10000 ltac:(lia)) as E.
  pose proof (Z.mod_pos_bound count 10000 ltac:(lia)) as B.
  set (q := count / 10000) in *. set (m := count mod 10000) in *.
  replace (count + 10000 - 1) with ((q + 1) * 10000 + (m - 1)) by lia.
  rewrite Z.div_add_l by lia. rewrite Z.div_small by lia. lia.
Qed.

Lemma pages_needed_on_multiples (k : Z) :
  1 < k -> pages_needed (k * 10000) = credit_estimate (k * 10000) + 1.
Proof.
  intros Hk. unfold pages_needed, credit_estimate, ceil_div.
  destruct (Z.leb_spec (k * 10000) 10000); [lia|].
  rewrite Z.div_mul by lia.
  replace (k * 10000 + 10000 - 1) with (9999 + k * 10000) by lia.
  rewrite Z.div_add by lia. rewrite Z.div_small by lia. lia.
Qed.

Lemma credits_25000 :
  pages_needed 25000 = 3 /\ credit_estimate 25000 = 3.
Proof. split; reflexivity. Qed.

Lemma no_credit_line_for_zero (search_terms : list string) (search_type : string) :
  filter is_credit_line
         (print_count_results (mk_JsonDict None None None (Some 0) None None)
                              search_terms search_type) = []
  /\ filter is_credit_line
            (print_count_results (mk_JsonDict None None (Some 0) None (Some []) (Some 0))
                                 search_terms search_type) = [].
Proof. split; reflexivity. Qed.

Lemma single_credit_up_to_10000 (count : Z) :
  0 < count <= 10000 ->
  print_credits count =
    [line [Lit "💰 Estimated credits for full search:"];
     line [Lit "   - Single page: 1 credit (up to 10,000 records)"]]
  /\ credit_estimate count = 1.
Proof.
  intros H. unfold print_credits, credit_estimate.
  destruct (Z.gtb_spec count 10000); [lia|].
  destruct (Z.leb_spec count 10000); [|lia].
  split; reflexivity.
Qed.

(** C4, at the input where the code departs from it.  For 20000 records,
    which fill exactly two pages of 10000, the program prints an estimate
    of 3 credits (3 pages), in the single-source branch and in the
    multi-source branch alike, while [ceil(20000 / 10000)] is 2. *)
Theorem credits_20000_printed_as_3 :
  credit_estimate 20000 = 2
  /\ pages_needed 20000 = 3
  /\ In (line [Lit "   - All data: ~"; Int 3; Lit " credits ("; Int 3; Lit " pages)"])
        (print_count_results (mk_JsonDict None None None (Some 20000) None None)
                             ["example.org"] "url")
  /\ In (line [Lit "   - All data: ~"; Int 3; Lit " credits ("; Int 3; Lit " pages)"])
        (print_count_results
           (mk_JsonDict None None (Some 0) None (Some [("xkeyscore", 20000)]) (Some 20000))
           ["example.org"] "url").
Proof.
  split; [reflexivity|]. split; [reflexivity|].
  split; cbv; tauto.
Qed.

(* ------------------------------------------------------------------ *)
(** ** Lists and dictionaries *)

Lemma enumerate_app {A : Type} (l1 l2 : list A) (start : Z) :
  enumerate start (l1 ++ l2) = enumerate start l1 ++ enumerate (start + len l1) l2.
Proof.
  revert start. induction l1 as [|x l1 IH]; intros start.
  - cbn. rewrite Z.add_0_r. reflexivity.
  - cbn [app enumerate]. rewrite IH.
    replace (start + 1 + len l1) with (start + len (x :: l1))
      by (unfold len; cbn [length]; lia).
    reflexivity.
Qed.

Lemma sum_app (l1 l2 : list Z) : sum (l1 ++ l2) = sum l1 + sum l2.
Proof.
  unfold sum. induction l1 as [|x l1 IH]; cbn; [reflexivity|]. rewrite IH. lia.
Qed.

Lemma dict_set_fresh {V : Type} (k : string) (v : V) (d : dict V) :
  ~ In k (dict_keys d) -> dict_set k v d = d ++ [(k, v)].
Proof.
  induction d as [|[k' v'] d IH]; cbn; intros H; [reflexivity|].
  destruct (String.eqb_spec k k') as [->|Hne]; [tauto|].
  rewrite IH by tauto. reflexivity.
Qed.

Lemma dict_get_set_same {V : Type} (k : string) (v : V) (d : dict V) :
  dict_get k (dict_set k v d) = Some v.
Proof.
  induction d as [|[k' v'] d IH]; cbn.
  - rewrite String.eqb_refl. reflexivity.
  - destruct (String.eqb_spec k k') as [->|Hne]; cbn.
    + rewrite String.eqb_refl. reflexivity.
    + destruct (String.eqb_spec k k'); [contradiction|]. exact IH.
Qed.

Lemma dict_get_set_other {V : Type} (k k' : string) (v : V) (d : dict V) :
  k' <> k -> dict_get k' (dict_set k v d) = dict_get k' d.
Proof.
  intros Hne. induction d as [|[k0 v0] d IH]; cbn.
  - destruct (String.eqb_spec k' k); [contradiction|reflexivity].
  - destruct (String.eqb_spec k k0) as [->|Hk]; cbn.
    + destruct (String.eqb_spec k' k0); [contradiction|reflexivity].
    + destruct (String.eqb_spec k' k0); [reflexivity|exact IH].
Qed.

Lemma In_dict_set {V : Type} (k k' : string) (v v' : V) (d : dict V) :
  In (k', v') (dict_set k v d) -> (k' = k /\ v' = v) \/ In (k', v') d.
Proof.
  induction d as [|[k0 v0] d IH]; cbn.
  - intros [H|[]]. inversion H. auto.
  - destruct (String.eqb_spec k k0) as [->|Hk]; cbn.
    + intros [H|H]; [inversion H; auto|auto].
    + intros [H|H]; [auto|]. destruct (IH H); auto.
Qed.

(* ------------------------------------------------------------------ *)
(** ** One iteration of the fan-out loop *)

Section FanOut.

Variable requests_post : Request -> HttpOutcome.

Lemma search_ignores_catalog (self self' : KeyscoreAPI) (terms types : list string)
    (source : string) :
  base_url self = base_url self' ->
  api_headers self = api_headers self' ->
  search requests_post self terms types source false false "OR" None None 1 None 10000
  = search requests_post self' terms types source false false "OR" None None 1 None 10000.
Proof. intros Hu Hh. unfold search. rewrite Hu, Hh. reflexivity. Qed.

Lemma query_source_raise (self : KeyscoreAPI) (terms types : list string)
    (search_term : string) (st : SearchState) (i : Z) (source : string) (e : exn) :
  search requests_post self terms types source false false "OR" None None 1 None 10000
  = Raise e ->
  query_source requests_post self terms types search_term st i source
  = say ([Lit "⚠️ Error: "] ++ exn_msg e)
        (say_end_space [Lit "   ["; Int i; Lit "/"; Int (len (all_sources self));
                        Lit "] Querying "; Lit source; Lit "..."] st).
Proof. intros H. unfold query_source, try_source. rewrite H. reflexivity. Qed.

(** What an iteration leaves in the accumulator and in the counter depends
    neither on the position of the source in the catalog, nor on the length
    of the catalog, nor on what was printed before. *)
Lemma query_source_core (self self' : KeyscoreAPI) (terms types : list string)
    (search_term : string) (st st' : SearchState) (i i' : Z) (source : string) :
  base_url self = base_url self' ->
  api_headers self = api_headers self' ->
  all_results st = all_results st' ->
  successful_sources st = successful_sources st' ->
  all_results (query_source requests_post self terms types search_term st i source)
  = all_results (query_source requests_post self' terms types search_term st' i' source)
  /\ successful_sources (query_source requests_post self terms types search_term st i source)
     = successful_sources (query_source requests_post self' terms types search_term st' i' source).
Proof.
  intros Hu Hh Ha Hs. destruct st as [a s o], st' as [a' s' o'].
  cbn in Ha, Hs. subst a' s'.
  unfold query_source, try_source.
  rewrite (search_ignores_catalog self self' terms types source Hu Hh).
  destruct (search requests_post self' _ _ _ _ _ _ _ _ _ _ _) as [result|e]; cbn; [|auto].
  destruct (truthy_results (d_results result)); cbn; [|auto].
  destruct (get_default (d_size result) 0 >? 0); cbn; [|auto].
  destruct (merge_buckets _ _ _ _ _) as [b [e|]]; cbn; auto.
Qed.

Lemma search_loop_core (self self' : KeyscoreAPI) (terms types : list string)
    (search_term : string) (l : list string) :
  base_url self = base_url self' ->
  api_headers self = api_headers self' ->
  forall (start start' : Z) (st st' : SearchState),
    all_results st = all_results st' ->
    successful_sources st = successful_sources st' ->
    all_results (search_loop requests_post self terms types search_term
                             (enumerate start l) st)
    = all_results (search_loop requests_post self' terms types search_term
                               (enumerate start' l) st')
    /\ successful_sources (search_loop requests_post self terms types search_term
                                       (enumerate start l) st)
       = successful_sources (search_loop requests_post self' terms types search_term
                                         (enumerate start' l) st').
Proof.
  intros Hu Hh. induction l as [|x l IH]; intros start start' st st' Ha Hs.
  - cbn. auto.
  - cbn [enumerate]. unfold search_loop in *. cbn [fold_left fst snd].
    destruct (query_source_core self self' terms types search_term st st'
                                start start' x Hu Hh Ha Hs) as [Ha' Hs'].
    apply IH; assumption.
Qed.

Lemma query_source_stdout (self : KeyscoreAPI) (terms types : list string)
    (search_term : string) (st : SearchState) (i : Z) (source : string) :
  exists out,
    stdout (query_source requests_post self terms types search_term st i source)
    = stdout st ++ out.
Proof.
  unfold query_source, try_source.
  destruct (search requests_post self _ _ _ _ _ _ _ _ _ _ _) as [result|e];
    [|cbn; unfold print, print_end_space; rewrite <- app_assoc; eexists; reflexivity].
  destruct (truthy_results (d_results result));
    [|cbn; unfold print, print_end_space; rewrite <- app_assoc; eexists; reflexivity].
  destruct (get_default (d_size result) 0 >? 0);
    [|cbn; unfold print, print_end_space; rewrite <- app_assoc; eexists; reflexivity].
  destruct (merge_buckets _ _ _ _ _) as [b [e|]]; cbn;
    unfold print, print_end_space; rewrite <- ?app_assoc; eexists; reflexivity.
Qed.

Lemma search_loop_stdout (self : KeyscoreAPI) (terms types : list string)
    (search_term : string) (l : list (Z * string)) (st : SearchState) :
  exists out,
    stdout (search_loop requests_post self terms types search_term l st)
    = stdout st ++ out.
Proof.
  revert st. induction l as [|[i x] l IH]; intros st.
  - exists []. cbn. now rewrite app_nil_r.
  - unfold search_loop in *. cbn [fold_left fst snd].
    destruct (IH (query_source requests_post self terms types search_term st i x))
      as [out2 H2].
    destruct (query_source_stdout self terms types search_term st i x) as [out1 H1].
    exists (out1 ++ out2). rewrite H2, H1. now rewrite app_assoc.
Qed.

End FanOut.

(* ------------------------------------------------------------------ *)
(** ** Failure isolation (§4.1, §7) *)

(** C2.  Whatever the catalog and the answers of the service, when the call
    for a source [X] raises, the loop prints the error after the
    [Querying X...] progress line and goes on; the accumulator it ends with,
    and the count of successful sources, are those of the same run over the
    catalog without [X]; and [search_all_sources] returns that accumulator. *)
Theorem failure_isolation (requests_post : Request -> HttpOutcome) (self : KeyscoreAPI)
    (terms types : list string) (search_term : string)
    (pre suf : list string) (X : string) (e : exn) :
  all_sources self = pre ++ X :: suf ->
  search requests_post self terms types X false false "OR" None None 1 None 10000
  = Raise e ->
  let self' := mk_KeyscoreAPI (api_key self) (base_url self) (api_headers self)
                              (pre ++ suf) in
  let st := search_all_sources_state requests_post self terms types search_term in
  let st' := search_all_sources_state requests_post self' terms types search_term in
  all_results st = all_results st'
  /\ successful_sources st = successful_sources st'
  /\ (exists out1 out2,
        stdout st
        = out1
          ++ [[Lit "   ["; Int (1 + len pre); Lit "/"; Int (len (all_sources self));
               Lit "] Querying "; Lit X; Lit "..."; Lit " "];
              [Lit "⚠️ Error: "] ++ exn_msg e ++ [NL]]
          ++ out2)
  /\ fst (search_all_sources requests_post self terms types search_term)
     = all_results st'.
Proof.
  intros Hcat Hfail self' st st'.
  assert (Hcore : all_results st = all_results st'
                  /\ successful_sources st = successful_sources st').
  { subst st st'. unfold search_all_sources_state.
    rewrite Hcat. cbn [all_sources self'].
    rewrite !enumerate_app. cbn [enumerate].
    unfold search_loop. rewrite !fold_left_app. cbn [fold_left fst snd].
    fold (search_loop requests_post self terms types search_term (enumerate 1 pre)
                      (search_start self)).
    fold (search_loop requests_post self' terms types search_term (enumerate 1 pre)
                      (search_start self')).
    set (mid := search_loop requests_post self terms types search_term (enumerate 1 pre)
                            (search_start self)).
    set (mid' := search_loop requests_post self' terms types search_term (enumerate 1 pre)
                             (search_start self')).
    assert (Hmid : all_results mid = all_results mid'
                   /\ successful_sources mid = successful_sources mid').
    { apply search_loop_core; reflexivity. }
    rewrite (query_source_raise requests_post self terms types search_term mid
                                (1 + len pre) X e Hfail).
    apply (search_loop_core requests_post self self' terms types search_term suf
                            eq_refl eq_refl); cbn; tauto. }
  split; [tauto|]. split; [tauto|]. split.
  - subst st. unfold search_all_sources_state.
    replace (enumerate 1 (all_sources self)) with (enumerate 1 (pre ++ X :: suf))
      by (now rewrite Hcat).
    rewrite enumerate_app. cbn [enumerate].
    unfold search_loop. rewrite fold_left_app. cbn [fold_left fst snd].
    fold (search_loop requests_post self terms types search_term (enumerate 1 pre)
                      (search_start self)).
    set (mid := search_loop requests_post self terms types search_term (enumerate 1 pre)
                            (search_start self)).
    rewrite (query_source_raise requests_post self terms types search_term mid
                                (1 + len pre) X e Hfail).
    match goal with
    | |- context [fold_left ?f ?l ?s] =>
        destruct (search_loop_stdout requests_post self terms types search_term l s)
          as [out2 H2]
    end.
    unfold search_loop in H2. exists (stdout mid), out2.
    rewrite H2. cbn. unfold print, print_end_space.
    rewrite <- !app_assoc. reflexivity.
  - unfold search_all_sources. cbn. fold st. tauto.
Qed.

(** C2 at a run: the first source is unauthorized, the ten others answer. *)
Lemma failure_isolation_witness :
  let self := sample_api in
  let self' := mk_KeyscoreAPI (api_key self) (base_url self) (api_headers self)
                              ([] ++ tl (all_sources self)) in
  let st := search_all_sources_state first_source_fails self ["a@b.com"] ["email"]
                                     "a@b.com" in
  let st' := search_all_sources_state first_source_fails self' ["a@b.com"] ["email"]
                                      "a@b.com" in
  all_results st = all_results st'
  /\ successful_sources st = successful_sources st'
  /\ (exists out1 out2,
        stdout st
        = out1
          ++ [[Lit "   ["; Int (1 + len (@nil string)); Lit "/";
               Int (len (all_sources self));
               Lit "] Querying "; Lit "xkeyscore"; Lit "..."; Lit " "];
              [Lit "⚠️ Error: "]
              ++ exn_msg (mk_exn Exception [Lit "Unauthorized: Missing or invalid API key"])
              ++ [NL]]
          ++ out2)
  /\ fst (search_all_sources first_source_fails self ["a@b.com"] ["email"] "a@b.com")
     = all_results st'.
Proof.
  apply (failure_isolation first_source_fails sample_api ["a@b.com"] ["email"] "a@b.com"
                           [] (tl (all_sources sample_api)) "xkeyscore"
                           (mk_exn Exception
                                   [Lit "Unauthorized: Missing or invalid API key"])).
  - reflexivity.
  - reflexivity.
Defined.

Lemma failure_isolation_run :
  successful_sources
    (search_all_sources_state first_source_fails sample_api ["a@b.com"] ["email"] "a@b.com")
  = 10
  /\ size (fst (search_all_sources first_source_fails sample_api ["a@b.com"] ["email"]
                                   "a@b.com")) = 20
  /\ dict_get "🔸xkeyscore➤db"
       (results (fst (search_all_sources first_source_fails sample_api ["a@b.com"]
                                         ["email"] "a@b.com"))) = None
  /\ dict_get "🔸snusbase➤db"
       (results (fst (search_all_sources first_source_fails sample_api ["a@b.com"]
                                         ["email"] "a@b.com")))
     = Some [[("email", JStr "a@b.com"); ("password", JStr "x")];
             [("password", JStr "y"); ("email", JStr "a@b.com")]].
Proof. vm_compute. repeat split. Qed.

(* ------------------------------------------------------------------ *)
(** ** A successful call without results (§4.1) *)

(** C6 (amended).  When the call for a source succeeds and reports size 0
    (or no size), the iteration adds no bucket, leaves [size] and the count
    of successful sources as they were, and still adds the response's
    [took] to the cumulative [took]. *)
Theorem empty_success_adds_only_took (requests_post : Request -> HttpOutcome)
    (self : KeyscoreAPI) (terms types : list string) (search_term : string)
    (st : SearchState) (i : Z) (source : string) (result : JsonDict) :
  search requests_post self terms types source false false "OR" None None 1 None 10000
  = Ok result ->
  get_default (d_size result) 0 = 0 ->
  let st' := query_source requests_post self terms types search_term st i source in
  results (all_results st') = results (all_results st)
  /\ size (all_results st') = size (all_results st)
  /\ successful_sources st' = successful_sources st
  /\ took (all_results st') = took (all_results st) + get_default (d_took result) 0.
Proof.
  intros Hok Hsize st'. subst st'. unfold query_source, try_source.
  rewrite Hok, Hsize.
  destruct (truthy_results (d_results result)); cbn; repeat split.
Qed.

Lemma empty_success_adds_only_took_witness :
  let st := search_start sample_api in
  let st' := query_source nothing_in_7ms sample_api ["a@b.com"] ["email"] "a@b.com"
                          st 1 "xkeyscore" in
  results (all_results st') = results (all_results st)
  /\ size (all_results st') = size (all_results st)
  /\ successful_sources st' = successful_sources st
  /\ took (all_results st')
     = took (all_results st)
       + get_default (d_took (mk_JsonDict (Some []) (Some 0) (Some 7) None None None)) 0.
Proof.
  apply (empty_success_adds_only_took nothing_in_7ms sample_api ["a@b.com"] ["email"]
           "a@b.com" (search_start sample_api) 1 "xkeyscore"
           (mk_JsonDict (Some []) (Some 0) (Some 7) None None None)).
  - reflexivity.
  - reflexivity.
Defined.

(** C6, as stated, fails: a successful call of size 0 that took 7 ms changes
    the accumulator, whose [took] goes from 0 to 7. *)
Lemma empty_success_changes_took :
  all_results (query_source nothing_in_7ms sample_api ["a@b.com"] ["email"] "a@b.com"
                            (search_start sample_api) 1 "xkeyscore")
  <> all_results (search_start sample_api).
Proof. vm_compute. discriminate. Qed.

Lemma empty_success_changes_took_run :
  fst (search_all_sources nothing_in_7ms sample_api ["a@b.com"] ["email"] "a@b.com")
  = mk_AllResults [] 0 77.
Proof. vm_compute. reflexivity. Qed.

(* ------------------------------------------------------------------ *)
(** ** The source catalog *)

Lemma prefix_refl (s : string) : prefix s s = true.
Proof.
  induction s as [|a s IH]; cbn; [reflexivity|].
  destruct (ascii_dec a a); [exact IH|contradiction].
Qed.

Lemma prefix_free_head (s : string) (l : list string) :
  prefix_free (s :: l) = true ->
  prefix_free l = true
  /\ forall s', In s' l -> prefix s s' = false /\ prefix s' s = false.
Proof.
  cbn. intros H. apply andb_true_iff in H. destruct H as [Hall Hl].
  split; [exact Hl|]. intros s' Hin.
  rewrite forallb_forall in Hall. specialize (Hall s' Hin).
  apply andb_true_iff in Hall. destruct Hall as [H1 H2].
  apply negb_true_iff in H1. apply negb_true_iff in H2. auto.
Qed.

Lemma prefix_free_NoDup (l : list string) : prefix_free l = true -> NoDup l.
Proof.
  induction l as [|s l IH]; intros H; [constructor|].
  destruct (prefix_free_head s l H) as [Hl Hs].
  constructor; [|auto].
  intros Hin. destruct (Hs s Hin) as [Hp _]. rewrite prefix_refl in Hp. discriminate.
Qed.

Lemma prefix_free_app_cons (S : list string) (x : string) (l : list string) :
  prefix_free (S ++ x :: l) = true ->
  forall s, In s S -> prefix s x = false /\ prefix x s = false.
Proof.
  induction S as [|s0 S IH]; intros H s Hin; [contradiction|].
  cbn [app] in H. destruct (prefix_free_head _ _ H) as [Hrest Hs0].
  destruct Hin as [->|Hin].
  - apply Hs0. apply in_or_app. right. left. reflexivity.
  - apply IH; assumption.
Qed.

Lemma catalog_prefix_free (key : string) :
  prefix_free (all_sources (KeyscoreAPI_init key)) = true.
Proof. reflexivity. Qed.

(* ------------------------------------------------------------------ *)
(** ** count_all_sources (§4.3) *)

Section CountLoop.

Variable requests_post : Request -> HttpOutcome.
Variable api : KeyscoreAPI.
Variables terms types : list string.

Local Abbreviation count_of := (recorded_count requests_post api terms types).

Lemma count_source_spec (st : CountState) (source : string) :
  total_count (count_source requests_post api terms types st source)
  = total_count st + count_of source
  /\ source_counts (count_source requests_post api terms types st source)
     = dict_set source (count_of source) (source_counts st).
Proof.
  unfold count_source, recorded_count.
  destruct (count requests_post api terms types source false false "OR" None None);
    cbn; split; auto; lia.
Qed.

Lemma count_loop_spec (l : list string) :
  NoDup l ->
  forall st : CountState,
    (forall s, In s l -> ~ In s (dict_keys (source_counts st))) ->
    source_counts (count_loop requests_post api terms types l st)
    = source_counts st ++ map (fun s => (s, count_of s)) l
    /\ total_count (count_loop requests_post api terms types l st)
       = total_count st + sum (map count_of l).
Proof.
  induction 1 as [|x l Hx Hl IH]; intros st Hfresh.
  - unfold sum. cbn. rewrite app_nil_r. split; [reflexivity|lia].
  - unfold count_loop in *. cbn [fold_left].
    destruct (count_source_spec st x) as [Ht Hc].
    destruct (IH (count_source requests_post api terms types st x)) as [Hc' Ht'].
    { intros s Hs. rewrite Hc.
      rewrite dict_set_fresh by (apply Hfresh; left; reflexivity).
      unfold dict_keys. rewrite map_app. cbn. intros Hin.
      apply in_app_or in Hin. destruct Hin as [Hin|[->|[]]].
      - apply (Hfresh s); [right; exact Hs|exact Hin].
      - contradiction. }
    rewrite Hc', Ht', Hc, Ht.
    rewrite dict_set_fresh by (apply Hfresh; left; reflexivity).
    rewrite <- app_assoc. unfold sum. cbn. split; [reflexivity|lia].
Qed.

End CountLoop.

Lemma sum_values_of_map (f : string -> Z) (l : list string) :
  sum (dict_values (map (fun s => (s, f s)) l)) = sum (map f l).
Proof.
  unfold dict_values. rewrite map_map. cbn. reflexivity.
Qed.

(** C7.  The dict [count_all_sources] returns holds one entry per source of
    the catalog, in order: the count of the response, or 0 when the call
    raised (the loop goes on to the next source); and its total is the sum
    of these per-source values. *)
Theorem count_total_is_sum (requests_post : Request -> HttpOutcome) (key : string)
    (terms types : list string) :
  let api := KeyscoreAPI_init key in
  let count_of := fun source : string =>
    match count requests_post api terms types source false false "OR" None None with
    | Ok result => get_default (d_count result) 0
    | Raise _ => 0
    end in
  let returned := fst (count_all_sources requests_post api terms types) in
  exists (counts : dict Z) (total : Z),
    d_counts returned = Some counts
    /\ d_total_count returned = Some total
    /\ counts = map (fun s => (s, count_of s)) (all_sources api)
    /\ total = sum (dict_values counts).
Proof.
  intros api count_of returned.
  destruct (count_loop_spec requests_post api terms types (all_sources api)
              (prefix_free_NoDup _ (catalog_prefix_free key))
              (mk_CountState 0 [] [[Lit "📊 Getting counts from all sources..."; NL]]))
    as [Hc Ht].
  { intros s _ []. }
  cbn [source_counts total_count app] in Hc, Ht.
  exists (source_counts (count_all_sources_state requests_post api terms types)),
         (total_count (count_all_sources_state requests_post api terms types)).
  split; [reflexivity|]. split; [reflexivity|].
  unfold count_all_sources_state. split.
  - exact Hc.
  - rewrite Ht, Hc. rewrite sum_values_of_map. lia.
Qed.

Lemma count_all_sources_run :
  fst (count_all_sources first_source_fails sample_api ["a@b.com"] ["email"])
  = mk_JsonDict None None (Some 0) None
      (Some [("xkeyscore", 0); ("snusbase", 2); ("leakcheck", 2); ("hackcheck", 2);
             ("oathnet", 2); ("ghosint.leakosint", 2); ("ghosint.seon", 2);
             ("ghosint.breachvip", 2); ("osintdog.intelvault", 2);
             ("osintdog.breachbase", 2); ("osintdog.akula", 2)])
      (Some 20).
Proof. vm_compute. reflexivity. Qed.

(* ------------------------------------------------------------------ *)
(** ** Normalization (§4.2) *)

Lemma fix_record_normalized (t0 : string) (ts : list string) (search_term : string)
    (r r' : record) :
  fix_record (t0 :: ts) search_term r = Ok r' -> normalized t0 search_term r r'.
Proof.
  unfold fix_record, normalized, repairable.
  destruct (String.eqb_spec t0 "email") as [->|He].
  - cbn. destruct (in_NA_None_empty (dict_get "email" r)); intros H; inversion H.
    + split; [apply dict_get_set_same|].
      intros k Hk. now apply dict_get_set_other.
    + reflexivity.
  - destruct (String.eqb_spec t0 "url") as [->|Hu].
    + cbn. destruct (in_NA_None_empty (dict_get "url" r)); intros H; inversion H.
      * split; [apply dict_get_set_same|].
        intros k Hk. now apply dict_get_set_other.
      * reflexivity.
    + destruct (String.eqb_spec t0 "username") as [->|Hn].
      * cbn. destruct (in_NA_None_empty (dict_get "username" r)); intros H; inversion H.
        -- split; [apply dict_get_set_same|].
           intros k Hk. now apply dict_get_set_other.
        -- reflexivity.
      * cbn. intros H. inversion H. reflexivity.
Qed.

Lemma fix_record_total (t0 : string) (ts : list string) (search_term : string)
    (r : record) :
  exists r', fix_record (t0 :: ts) search_term r = Ok r'.
Proof.
  unfold fix_record.
  repeat match goal with
         | |- context [if ?c then _ else _] => destruct c
         end; eexists; reflexivity.
Qed.

Lemma fix_records_empty_types (search_term : string) (l l' : list record) :
  fix_records [] search_term l = Ok l' -> l = [] /\ l' = [].
Proof.
  destruct l as [|r l]; cbn; intros H; [inversion H; auto|discriminate].
Qed.

Lemma fix_records_raise (types : list string) (search_term : string)
    (l : list record) (e : exn) :
  fix_records types search_term l = Raise e -> types = [].
Proof.
  destruct types as [|t0 ts]; [reflexivity|].
  induction l as [|r l IH]; cbn [fix_records]; [discriminate|].
  destruct (fix_record_total t0 ts search_term r) as [r' ->].
  destruct (fix_records (t0 :: ts) search_term l); [discriminate|].
  exact IH.
Qed.

Lemma fix_records_length (types : list string) (search_term : string)
    (l l' : list record) :
  fix_records types search_term l = Ok l' -> len l' = len l.
Proof.
  revert l'. induction l as [|r l IH]; cbn [fix_records]; intros l' H.
  - inversion H. reflexivity.
  - destruct (fix_record types search_term r); [|discriminate].
    destruct (fix_records types search_term l); [|discriminate].
    inversion H. unfold len in *. cbn [length].
    specialize (IH _ eq_refl). lia.
Qed.

Lemma fix_records_normalized (types : list string) (search_term : string)
    (l l' : list record) :
  fix_records types search_term l = Ok l' -> normalized_all types search_term l l'.
Proof.
  unfold normalized_all. revert l'.
  induction l as [|r l IH]; cbn [fix_records]; intros l' H.
  - inversion H. constructor.
  - destruct (fix_record types search_term r) as [r'|] eqn:Hr; [|discriminate].
    destruct (fix_records types search_term l) as [rest|]; [|discriminate].
    inversion H. constructor; [|now apply IH].
    destruct types as [|t0 ts]; [discriminate|].
    exists t0. split; [reflexivity|]. exact (fix_record_normalized _ _ _ _ _ Hr).
Qed.

Lemma merge_buckets_In (types : list string) (search_term source : string)
    (items acc acc' : buckets) (oe : option exn) :
  merge_buckets types search_term source items acc = (acc', oe) ->
  forall key recs,
    In (key, recs) acc' ->
    In (key, recs) acc
    \/ exists db orig, In (db, orig) items /\ key = bucket_key source db
                       /\ fix_records types search_term orig = Ok recs.
Proof.
  revert acc. induction items as [|[db records] items IH]; cbn [merge_buckets];
    intros acc H key recs Hin.
  - inversion H; subst. auto.
  - destruct (fix_records types search_term records) as [records'|e] eqn:Hfix.
    + destruct (IH _ H key recs Hin) as [Hacc|[db' [orig [Hi [Hk Hf]]]]].
      * destruct (In_dict_set _ _ _ _ _ Hacc) as [[-> ->]|Hold]; [|auto].
        right. exists db, records. cbn. auto.
      * right. exists db', orig. cbn. auto.
    + inversion H; subst. auto.
Qed.

Section Provenance.

Variable requests_post : Request -> HttpOutcome.
Variable self : KeyscoreAPI.
Variables terms types : list string.
Variable search_term : string.

Local Abbreviation provenance_of :=
  (provenance requests_post self terms types search_term).

Lemma query_source_provenance (st : SearchState) (i : Z) (source : string) :
  In source (all_sources self) ->
  provenance_of st ->
  provenance_of (query_source requests_post self terms types search_term st i source).
Proof.
  intros Hsrc Hst. unfold provenance, query_source, try_source in *.
  destruct (search requests_post self _ _ _ _ _ _ _ _ _ _ _) as [result|e] eqn:Hsearch;
    [|exact Hst].
  destruct (d_results result) as [items|] eqn:Hres; [|exact Hst].
  cbn [truthy_results]. destruct items as [|item items]; [exact Hst|].
  destruct (get_default (d_size result) 0 >? 0); [|exact Hst].
  cbn [get_default].
  destruct (merge_buckets _ _ _ _ _) as [b oe] eqn:Hmerge.
  assert (Hb : forall key recs, In (key, recs) b ->
                 from_response requests_post self terms types search_term key recs).
  { intros key recs Hin.
    destruct (merge_buckets_In _ _ _ _ _ _ _ Hmerge key recs Hin)
      as [Hold|[db [orig [Hi [Hk Hf]]]]].
    - apply Hst. exact Hold.
    - exists source, db, result, (item :: items), orig.
      repeat split; auto. now apply fix_records_normalized. }
  destruct oe; cbn; exact Hb.
Qed.

Lemma search_loop_provenance (l : list (Z * string)) (st : SearchState) :
  (forall p, In p l -> In (snd p) (all_sources self)) ->
  provenance_of st ->
  provenance_of (search_loop requests_post self terms types search_term l st).
Proof.
  revert st. induction l as [|[i x] l IH]; intros st Hl Hst; [exact Hst|].
  unfold search_loop in *. cbn [fold_left fst snd].
  apply IH.
  - intros p Hp. apply Hl. now right.
  - apply query_source_provenance; [|exact Hst].
    apply (Hl (i, x)). now left.
Qed.

End Provenance.

Lemma In_enumerate {A : Type} (l : list A) (start : Z) (p : Z * A) :
  In p (enumerate start l) -> In (snd p) l.
Proof.
  revert start. induction l as [|x l IH]; intros start; cbn; [auto|].
  intros [<-|H]; [now left|]. right. exact (IH _ H).
Qed.

(** C3.  Every bucket [search_all_sources] returns comes from the response
    of one source of the catalog, and each of its records is the record the
    source sent, normalized for the first query type [t0]: when [t0] is
    "email", "url" or "username" and the record's field [t0] is absent,
    null, empty or "N/A", the field holds the searched term and every other
    field of the record is as it was; in every other case the record is
    unchanged. *)
Theorem merged_records_are_normalized (requests_post : Request -> HttpOutcome)
    (self : KeyscoreAPI) (terms types : list string) (search_term : string)
    (key : string) (recs : list record) :
  In (key, recs)
     (results (fst (search_all_sources requests_post self terms types search_term))) ->
  exists (source db : string) (result : JsonDict) (items : buckets) (orig : list record),
    In source (all_sources self)
    /\ search requests_post self terms types source false false "OR" None None 1 None 10000
       = Ok result
    /\ d_results result = Some items
    /\ In (db, orig) items
    /\ key = bucket_key source db
    /\ Forall2 (fun r r' =>
                  exists t0, hd_error types = Some t0
                    /\ if repairable t0 && in_NA_None_empty (dict_get t0 r)
                       then dict_get t0 r' = Some (JStr search_term)
                            /\ (forall k, k <> t0 -> dict_get k r' = dict_get k r)
                       else r' = r)
               orig recs.
Proof.
  intros Hin.
  apply (search_loop_provenance requests_post self terms types search_term
           (enumerate 1 (all_sources self)) (search_start self)).
  - intros p Hp. exact (In_enumerate _ _ _ Hp).
  - intros k r [].
  - exact Hin.
Qed.

Lemma merged_records_are_normalized_witness :
  exists (source db : string) (result : JsonDict) (items : buckets) (orig : list record),
    In source (all_sources sample_api)
    /\ search first_source_fails sample_api ["a@b.com"] ["email"] source
              false false "OR" None None 1 None 10000
       = Ok result
    /\ d_results result = Some items
    /\ In (db, orig) items
    /\ "🔸snusbase➤db" = bucket_key source db
    /\ Forall2 (fun r r' =>
                  exists t0, hd_error ["email"] = Some t0
                    /\ if repairable t0 && in_NA_None_empty (dict_get t0 r)
                       then dict_get t0 r' = Some (JStr "a@b.com")
                            /\ (forall k, k <> t0 -> dict_get k r' = dict_get k r)
                       else r' = r)
               orig
               [[("email", JStr "a@b.com"); ("password", JStr "x")];
                [("password", JStr "y"); ("email", JStr "a@b.com")]].
Proof.
  apply (merged_records_are_normalized first_source_fails sample_api
           ["a@b.com"] ["email"] "a@b.com" "🔸snusbase➤db"
           [[("email", JStr "a@b.com"); ("password", JStr "x")];
            [("password", JStr "y"); ("email", JStr "a@b.com")]]).
  vm_compute. left. reflexivity.
Defined.

Lemma fix_record_examples :
  fix_record ["email"] "a@b.com" [("email", JStr "N/A"); ("password", JStr "x")]
  = Ok [("email", JStr "a@b.com"); ("password", JStr "x")]
  /\ fix_record ["email"] "a@b.com" [("password", JStr "x")]
     = Ok [("password", JStr "x"); ("email", JStr "a@b.com")]
  /\ fix_record ["email"] "a@b.com" [("email", JNull)]
     = Ok [("email", JStr "a@b.com")]
  /\ fix_record ["email"] "a@b.com" [("email", JStr "c@d.org"); ("url", JStr "")]
     = Ok [("email", JStr "c@d.org"); ("url", JStr "")]
  /\ fix_record ["url"; "email"] "example.org" [("email", JStr ""); ("url", JStr "")]
     = Ok [("email", JStr ""); ("url", JStr "example.org")]
  /\ fix_record ["password"] "hunter2" [("password", JStr "")]
     = Ok [("password", JStr "")].
Proof. repeat split. Qed.

(* ------------------------------------------------------------------ *)
(** ** Bucket keys *)

Lemma append_inj_l (s a b : string) : (s ++ a = s ++ b)%string -> a = b.
Proof.
  induction s as [|c s IH]; cbn; intros H; [exact H|].
  inversion H. auto.
Qed.

Lemma append_eq_prefix (s s' x y : string) :
  (s ++ x = s' ++ y)%string -> prefix s s' = true \/ prefix s' s = true.
Proof.
  revert s'. induction s as [|a s IH]; intros s' H; [left; now destruct s'|].
  destruct s' as [|b s']; [right; reflexivity|].
  cbn in H. inversion H; subst.
  cbn. destruct (ascii_dec b b); [|contradiction].
  now apply IH.
Qed.

Lemma bucket_key_inj (source d d' : string) :
  bucket_key source d = bucket_key source d' -> d = d'.
Proof.
  unfold bucket_key. intros H.
  apply append_inj_l in H. apply append_inj_l in H. apply append_inj_l in H. exact H.
Qed.

Lemma bucket_key_disjoint (s s' d d' : string) :
  prefix s s' = false -> prefix s' s = false ->
  bucket_key s d <> bucket_key s' d'.
Proof.
  unfold bucket_key. intros H1 H2 H. apply append_inj_l in H.
  destruct (append_eq_prefix _ _ _ _ H); congruence.
Qed.

(* ------------------------------------------------------------------ *)
(** ** The size of the accumulator (§3, §8) *)

Lemma total_records_app (a b : buckets) :
  total_records (a ++ b) = total_records a + total_records b.
Proof. unfold total_records. rewrite map_app. apply sum_app. Qed.

Lemma total_records_cons (k : string) (records : list record) (b : buckets) :
  total_records ((k, records) :: b) = len records + total_records b.
Proof. reflexivity. Qed.

Lemma merge_buckets_raise (types : list string) (search_term source : string)
    (items acc acc' : buckets) (e : exn) :
  merge_buckets types search_term source items acc = (acc', Some e) -> types = [].
Proof.
  revert acc. induction items as [|[db records] items IH]; cbn [merge_buckets];
    intros acc H; [discriminate|].
  destruct (fix_records types search_term records) eqn:Hfix.
  - exact (IH _ H).
  - exact (fix_records_raise _ _ _ _ Hfix).
Qed.

Lemma merge_buckets_fresh (types : list string) (search_term source : string)
    (items : buckets) :
  dict_wf items ->
  forall (acc acc' : buckets) (oe : option exn),
    (forall d, In d (dict_keys items) -> ~ In (bucket_key source d) (dict_keys acc)) ->
    merge_buckets types search_term source items acc = (acc', oe) ->
    (forall key, In key (dict_keys acc') ->
                 In key (dict_keys acc) \/ exists d, key = bucket_key source d)
    /\ total_records acc'
       = total_records acc
         + match oe with None => total_records items | Some _ => 0 end.
Proof.
  unfold dict_wf.
  induction items as [|[db records] items IH]; cbn [merge_buckets dict_keys map fst];
    intros Hwf acc acc' oe Hfresh H.
  - inversion H; subst. split; [auto|]. unfold total_records, sum. cbn. lia.
  - inversion Hwf as [|? ? Hdb Hrest]; subst.
    destruct (fix_records types search_term records) as [records'|e] eqn:Hfix.
    + assert (Hset : dict_set (bucket_key source db) records' acc
                     = acc ++ [(bucket_key source db, records')]).
      { apply dict_set_fresh. apply Hfresh. now left. }
      rewrite Hset in H.
      assert (Hfresh' : forall d, In d (dict_keys items) ->
                ~ In (bucket_key source d)
                     (dict_keys (acc ++ [(bucket_key source db, records')]))).
      { intros d Hd. unfold dict_keys. rewrite map_app. cbn. intros Hin.
        apply in_app_or in Hin. destruct Hin as [Hin|[Heq|[]]].
        - apply (Hfresh d); [now right|exact Hin].
        - apply bucket_key_inj in Heq. subst d. contradiction. }
      destruct (IH Hrest _ _ _ Hfresh' H) as [Hkeys Htot].
      split.
      * intros key Hk. destruct (Hkeys key Hk) as [Hin|Hex]; [|auto].
        unfold dict_keys in Hin. rewrite map_app in Hin. cbn in Hin.
        apply in_app_or in Hin. destruct Hin as [Hin|[<-|[]]]; [auto|].
        right. now exists db.
      * rewrite Htot, total_records_app, !total_records_cons.
        change (total_records []) with 0.
        pose proof (fix_records_length _ _ _ _ Hfix) as Hlen.
        destruct oe as [e|].
        -- pose proof (merge_buckets_raise _ _ _ _ _ _ _ H) as Hty. subst types.
           destruct (fix_records_empty_types _ _ _ Hfix) as [_ ->].
           unfold len. cbn. lia.
        -- lia.
    + inversion H; subst. split; [auto|]. lia.
Qed.

Section SizeInvariant.

Variable requests_post : Request -> HttpOutcome.
Variable self : KeyscoreAPI.
Variables terms types : list string.
Variable search_term : string.

(** Every response that is merged reports as its size the number of records
    it carries. *)
Hypothesis merged_sizes :
  forall source result,
    In source (all_sources self) ->
    search requests_post self terms types source false false "OR" None None 1 None 10000
    = Ok result ->
    truthy_results (d_results result) = true ->
    get_default (d_size result) 0 > 0 ->
    size_consistent result.


Lemma query_source_size_invariant (S : list string) (st : SearchState) (i : Z)
    (source : string) :
  In source (all_sources self) ->
  (forall s, In s S -> prefix s source = false /\ prefix source s = false) ->
  size_invariant S st ->
  size_invariant (S ++ [source])
            (query_source requests_post self terms types search_term st i source).
Proof.
  intros Hsrc Hdisj [Hsize Hkeys].
  assert (Hweak : size_invariant (S ++ [source]) st).
  { split; [exact Hsize|]. intros key Hk. destruct (Hkeys key Hk) as [s [d [Hs ->]]].
    exists s, d. split; [apply in_or_app; now left|reflexivity]. }
  unfold query_source, try_source.
  destruct (search requests_post self _ _ _ _ _ _ _ _ _ _ _) as [result|e] eqn:Hsearch;
    [|exact Hweak].
  destruct (truthy_results (d_results result)) eqn:Htruthy; [|exact Hweak].
  destruct (Z.gtb_spec (get_default (d_size result) 0) 0) as [Hpos|Hle]; [|exact Hweak].
  destruct (merged_sizes source result Hsrc Hsearch Htruthy ltac:(lia)) as [Hwf Hcount].
  cbn [say say_end_space with_results all_results results].
  destruct (merge_buckets _ _ _ _ _) as [b oe] eqn:Hmerge.
  assert (Hfresh : forall d, In d (dict_keys (get_default (d_results result) [])) ->
            ~ In (bucket_key source d) (dict_keys (results (all_results st)))).
  { intros d Hd Hin. destruct (Hkeys _ Hin) as [s [d' [Hs Heq]]].
    destruct (Hdisj s Hs) as [H1 H2].
    exact (bucket_key_disjoint _ _ _ _ H2 H1 Heq). }
  destruct (merge_buckets_fresh _ _ _ _ Hwf _ _ _ Hfresh Hmerge) as [Hk Ht].
  assert (Hkeys' : forall key, In key (dict_keys b) ->
                               exists s d, In s (S ++ [source]) /\ key = bucket_key s d).
  { intros key Hin. destruct (Hk key Hin) as [Hold|[d ->]].
    - destruct (Hkeys key Hold) as [s [d [Hs ->]]].
      exists s, d. split; [apply in_or_app; now left|reflexivity].
    - exists source, d. split; [apply in_or_app; right; now left|reflexivity]. }
  unfold size_invariant.
  destruct oe as [e|]; cbn; (split; [|exact Hkeys']);
    unfold total_records, sum in *; lia.
Qed.

Lemma search_loop_size_invariant (l : list string) :
  forall (S : list string) (start : Z) (st : SearchState),
    (forall s, In s l -> In s (all_sources self)) ->
    prefix_free (S ++ l) = true ->
    size_invariant S st ->
    size_invariant (S ++ l)
              (search_loop requests_post self terms types search_term
                           (enumerate start l) st).
Proof.
  induction l as [|x l IH]; intros S start st Hl Hfree Hinv.
  - rewrite app_nil_r. exact Hinv.
  - cbn [enumerate]. unfold search_loop in *. cbn [fold_left fst snd].
    replace (S ++ x :: l) with ((S ++ [x]) ++ l) in * by (now rewrite <- app_assoc).
    apply IH.
    + intros s Hs. apply Hl. now right.
    + exact Hfree.
    + apply query_source_size_invariant; [apply Hl; now left| |exact Hinv].
      rewrite <- app_assoc in Hfree. cbn [app] in Hfree.
      exact (prefix_free_app_cons S x l Hfree).
Qed.

Lemma search_loop_size (pre suf : list string) :
  all_sources self = pre ++ suf ->
  prefix_free (all_sources self) = true ->
  let st := search_loop requests_post self terms types search_term
                        (enumerate 1 pre) (search_start self) in
  size (all_results st) = total_records (results (all_results st)).
Proof.
  intros Hcat Hfree st.
  assert (Hpre : prefix_free pre = true).
  { rewrite Hcat in Hfree. clear -Hfree.
    induction pre as [|s pre IH]; [reflexivity|].
    cbn [app] in Hfree. destruct (prefix_free_head _ _ Hfree) as [Hrest Hs].
    cbn. rewrite (IH Hrest), andb_true_r.
    apply forallb_forall. intros s' Hin.
    destruct (Hs s' (in_or_app _ _ _ (or_introl Hin))) as [-> ->]. reflexivity. }
  destruct (search_loop_size_invariant pre [] 1 (search_start self)) as [Hsize _].
  - intros s Hs. rewrite Hcat. apply in_or_app. now left.
  - exact Hpre.
  - split; [reflexivity|]. intros key [].
  - exact Hsize.
Qed.

End SizeInvariant.

(** C1 (amended).  In a run of [search_all_sources] over the catalog of the
    client, if every response that gets merged (non-empty results, size
    above 0) reports as its size the number of records it carries, then
    after every iteration of the loop, and in the returned dict, [size] is
    the sum of [len(records)] over all buckets. *)
Theorem size_is_total_records (requests_post : Request -> HttpOutcome) (key : string)
    (terms types : list string) (search_term : string) :
  let self := KeyscoreAPI_init key in
  (forall source result,
      In source (all_sources self) ->
      search requests_post self terms types source false false "OR" None None 1 None 10000
      = Ok result ->
      truthy_results (d_results result) = true ->
      get_default (d_size result) 0 > 0 ->
      size_consistent result) ->
  (forall pre suf,
      all_sources self = pre ++ suf ->
      let st := search_loop requests_post self terms types search_term
                            (enumerate 1 pre) (search_start self) in
      size (all_results st) = total_records (results (all_results st)))
  /\ size (fst (search_all_sources requests_post self terms types search_term))
     = total_records
         (results (fst (search_all_sources requests_post self terms types search_term))).
Proof.
  intros self Hsizes. split.
  - intros pre suf Hcat.
    exact (search_loop_size requests_post self terms types search_term Hsizes
                            pre suf Hcat (catalog_prefix_free key)).
  - unfold search_all_sources, search_all_sources_state. cbn [fst say all_results].
    exact (search_loop_size requests_post self terms types search_term Hsizes
                            (all_sources self) [] (eq_sym (app_nil_r _))
                            (catalog_prefix_free key)).
Qed.

Lemma size_is_total_records_witness :
  (forall pre suf,
      all_sources (KeyscoreAPI_init "k") = pre ++ suf ->
      let st := search_loop two_records_each (KeyscoreAPI_init "k") ["a@b.com"] ["email"]
                            "a@b.com" (enumerate 1 pre)
                            (search_start (KeyscoreAPI_init "k")) in
      size (all_results st) = total_records (results (all_results st)))
  /\ size (fst (search_all_sources two_records_each (KeyscoreAPI_init "k")
                                   ["a@b.com"] ["email"] "a@b.com"))
     = total_records
         (results (fst (search_all_sources two_records_each (KeyscoreAPI_init "k")
                                           ["a@b.com"] ["email"] "a@b.com"))).
Proof.
  apply (size_is_total_records two_records_each "k" ["a@b.com"] ["email"] "a@b.com").
  intros source result _ Hs _ _. cbv in Hs. inversion Hs.
  split.
  - constructor; [intros []|constructor].
  - reflexivity.
Defined.

Lemma size_is_total_records_run :
  fst (search_all_sources two_records_each sample_api ["a@b.com"] ["email"] "a@b.com")
  = mk_AllResults
      (map (fun s => (bucket_key s "db",
                      [[("email", JStr "a@b.com"); ("password", JStr "x")];
                       [("password", JStr "y"); ("email", JStr "a@b.com")]]))
           (all_sources sample_api))
      22 33.
Proof. vm_compute. reflexivity. Qed.

(** C1, as stated, fails: [size] accumulates the size each response reports,
    not the number of records merged.  With every source answering one
    record under a reported size of 5, the returned size is 55 and the
    buckets hold 11 records. *)
Lemma reported_size_is_not_record_count :
  size (fst (search_all_sources one_record_size5 sample_api ["a@b.com"] ["email"]
                                "a@b.com"))
  <> total_records
       (results (fst (search_all_sources one_record_size5 sample_api ["a@b.com"]
                                         ["email"] "a@b.com"))).
Proof. vm_compute. discriminate. Qed.

Lemma reported_size_run :
  size (fst (search_all_sources one_record_size5 sample_api ["a@b.com"] ["email"]
                                "a@b.com")) = 55
  /\ total_records
       (results (fst (search_all_sources one_record_size5 sample_api ["a@b.com"]
                                         ["email"] "a@b.com"))) = 11.
Proof. vm_compute. split; reflexivity. Qed.

(* ------------------------------------------------------------------ *)
(** ** Field selection in the two renderers (§4.4) *)

Lemma selected_app (a b : list text) : selected (a ++ b) = selected a ++ selected b.
Proof. unfold selected. apply flat_map_app. Qed.

Lemma print_first_write_first (fields : list string) (r : record) :
  print_first fields r = write_first fields r.
Proof.
  induction fields as [|field fields IH]; cbn; [reflexivity|].
  destruct (dict_get field r) as [v|]; [|exact IH].
  destruct (truthy v && negb (is_NA v)); [reflexivity|exact IH].
Qed.

Section Renderers.

Variable lower : string -> string.

Lemma print_others_write_others (r : record) :
  print_others lower r = write_others lower r.
Proof.
  induction r as [|[field value] r IH]; cbn; [reflexivity|].
  rewrite IH. reflexivity.
Qed.

(** The lines of one record are the same on the console and in the file. *)
Lemma print_record_write_record (n total i : Z) (r : record) :
  print_record lower n i r = snd (write_record lower n total i r).
Proof.
  unfold print_record, write_record. cbn [snd].
  rewrite !print_first_write_first, print_others_write_others. reflexivity.
Qed.

Lemma print_records_write_records (l : list (Z * record)) (n total : Z) :
  print_records lower l n
  = (snd (fst (write_records lower l n total)), snd (write_records lower l n total)).
Proof.
  revert n. induction l as [|[i r] l IH]; intros n; cbn [print_records write_records].
  - reflexivity.
  - rewrite (IH (n + 1)).
    rewrite (print_record_write_record (n + 1) total i r).
    destruct (write_record lower (n + 1) total i r) as [con1 file1].
    destruct (write_records lower l (n + 1) total) as [[con2 file2] m].
    reflexivity.
Qed.

Lemma print_buckets_write_buckets (items : buckets) (n total : Z) :
  selected (fst (print_buckets lower items n))
  = selected (snd (fst (write_buckets lower items n total)))
  /\ snd (print_buckets lower items n) = snd (write_buckets lower items n total).
Proof.
  revert n. induction items as [|[db_name records] items IH]; intros n;
    cbn [print_buckets write_buckets].
  - split; reflexivity.
  - rewrite (print_records_write_records (enumerate 1 records) n total).
    destruct (write_records lower (enumerate 1 records) n total) as [[con1 file1] n1].
    cbn [fst snd].
    destruct (IH n1) as [Hsel Hn].
    destruct (print_buckets lower items n1) as [out2 m2].
    destruct (write_buckets lower items n1 total) as [[con2 file2] m2'].
    cbn [fst snd] in *. split; [|exact Hn].
    rewrite !selected_app. rewrite Hsel. reflexivity.
Qed.

(** Whatever is selected obeys the rule of §4.4. *)
Lemma print_first_obeys (fields : list string) (r : record) :
  (forall f, In f fields -> str_in f shown_fields = true) ->
  Forall (obeys_selection lower) (selected (print_first fields r)).
Proof.
  intros Hsub. induction fields as [|field fields IH]; cbn [print_first].
  - constructor.
  - assert (IH' := IH (fun f Hf => Hsub f (or_intror Hf))).
    destruct (dict_get field r) as [v|]; [|exact IH'].
    destruct (truthy v && negb (is_NA v)) eqn:Hv; [|exact IH'].
    apply andb_true_iff in Hv. destruct Hv as [Ht Hna].
    apply negb_true_iff in Hna.
    change (selected [line [Lit "      "; Title field; Lit ": "; Val v]])
      with [(true, field, v)].
    constructor; [|constructor].
    unfold obeys_selection. cbn [fst snd].
    rewrite (Hsub field (or_introl eq_refl)). auto.
Qed.

Lemma print_others_obeys (r : record) :
  Forall (obeys_selection lower) (selected (print_others lower r)).
Proof.
  induction r as [|[field value] r IH]; cbn [print_others]; [constructor|].
  rewrite selected_app. apply Forall_app. split; [|exact IH].
  destruct (negb (str_in (lower field) shown_fields) && truthy value
            && negb (is_NA value)) eqn:Hc; [|constructor].
  apply andb_true_iff in Hc. destruct Hc as [Hc Hna].
  apply andb_true_iff in Hc. destruct Hc as [Hlow Ht].
  apply negb_true_iff in Hlow. apply negb_true_iff in Hna.
  change (selected [line [Lit "      "; TitleSpaced field; Lit ": "; Val value]])
    with [(false, field, value)].
  constructor; [|constructor].
  unfold obeys_selection. cbn [fst snd]. auto.
Qed.

Lemma group_names_shown (f : string) :
  In f priority_fields \/ In f password_fields \/ In f url_fields ->
  str_in f shown_fields = true.
Proof.
  cbn. intros H.
  repeat match type of H with
         | _ \/ _ => destruct H as [H|H]
         end; try contradiction; subst f; reflexivity.
Qed.

Lemma print_record_obeys (n i : Z) (r : record) :
  Forall (obeys_selection lower) (selected (print_record lower n i r)).
Proof.
  unfold print_record. rewrite !selected_app.
  apply Forall_app. split; [constructor|].
  apply Forall_app. split.
  { apply print_first_obeys. intros f Hf. apply group_names_shown. auto. }
  apply Forall_app. split.
  { apply print_first_obeys. intros f Hf. apply group_names_shown. auto. }
  apply Forall_app. split.
  { apply print_first_obeys. intros f Hf. apply group_names_shown. auto. }
  apply Forall_app. split; [apply print_others_obeys|constructor].
Qed.

Lemma print_records_obeys (l : list (Z * record)) (n : Z) :
  Forall (obeys_selection lower) (selected (fst (print_records lower l n))).
Proof.
  revert n. induction l as [|[i r] l IH]; intros n; cbn [print_records].
  - constructor.
  - specialize (IH (n + 1)).
    destruct (print_records lower l (n + 1)) as [out m]. cbn [fst] in *.
    rewrite selected_app. apply Forall_app. split; [apply print_record_obeys|exact IH].
Qed.

Lemma print_buckets_obeys (items : buckets) (n : Z) :
  Forall (obeys_selection lower) (selected (fst (print_buckets lower items n))).
Proof.
  revert n. induction items as [|[db_name records] items IH]; intros n;
    cbn [print_buckets].
  - constructor.
  - pose proof (print_records_obeys (enumerate 1 records) n) as H1.
    destruct (print_records lower (enumerate 1 records) n) as [out1 n1].
    specialize (IH n1).
    destruct (print_buckets lower items n1) as [out2 n2]. cbn [fst] in *.
    rewrite !selected_app.
    apply Forall_app. split; [constructor|].
    apply Forall_app. split; assumption.
Qed.

Lemma print_results_obeys (res : JsonDict) :
  Forall (obeys_selection lower) (selected (print_results lower res)).
Proof.
  unfold print_results. destruct (d_results res) as [items|]; [|constructor].
  rewrite selected_app. apply Forall_app. split; [constructor|].
  destruct (get_default (d_size res) 0 =? 0); [constructor|].
  pose proof (print_buckets_obeys items 0) as H.
  destruct (print_buckets lower items 0) as [out n]. cbn [fst] in H.
  rewrite selected_app. apply Forall_app. split; [exact H|constructor].
Qed.

Variable isalnum : string -> bool.
Variable open_w : string -> option exn.
Variable getsize : string -> Z.

Lemma save_selects_like_print (res : JsonDict) (search_term search_type : string) :
  open_w (output_filename isalnum search_term search_type) = None ->
  selected (print_results lower res)
  = selected (snd (fst (save_results_to_file lower isalnum open_w getsize
                                             res search_term search_type))).
Proof.
  intros Hopen. unfold save_results_to_file, print_results. rewrite Hopen.
  destruct (Z.eqb_spec (get_default (d_size res) 0) 0) as [Hz|Hnz].
  - cbn [fst snd]. rewrite selected_app.
    destruct (d_results res); reflexivity.
  - destruct (d_results res) as [items|]; cbn [get_default].
    + destruct (print_buckets_write_buckets items 0 (get_default (d_size res) 0))
        as [Hsel _].
      destruct (print_buckets lower items 0) as [out n].
      destruct (write_buckets lower items 0 (get_default (d_size res) 0))
        as [[con file] m].
      cbn [fst snd] in *. rewrite !selected_app. rewrite Hsel. reflexivity.
    + reflexivity.
Qed.

Lemma save_obeys (res : JsonDict) (search_term search_type : string) :
  Forall (obeys_selection lower)
         (selected (snd (fst (save_results_to_file lower isalnum open_w getsize
                                                   res search_term search_type)))).
Proof.
  destruct (open_w (output_filename isalnum search_term search_type)) as [e|] eqn:Hopen.
  - unfold save_results_to_file. rewrite Hopen. constructor.
  - rewrite <- (save_selects_like_print res search_term search_type Hopen).
    apply print_results_obeys.
Qed.

(** A name that is a case variant of a group name cannot obey the rule. *)
Lemma case_variant_disobeys (field : string) (g : bool) (v : json) :
  str_in (lower field) shown_fields = true ->
  str_in field shown_fields = false ->
  ~ obeys_selection lower (g, field, v).
Proof.
  intros Hlow Hexact [H _]. cbn [fst snd] in H. destruct g; congruence.
Qed.

End Renderers.

(** C8.  When the file can be opened, the file report of
    [save_results_to_file] renders, for every result dict, the same fields
    in the same order as the console report of [print_results]: the same
    field of each priority group and the same remaining fields; and the
    lines of each single record are the same in both. *)
Theorem console_and_file_select_same_fields
    (lower : string -> string) (isalnum : string -> bool)
    (open_w : string -> option exn) (getsize : string -> Z)
    (res : JsonDict) (search_term search_type : string) :
  open_w (output_filename isalnum search_term search_type) = None ->
  selected (print_results lower res)
  = selected (snd (fst (save_results_to_file lower isalnum open_w getsize
                                             res search_term search_type)))
  /\ (forall (n total i : Z) (r : record),
         print_record lower n i r = snd (write_record lower n total i r))
  /\ (forall (fields : list string) (r : record),
         print_first fields r = write_first fields r)
  /\ (forall r : record, print_others lower r = write_others lower r).
Proof.
  intros Hopen. split; [|split; [|split]].
  - exact (save_selects_like_print lower isalnum open_w getsize res search_term
                                   search_type Hopen).
  - intros n total i r. apply print_record_write_record.
  - intros fields r. apply print_first_write_first.
  - intros r. apply print_others_write_others.
Qed.

Lemma console_and_file_select_same_fields_witness :
  selected (print_results ascii_lower sample_results)
  = selected (snd (fst (save_results_to_file ascii_lower isalnum_ascii_only open_ok
                                             getsize_2048 sample_results
                                             "a@b.com" "email")))
  /\ (forall (n total i : Z) (r : record),
         print_record ascii_lower n i r = snd (write_record ascii_lower n total i r))
  /\ (forall (fields : list string) (r : record),
         print_first fields r = write_first fields r)
  /\ (forall r : record, print_others ascii_lower r = write_others ascii_lower r).
Proof.
  apply (console_and_file_select_same_fields ascii_lower isalnum_ascii_only open_ok
           getsize_2048 sample_results "a@b.com" "email").
  reflexivity.
Defined.

Lemma sample_selection :
  selected (print_results ascii_lower sample_results)
  = [(true, "login", JStr "bob");
     (true, "site", JStr "example.org");
     (false, "first_name", JStr "Bob")]
  /\ selected (snd (fst (save_results_to_file ascii_lower isalnum_ascii_only open_ok
                                              getsize_2048 sample_results
                                              "a@b.com" "email")))
     = [(true, "login", JStr "bob");
        (true, "site", JStr "example.org");
        (false, "first_name", JStr "Bob")].
Proof. vm_compute. split; reflexivity. Qed.

(** C10.  A field whose name is not one of the group names but lower-cases
    to one of them (such as "Email" or "PASSWORD") is rendered by neither
    report, whatever the record holds: the group scans look up the exact
    group names only, and the remaining-fields pass skips every name whose
    lower-cased form is a group name. *)
Theorem case_variant_field_never_rendered
    (lower : string -> string) (isalnum : string -> bool)
    (open_w : string -> option exn) (getsize : string -> Z)
    (res : JsonDict) (search_term search_type : string) (field : string) :
  str_in (lower field) shown_fields = true ->
  str_in field shown_fields = false ->
  (forall (g : bool) (v : json),
      ~ In (g, field, v) (selected (print_results lower res)))
  /\ (forall (g : bool) (v : json),
         ~ In (g, field, v)
              (selected (snd (fst (save_results_to_file lower isalnum open_w getsize
                                                        res search_term search_type)))))
  /\ (forall (n total i : Z) (r : record) (g : bool) (v : json),
         ~ In (g, field, v) (selected (print_record lower n i r))
         /\ ~ In (g, field, v) (selected (snd (write_record lower n total i r)))).
Proof.
  intros Hlow Hexact. split; [|split].
  - intros g v Hin.
    pose proof (print_results_obeys lower res) as H. rewrite Forall_forall in H.
    exact (case_variant_disobeys lower field g v Hlow Hexact (H _ Hin)).
  - intros g v Hin.
    pose proof (save_obeys lower isalnum open_w getsize res search_term search_type) as H.
    rewrite Forall_forall in H.
    exact (case_variant_disobeys lower field g v Hlow Hexact (H _ Hin)).
  - intros n total i r g v.
    rewrite <- (print_record_write_record lower n total i r).
    pose proof (print_record_obeys lower n i r) as H. rewrite Forall_forall in H.
    split; intros Hin;
      exact (case_variant_disobeys lower field g v Hlow Hexact (H _ Hin)).
Qed.

Lemma case_variant_field_never_rendered_witness :
  (forall (g : bool) (v : json),
      ~ In (g, "Email", v) (selected (print_results ascii_lower sample_results)))
  /\ (forall (g : bool) (v : json),
         ~ In (g, "Email", v)
              (selected (snd (fst (save_results_to_file ascii_lower isalnum_ascii_only
                                     open_ok getsize_2048 sample_results
                                     "a@b.com" "email")))))
  /\ (forall (n total i : Z) (r : record) (g : bool) (v : json),
         ~ In (g, "Email", v) (selected (print_record ascii_lower n i r))
         /\ ~ In (g, "Email", v) (selected (snd (write_record ascii_lower n total i r)))).
Proof.
  apply (case_variant_field_never_rendered ascii_lower isalnum_ascii_only open_ok
           getsize_2048 sample_results "a@b.com" "email" "Email").
  - reflexivity.
  - reflexivity.
Defined.

Lemma case_variants_of_group_names :
  str_in (ascii_lower "Email") shown_fields = true
  /\ str_in "Email" shown_fields = false
  /\ str_in (ascii_lower "PASSWORD") shown_fields = true
  /\ str_in "PASSWORD" shown_fields = false
  /\ dict_get "email" sample_record = None
  /\ dict_get "Email" sample_record = Some (JStr "a@b.com").
Proof. repeat split. Qed.

(* ------------------------------------------------------------------ *)
(** ** The output file name (§4.5) *)

Lemma string_append_nil_r (s : string) : (s ++ "")%string = s.
Proof. induction s as [|a s IH]; cbn; [reflexivity|]. now rewrite IH. Qed.

Lemma string_append_assoc (a b c : string) :
  ((a ++ b) ++ c)%string = (a ++ (b ++ c))%string.
Proof. induction a as [|x a IH]; cbn; [reflexivity|]. now rewrite IH. Qed.

Lemma string_length_snoc (s : string) (b : ascii) :
  String.length (s ++ String b "") = S (String.length s).
Proof. induction s as [|a s IH]; cbn; [reflexivity|]. now rewrite IH. Qed.

Lemma whole_char_started (c : string) : whole_char c -> started_char c.
Proof. destruct c as [|b rest]; cbn; [auto|]. intros ->. apply le_n. Qed.

Lemma chars_wf_cons (c : string) (l : list string) :
  whole_char c -> chars_wf l -> chars_wf (c :: l).
Proof.
  intros Hc Hl. destruct l as [|c' l]; cbn [chars_wf].
  - now apply whole_char_started.
  - split; assumption.
Qed.

Lemma chars_wf_filter (keep : string -> bool) (l : list string) :
  chars_wf l -> chars_wf (filter keep l).
Proof.
  induction l as [|c l IH]; [auto|].
  intros H. destruct l as [|c' l].
  - cbn. destruct (keep c); [exact H|exact I].
  - destruct H as [Hc Hl]. specialize (IH Hl).
    cbn [filter] in *. destruct (keep c); [|exact IH].
    apply chars_wf_cons; assumption.
Qed.

Lemma chars_from_wf (s : string) :
  forall (pending : nat) (cur : string),
    match cur with
    | EmptyString => pending = 0%nat
    | String b rest => (String.length rest + pending = utf8_width b - 1)%nat
    end ->
    chars_wf (chars_from pending cur s).
Proof.
  induction s as [|b0 s IH]; intros pending cur Hok; cbn [chars_from].
  - destruct cur as [|b rest]; cbn; [exact I|]. lia.
  - destruct pending as [|p].
    + assert (Htail : chars_wf (chars_from (utf8_width b0 - 1) (String b0 "") s)).
      { apply IH. cbn. reflexivity. }
      destruct cur as [|b rest]; cbn [flush app]; [exact Htail|].
      apply chars_wf_cons; [|exact Htail]. cbn. lia.
    + destruct cur as [|b rest]; [discriminate|].
      apply IH. cbn [append]. rewrite string_length_snoc. lia.
Qed.

Lemma chars_from_append (x : string) :
  forall (pending : nat) (cur s : string),
    chars_from (String.length x + pending) cur (x ++ s)
    = chars_from pending (cur ++ x) s.
Proof.
  induction x as [|b x IH]; intros pending cur s.
  - cbn. now rewrite string_append_nil_r.
  - cbn [String.length append Nat.add chars_from]. rewrite IH.
    rewrite string_append_assoc. reflexivity.
Qed.

Lemma chars_from_flush (cur s : string) :
  cur <> EmptyString ->
  chars_from 0 cur s = cur :: chars_from 0 EmptyString s.
Proof.
  intros Hne. destruct cur as [|b rest]; [contradiction|].
  destruct s; reflexivity.
Qed.

Lemma chars_whole (c s : string) :
  whole_char c -> chars (c ++ s) = c :: chars s.
Proof.
  destruct c as [|b rest]; cbn [whole_char]; [contradiction|]. intros Hlen.
  unfold chars. cbn [append chars_from flush app].
  rewrite <- Hlen.
  rewrite <- (Nat.add_0_r (String.length rest)).
  rewrite chars_from_append. cbn [append].
  apply chars_from_flush. discriminate.
Qed.

Lemma chars_started (c : string) : started_char c -> chars c = [c].
Proof.
  destruct c as [|b rest]; cbn [started_char]; [contradiction|]. intros Hlen.
  unfold chars. cbn [chars_from flush app].
  set (p := (utf8_width b - 1 - String.length rest)%nat).
  replace (utf8_width b - 1)%nat with (String.length rest + p)%nat by lia.
  pose proof (chars_from_append rest p (String b "") "") as H.
  rewrite string_append_nil_r in H. rewrite H. reflexivity.
Qed.

Lemma chars_concat (l : list string) :
  chars_wf l -> chars (String.concat "" l) = l.
Proof.
  induction l as [|c l IH]; [reflexivity|].
  intros H. destruct l as [|c' l].
  - cbn. now apply chars_started.
  - destruct H as [Hc Hl].
    change (String.concat "" (c :: c' :: l))
      with (c ++ String.concat "" (c' :: l))%string.
    rewrite (chars_whole _ _ Hc). now rewrite (IH Hl).
Qed.

Lemma chars_ascii_example :
  chars "user@site.com!"
  = ["u"; "s"; "e"; "r"; "@"; "s"; "i"; "t"; "e"; "."; "c"; "o"; "m"; "!"]
  /\ chars "é🔸x" = ["é"; "🔸"; "x"].
Proof. split; reflexivity. Qed.

(** C9.  The file name is the sanitized term, "-", the search type and
    "-output.txt"; the characters of the sanitized term are exactly the
    characters of the term that are alphanumeric or one of "-", "_", ".",
    in their order, every other character being dropped; and
    "user@site.com!" is sanitized to "usersite.com". *)
Theorem filename_is_sanitized_term (isalnum : string -> bool)
    (search_term search_type : string) :
  (forall a : ascii,
      (nat_of_ascii a < 128)%nat -> isalnum (String a "") = ascii_isalnum a) ->
  output_filename isalnum search_term search_type
  = (sanitize isalnum search_term ++ "-" ++ search_type ++ "-output.txt")%string
  /\ chars (sanitize isalnum search_term)
     = filter (fun c => isalnum c || str_in c ["-"; "_"; "."]) (chars search_term)
  /\ (forall c, In c (chars (sanitize isalnum search_term)) <->
                In c (chars search_term)
                /\ (isalnum c = true \/ c = "-" \/ c = "_" \/ c = "."))
  /\ sanitize isalnum "user@site.com!" = "usersite.com".
Proof.
  intros Hascii.
  assert (Hchars : chars (sanitize isalnum search_term)
                   = filter (keep_char isalnum) (chars search_term)).
  { unfold sanitize. apply chars_concat. apply chars_wf_filter.
    unfold chars. apply chars_from_wf. reflexivity. }
  split; [reflexivity|]. split; [exact Hchars|]. split.
  - intros c. rewrite Hchars, filter_In. unfold keep_char, str_in. cbn [existsb].
    destruct (isalnum c); cbn [orb].
    + tauto.
    + destruct (String.eqb_spec c "-") as [->|H1]; cbn [orb]; [tauto|].
      destruct (String.eqb_spec c "_") as [->|H2]; cbn [orb]; [tauto|].
      destruct (String.eqb_spec c ".") as [->|H3]; cbn [orb]; [tauto|].
      intuition congruence.
  - unfold sanitize, keep_char.
    change (chars "user@site.com!")
      with ["u"; "s"; "e"; "r"; "@"; "s"; "i"; "t"; "e"; "."; "c"; "o"; "m"; "!"].
    cbn [filter]. rewrite !Hascii by (cbn; lia). reflexivity.
Qed.

Lemma filename_is_sanitized_term_witness :
  output_filename isalnum_ascii_only "user@site.com!" "email"
  = (sanitize isalnum_ascii_only "user@site.com!" ++ "-" ++ "email" ++ "-output.txt")%string
  /\ chars (sanitize isalnum_ascii_only "user@site.com!")
     = filter (fun c => isalnum_ascii_only c || str_in c ["-"; "_"; "."])
              (chars "user@site.com!")
  /\ (forall c, In c (chars (sanitize isalnum_ascii_only "user@site.com!")) <->
                In c (chars "user@site.com!")
                /\ (isalnum_ascii_only c = true \/ c = "-" \/ c = "_" \/ c = "."))
  /\ sanitize isalnum_ascii_only "user@site.com!" = "usersite.com".
Proof.
  apply (filename_is_sanitized_term isalnum_ascii_only "user@site.com!" "email").
  intros a Ha. unfold isalnum_ascii_only.
  apply Nat.ltb_lt in Ha. rewrite Ha. reflexivity.
Defined.

Lemma output_filename_example :
  output_filename isalnum_ascii_only "user@site.com!" "email"
  = "usersite.com-email-output.txt"
  /\ output_filename isalnum_ascii_only "*.target_1.com/a b" "wildcard"
     = ".target_1.comab-wildcard-output.txt".
Proof. split; reflexivity. Qed.

(* ================================================================== *)
(** * Further properties *)

(* ------------------------------------------------------------------ *)
(** ** The requests of the client *)

Lemma search_posts_request (requests_post : Request -> HttpOutcome) (self : KeyscoreAPI)
    (terms types : list string) (source : string) (wildcard regex : bool)
    (operator : string) (date_from date_to : option string)
    (page : Z) (pages : option json) (pagesize : Z) :
  search requests_post self terms types source wildcard regex operator
         date_from date_to page pages pagesize
  = search_outcome
      (requests_post (search_request self terms types source wildcard regex operator
                                     date_from date_to page pages pagesize)).
Proof. reflexivity. Qed.

Lemma count_posts_request (requests_post : Request -> HttpOutcome) (self : KeyscoreAPI)
    (terms types : list string) (source : string) (wildcard regex : bool)
    (operator : string) (date_from date_to : option string) :
  count requests_post self terms types source wildcard regex operator date_from date_to
  = count_outcome
      (requests_post (count_request self terms types source wildcard regex operator
                                    date_from date_to)).
Proof. reflexivity. Qed.

Lemma fan_out_posts_request (requests_post : Request -> HttpOutcome) (self : KeyscoreAPI)
    (terms types : list string) (source : string) :
  search requests_post self terms types source false false "OR" None None 1 None 10000
  = search_outcome (requests_post (fan_out_request self terms types source)).
Proof. reflexivity. Qed.

(** X1.  The optional parameters of [search] reach the request body only
    when they are truthy: [dateFrom] and [dateTo] are sent for a non-empty
    string and left out for [None] and for the empty string, [pages] is
    left out for [None], 0, the empty string and every other falsy value;
    the eight other keys are always sent, in the order of the source, and
    an optional key never replaces one of them. *)
Theorem search_request_optional_keys (self : KeyscoreAPI) (terms types : list string)
    (source : string) (wildcard regex : bool) (operator : string)
    (date_from date_to : option string)
    (page : Z) (pages : option json) (pagesize : Z) :
  let body := payload (search_request self terms types source wildcard regex operator
                                      date_from date_to page pages pagesize) in
  dict_keys body
  = ["terms"; "types"; "source"; "wildcard"; "regex"; "operator"; "page"; "pagesize"]
    ++ (if truthy_str date_from then ["dateFrom"] else [])
    ++ (if truthy_str date_to then ["dateTo"] else [])
    ++ (if truthy_opt pages then ["pages"] else [])
  /\ dict_get "dateFrom" body
     = (if truthy_str date_from then option_map JStr date_from else None)
  /\ dict_get "dateTo" body
     = (if truthy_str date_to then option_map JStr date_to else None)
  /\ dict_get "pages" body = (if truthy_opt pages then pages else None)
  /\ dict_get "terms" body = Some (JArr (map JStr terms))
  /\ dict_get "types" body = Some (JArr (map JStr types))
  /\ dict_get "source" body = Some (JStr source)
  /\ dict_get "wildcard" body = Some (JBool wildcard)
  /\ dict_get "regex" body = Some (JBool regex)
  /\ dict_get "operator" body = Some (JStr operator)
  /\ dict_get "page" body = Some (JNum page)
  /\ dict_get "pagesize" body = Some (JNum pagesize).
Proof.
  intros body. subst body. unfold search_request. cbn [payload].
  destruct date_from as [df|]; destruct date_to as [dt|]; destruct pages as [pg|];
    cbn [truthy_str truthy_opt get_default option_map];
    repeat match goal with
           | |- context [negb (?s =? "")%string] => destruct (negb (s =? "")%string)
           | |- context [truthy ?v] => destruct (truthy v)
           end;
    cbn; repeat split; reflexivity.
Qed.

(** X2.  A count request carries the six keys terms, types, source,
    wildcard, regex and operator, the two dates when they are non-empty
    strings, and never a page, a page size or a page count; it goes to the
    [/count] endpoint with the headers of the client and a timeout of 30. *)
Theorem count_request_has_no_paging (self : KeyscoreAPI) (terms types : list string)
    (source : string) (wildcard regex : bool) (operator : string)
    (date_from date_to : option string) :
  let req := count_request self terms types source wildcard regex operator
                           date_from date_to in
  dict_keys (payload req)
  = ["terms"; "types"; "source"; "wildcard"; "regex"; "operator"]
    ++ (if truthy_str date_from then ["dateFrom"] else [])
    ++ (if truthy_str date_to then ["dateTo"] else [])
  /\ dict_get "page" (payload req) = None
  /\ dict_get "pagesize" (payload req) = None
  /\ dict_get "pages" (payload req) = None
  /\ dict_get "dateFrom" (payload req)
     = (if truthy_str date_from then option_map JStr date_from else None)
  /\ dict_get "dateTo" (payload req)
     = (if truthy_str date_to then option_map JStr date_to else None)
  /\ url req = (base_url self ++ "/count")%string
  /\ headers req = api_headers self
  /\ timeout req = 30.
Proof.
  intros req. subst req. unfold count_request. cbn [payload url headers timeout].
  destruct date_from as [df|]; destruct date_to as [dt|];
    cbn [truthy_str get_default option_map];
    repeat match goal with
           | |- context [negb (?s =? "")%string] => destruct (negb (s =? "")%string)
           end;
    cbn; repeat split; reflexivity.
Qed.

Section FanOutRequests.

Variables requests_post requests_post' : Request -> HttpOutcome.
Variable self : KeyscoreAPI.
Variables terms types : list string.
Variable search_term : string.

Lemma query_source_ext (st : SearchState) (i : Z) (source : string) :
  requests_post (fan_out_request self terms types source)
  = requests_post' (fan_out_request self terms types source) ->
  query_source requests_post self terms types search_term st i source
  = query_source requests_post' self terms types search_term st i source.
Proof.
  intros H. unfold query_source, try_source.
  rewrite !fan_out_posts_request, H. reflexivity.
Qed.

Lemma search_loop_ext (l : list (Z * string)) (st : SearchState) :
  (forall p, In p l ->
             requests_post (fan_out_request self terms types (snd p))
             = requests_post' (fan_out_request self terms types (snd p))) ->
  search_loop requests_post self terms types search_term l st
  = search_loop requests_post' self terms types search_term l st.
Proof.
  revert st. induction l as [|[i x] l IH]; intros st H; [reflexivity|].
  unfold search_loop in *. cbn [fold_left fst snd].
  rewrite (query_source_ext st i x (H (i, x) (or_introl eq_refl))).
  apply IH. intros p Hp. apply H. now right.
Qed.

End FanOutRequests.

(** X3.  The multi-source search asks the service one kind of question
    only: for each source of the catalog, the request to [/search] with the
    given terms and types, no wildcard, no regex, operator OR, page 1, page
    size 10000 and no date range or page count.  Two services that answer
    these requests alike give the same returned dict and the same console
    output. *)
Theorem search_all_sources_posts_default_requests
    (requests_post requests_post' : Request -> HttpOutcome) (self : KeyscoreAPI)
    (terms types : list string) (search_term : string) :
  (forall source,
      In source (all_sources self) ->
      requests_post (fan_out_request self terms types source)
      = requests_post' (fan_out_request self terms types source)) ->
  search_all_sources requests_post self terms types search_term
  = search_all_sources requests_post' self terms types search_term.
Proof.
  intros H. unfold search_all_sources, search_all_sources_state.
  rewrite (search_loop_ext requests_post requests_post' self terms types search_term
                           (enumerate 1 (all_sources self)) (search_start self)).
  - reflexivity.
  - intros p Hp. apply H. exact (In_enumerate _ _ _ Hp).
Qed.

Lemma search_all_sources_posts_default_requests_witness :
  search_all_sources first_source_fails sample_api ["a@b.com"] ["email"] "a@b.com"
  = search_all_sources
      (fun req => match dict_get "wildcard" (payload req) with
                  | Some (JBool true) => Response 500 empty_dict
                  | _ => first_source_fails req
                  end)
      sample_api ["a@b.com"] ["email"] "a@b.com".
Proof.
  apply (search_all_sources_posts_default_requests
           first_source_fails
           (fun req => match dict_get "wildcard" (payload req) with
                       | Some (JBool true) => Response 500 empty_dict
                       | _ => first_source_fails req
                       end)
           sample_api ["a@b.com"] ["email"] "a@b.com").
  intros source _. reflexivity.
Defined.

(* ------------------------------------------------------------------ *)
(** ** The aggregate in closed form *)

Lemma map_snd_enumerate {A : Type} (l : list A) (start : Z) :
  map snd (enumerate start l) = l.
Proof.
  revert start. induction l as [|x l IH]; intros start; cbn; [reflexivity|].
  now rewrite IH.
Qed.

Lemma merge_buckets_no_raise (types : list string) (search_term source : string)
    (items acc : buckets) :
  types <> [] ->
  exists b, merge_buckets types search_term source items acc = (b, None).
Proof.
  intros Hty.
  destruct (merge_buckets types search_term source items acc) as [b [e|]] eqn:H.
  - exfalso. apply Hty. exact (merge_buckets_raise _ _ _ _ _ _ _ H).
  - now exists b.
Qed.

Lemma fix_records_repaired (types : list string) (search_term : string)
    (l : list record) :
  types <> [] ->
  fix_records types search_term l = Ok (map (repaired types search_term) l).
Proof.
  intros Hty. destruct types as [|t0 ts]; [contradiction|].
  induction l as [|r l IH]; cbn [fix_records map]; [reflexivity|].
  unfold repaired at 1.
  destruct (fix_record_total t0 ts search_term r) as [r' ->].
  rewrite IH. reflexivity.
Qed.

Lemma merge_buckets_exact (types : list string) (search_term source : string)
    (items : buckets) :
  types <> [] ->
  dict_wf items ->
  forall acc : buckets,
    (forall d, In d (dict_keys items) -> ~ In (bucket_key source d) (dict_keys acc)) ->
    merge_buckets types search_term source items acc
    = (acc ++ map (fun kv : string * list record =>
                     (bucket_key source (fst kv),
                      map (repaired types search_term) (snd kv)))
                  items,
       None).
Proof.
  intros Hty. unfold dict_wf.
  induction items as [|[db records] items IH]; cbn [merge_buckets dict_keys map fst snd];
    intros Hwf acc Hfresh.
  - now rewrite app_nil_r.
  - inversion Hwf as [|? ? Hdb Hrest]; subst.
    rewrite (fix_records_repaired types search_term records Hty).
    rewrite dict_set_fresh by (apply Hfresh; now left).
    rewrite IH; [now rewrite <- app_assoc|exact Hrest|].
    intros d Hd. unfold dict_keys. rewrite map_app. cbn. intros Hin.
    apply in_app_or in Hin. destruct Hin as [Hin|[Heq|[]]].
    + apply (Hfresh d); [now right|exact Hin].
    + apply bucket_key_inj in Heq. subst d. contradiction.
Qed.

Section ClosedForm.

Variable requests_post : Request -> HttpOutcome.
Variable self : KeyscoreAPI.
Variables terms types : list string.
Variable search_term : string.

Lemma query_source_counters (st : SearchState) (i : Z) (source : string) :
  types <> [] ->
  let st' := query_source requests_post self terms types search_term st i source in
  size (all_results st')
  = size (all_results st) + size_of requests_post self terms types source
  /\ successful_sources st'
     = successful_sources st + success_of requests_post self terms types source
  /\ took (all_results st')
     = took (all_results st) + took_of requests_post self terms types source.
Proof.
  intros Hty st'. subst st'.
  unfold query_source, try_source, size_of, success_of, took_of, merged_response.
  destruct (search requests_post self _ _ _ _ _ _ _ _ _ _ _) as [result|e];
    [|cbn; lia].
  destruct (truthy_results (d_results result)); cbn [andb]; [|cbn; lia].
  destruct (get_default (d_size result) 0 >? 0); [|cbn; lia].
  match goal with
  | |- context [merge_buckets ?a ?b ?c ?d ?e] =>
      destruct (merge_buckets_no_raise a b c d e Hty) as [b' ->]
  end.
  cbn. lia.
Qed.

Lemma search_loop_counters (l : list (Z * string)) (st : SearchState) :
  types <> [] ->
  let st' := search_loop requests_post self terms types search_term l st in
  size (all_results st')
  = size (all_results st)
    + sum (map (size_of requests_post self terms types) (map snd l))
  /\ successful_sources st'
     = successful_sources st
       + sum (map (success_of requests_post self terms types) (map snd l))
  /\ took (all_results st')
     = took (all_results st)
       + sum (map (took_of requests_post self terms types) (map snd l)).
Proof.
  intros Hty. revert st. induction l as [|[i x] l IH]; intros st.
  - unfold sum. cbn. lia.
  - unfold search_loop in *. cbn [fold_left fst snd map].
    destruct (IH (query_source requests_post self terms types search_term st i x))
      as [H1 [H2 H3]].
    destruct (query_source_counters st i x Hty) as [K1 [K2 K3]].
    cbn zeta in *. rewrite H1, H2, H3, K1, K2, K3.
    unfold sum. cbn [fold_right]. lia.
Qed.

(** One iteration either leaves [size] and the counter alone or adds at
    least one to [size] and exactly one to the counter. *)
Lemma query_source_step (st : SearchState) (i : Z) (source : string) :
  let st' := query_source requests_post self terms types search_term st i source in
  (size (all_results st') = size (all_results st)
   /\ successful_sources st' = successful_sources st)
  \/ (size (all_results st') >= size (all_results st) + 1
      /\ successful_sources st' = successful_sources st + 1).
Proof.
  cbn zeta. unfold query_source, try_source.
  destruct (search requests_post self _ _ _ _ _ _ _ _ _ _ _) as [result|e];
    [|left; cbn; auto].
  destruct (truthy_results (d_results result)); [|left; cbn; auto].
  destruct (Z.gtb_spec (get_default (d_size result) 0) 0); [|left; cbn; auto].
  destruct (merge_buckets _ _ _ _ _) as [b [e|]]; [left; cbn; auto|].
  right. cbn. lia.
Qed.

Lemma search_loop_bounds (l : list (Z * string)) (st : SearchState) :
  let st' := search_loop requests_post self terms types search_term l st in
  successful_sources st <= successful_sources st' <= successful_sources st + len l
  /\ successful_sources st' - successful_sources st
     <= size (all_results st') - size (all_results st)
  /\ (successful_sources st' = successful_sources st ->
      size (all_results st') = size (all_results st)).
Proof.
  revert st. induction l as [|[i x] l IH]; intros st.
  - unfold len. cbn. lia.
  - unfold search_loop in *. cbn [fold_left fst snd].
    specialize (IH (query_source requests_post self terms types search_term st i x)).
    pose proof (query_source_step st i x) as Hstep.
    cbn zeta in *. unfold len in *. cbn [length].
    rewrite Nat2Z.inj_succ. lia.
Qed.

Lemma query_source_results (S : list string) (st : SearchState) (i : Z)
    (source : string) :
  types <> [] ->
  (forall result,
      merged_response requests_post self terms types source = Some result ->
      dict_wf (get_default (d_results result) [])) ->
  (forall s, In s S -> prefix s source = false /\ prefix source s = false) ->
  (forall key, In key (dict_keys (results (all_results st))) ->
               exists s d, In s S /\ key = bucket_key s d) ->
  let st' := query_source requests_post self terms types search_term st i source in
  results (all_results st')
  = results (all_results st)
    ++ buckets_of requests_post self terms types search_term source
  /\ (forall key, In key (dict_keys (results (all_results st'))) ->
                  exists s d, In s (S ++ [source]) /\ key = bucket_key s d).
Proof.
  intros Hty Hwf Hdisj Hkeys. cbn zeta.
  assert (Hweak : forall key, In key (dict_keys (results (all_results st))) ->
                    exists s d, In s (S ++ [source]) /\ key = bucket_key s d).
  { intros key Hk. destruct (Hkeys key Hk) as [s [d [Hs ->]]].
    exists s, d. split; [apply in_or_app; now left|reflexivity]. }
  unfold query_source, try_source, buckets_of.
  unfold merged_response in *.
  destruct (search requests_post self _ _ _ _ _ _ _ _ _ _ _) as [result|e];
    [|cbn; rewrite app_nil_r; auto].
  destruct (truthy_results (d_results result)); cbn [andb];
    [|cbn; rewrite app_nil_r; auto].
  destruct (get_default (d_size result) 0 >? 0);
    [|cbn; rewrite app_nil_r; auto].
  cbn [say say_end_space all_results results].
  rewrite (merge_buckets_exact types search_term source _ Hty (Hwf result eq_refl)).
  - cbn. split; [reflexivity|].
    intros key Hin. unfold dict_keys in Hin. rewrite map_app in Hin.
    apply in_app_or in Hin. destruct Hin as [Hin|Hin]; [auto|].
    rewrite map_map in Hin. cbn [fst] in Hin. apply in_map_iff in Hin.
    destruct Hin as [[d recs] [<- _]].
    exists source, d. split; [apply in_or_app; right; now left|reflexivity].
  - intros d Hd Hin. destruct (Hkeys _ Hin) as [s [d' [Hs Heq]]].
    destruct (Hdisj s Hs) as [H1 H2].
    exact (bucket_key_disjoint _ _ _ _ H2 H1 Heq).
Qed.

Lemma search_loop_results (l : list string) :
  types <> [] ->
  forall (S : list string) (start : Z) (st : SearchState),
    (forall source result,
        In source l ->
        merged_response requests_post self terms types source = Some result ->
        dict_wf (get_default (d_results result) [])) ->
    prefix_free (S ++ l) = true ->
    (forall key, In key (dict_keys (results (all_results st))) ->
                 exists s d, In s S /\ key = bucket_key s d) ->
    results (all_results (search_loop requests_post self terms types search_term
                                      (enumerate start l) st))
    = results (all_results st)
      ++ flat_map (buckets_of requests_post self terms types search_term) l.
Proof.
  intros Hty. induction l as [|x l IH]; intros S start st Hwf Hfree Hkeys.
  - cbn. now rewrite app_nil_r.
  - cbn [enumerate flat_map]. unfold search_loop in *. cbn [fold_left fst snd].
    destruct (query_source_results S st start x Hty
                (fun result => Hwf x result (or_introl eq_refl))
                (prefix_free_app_cons S x l Hfree) Hkeys) as [Hres Hkeys'].
    cbn zeta in Hres, Hkeys'.
    rewrite (IH (S ++ [x]) (start + 1)).
    + rewrite Hres. now rewrite <- app_assoc.
    + intros source result Hs. apply Hwf. now right.
    + now rewrite <- app_assoc.
    + exact Hkeys'.
Qed.

End ClosedForm.

(** X4.  With a non-empty list of types, the totals of the multi-source
    search are sums over the catalog: [size] is the sum of the sizes
    reported by the merged responses (successful calls with non-empty
    results and a positive size), the count of successful sources is the
    number of these responses, and [took] is the sum of [took] over all
    successful calls, merged or not. *)
Theorem search_all_sources_totals (requests_post : Request -> HttpOutcome)
    (self : KeyscoreAPI) (terms types : list string) (search_term : string) :
  types <> [] ->
  let st := search_all_sources_state requests_post self terms types search_term in
  let returned := fst (search_all_sources requests_post self terms types search_term) in
  size returned
  = sum (map (size_of requests_post self terms types) (all_sources self))
  /\ took returned
     = sum (map (took_of requests_post self terms types) (all_sources self))
  /\ successful_sources st
     = sum (map (success_of requests_post self terms types) (all_sources self)).
Proof.
  intros Hty st returned. subst st returned.
  unfold search_all_sources. cbn [fst say all_results].
  unfold search_all_sources_state.
  destruct (search_loop_counters requests_post self terms types search_term
              (enumerate 1 (all_sources self)) (search_start self) Hty)
    as [H1 [H2 H3]].
  cbn zeta in *. rewrite map_snd_enumerate in *.
  cbn [search_start say all_results successful_sources size took] in *. lia.
Qed.

Lemma search_all_sources_totals_witness :
  let st := search_all_sources_state first_source_fails sample_api ["a@b.com"] ["email"]
                                     "a@b.com" in
  let returned := fst (search_all_sources first_source_fails sample_api ["a@b.com"]
                                          ["email"] "a@b.com") in
  size returned
  = sum (map (size_of first_source_fails sample_api ["a@b.com"] ["email"])
             (all_sources sample_api))
  /\ took returned
     = sum (map (took_of first_source_fails sample_api ["a@b.com"] ["email"])
                (all_sources sample_api))
  /\ successful_sources st
     = sum (map (success_of first_source_fails sample_api ["a@b.com"] ["email"])
                (all_sources sample_api)).
Proof.
  apply (search_all_sources_totals first_source_fails sample_api ["a@b.com"] ["email"]
                                   "a@b.com").
  discriminate.
Defined.

(** X5.  With a non-empty list of types, a catalog in which no source
    identifier is a prefix of another, and responses whose results are
    dicts, the buckets of the returned dict are the buckets of the merged
    responses, source after source in catalog order and, within a source,
    in the order of its response, each under the key made of the source and
    the database name and with its records normalized; no bucket replaces
    another. *)
Theorem search_all_sources_buckets (requests_post : Request -> HttpOutcome)
    (self : KeyscoreAPI) (terms types : list string) (search_term : string) :
  types <> [] ->
  prefix_free (all_sources self) = true ->
  (forall source result,
      In source (all_sources self) ->
      merged_response requests_post self terms types source = Some result ->
      dict_wf (get_default (d_results result) [])) ->
  results (fst (search_all_sources requests_post self terms types search_term))
  = flat_map (buckets_of requests_post self terms types search_term) (all_sources self).
Proof.
  intros Hty Hfree Hwf.
  unfold search_all_sources. cbn [fst say all_results].
  unfold search_all_sources_state.
  rewrite (search_loop_results requests_post self terms types search_term
             (all_sources self) Hty [] 1 (search_start self) Hwf Hfree).
  - reflexivity.
  - intros key [].
Qed.

Lemma search_all_sources_buckets_witness :
  results (fst (search_all_sources two_records_each sample_api ["a@b.com"] ["email"]
                                   "a@b.com"))
  = flat_map (buckets_of two_records_each sample_api ["a@b.com"] ["email"] "a@b.com")
             (all_sources sample_api).
Proof.
  apply (search_all_sources_buckets two_records_each sample_api ["a@b.com"] ["email"]
                                    "a@b.com").
  - discriminate.
  - reflexivity.
  - intros source result _ H. cbv in H. inversion H.
    constructor; [intros []|constructor].
Defined.

(** X6.  Whatever the catalog, the types and the answers, the count of
    successful sources lies between 0 and the length of the catalog and
    never exceeds the returned [size]; and the returned [size] is 0 exactly
    when no source was counted as successful. *)
Theorem successful_sources_bounds (requests_post : Request -> HttpOutcome)
    (self : KeyscoreAPI) (terms types : list string) (search_term : string) :
  let st := search_all_sources_state requests_post self terms types search_term in
  let returned := fst (search_all_sources requests_post self terms types search_term) in
  0 <= successful_sources st <= len (all_sources self)
  /\ successful_sources st <= size returned
  /\ (size returned = 0 <-> successful_sources st = 0).
Proof.
  intros st returned. subst st returned.
  unfold search_all_sources. cbn [fst say all_results].
  unfold search_all_sources_state.
  pose proof (search_loop_bounds requests_post self terms types search_term
                (enumerate 1 (all_sources self)) (search_start self)) as H.
  cbn zeta in H.
  assert (Hlen : len (enumerate 1 (all_sources self)) = len (all_sources self)).
  { unfold len. rewrite <- (map_snd_enumerate (all_sources self) 1) at 2.
    now rewrite length_map. }
  rewrite Hlen in H.
  cbn [search_start say all_results successful_sources size] in H. lia.
Qed.

(* ------------------------------------------------------------------ *)
(** ** Bucket keys of the catalog *)

(** X7.  For the catalog of the client the bucket key determines the source
    and the database name: two different (source, database) pairs never
    share a key, so no source can overwrite the bucket of another.  This
    rests on the catalog, not on the key format: in general two different
    pairs can give the same key. *)
Theorem bucket_key_injective_on_catalog (key : string) (s s' d d' : string) :
  In s (all_sources (KeyscoreAPI_init key)) ->
  In s' (all_sources (KeyscoreAPI_init key)) ->
  bucket_key s d = bucket_key s' d' ->
  (s = s' /\ d = d')
  /\ bucket_key "a" "b➤c" = bucket_key "a➤b" "c".
Proof.
  intros Hs Hs' Heq. split; [|reflexivity].
  assert (Hss : s = s').
  { destruct (string_dec s s') as [E|N]; [exact E|exfalso].
    pose proof (catalog_prefix_free key) as Hfree.
    apply in_split in Hs. destruct Hs as [l1 [l2 Hl]].
    rewrite Hl in Hs', Hfree.
    apply in_app_or in Hs'. destruct Hs' as [Hin|[Hin|Hin]].
    - destruct (prefix_free_app_cons l1 s l2 Hfree s' Hin) as [H1 H2].
      exact (bucket_key_disjoint _ _ _ _ H2 H1 Heq).
    - congruence.
    - assert (Hfree2 : prefix_free (s :: l2) = true).
      { clear -Hfree. induction l1 as [|x l1 IH]; [exact Hfree|].
        cbn [app] in Hfree. apply IH. exact (proj1 (prefix_free_head _ _ Hfree)). }
      destruct (proj2 (prefix_free_head _ _ Hfree2) s' Hin) as [H1 H2].
      exact (bucket_key_disjoint _ _ _ _ H1 H2 Heq). }
  subst s'. split; [reflexivity|]. exact (bucket_key_inj _ _ _ Heq).
Qed.

Lemma bucket_key_injective_on_catalog_witness :
  ("snusbase" = "snusbase" /\ "db" = "db")
  /\ bucket_key "a" "b➤c" = bucket_key "a➤b" "c".
Proof.
  apply (bucket_key_injective_on_catalog "k" "snusbase" "snusbase" "db" "db").
  - cbn; tauto.
  - cbn; tauto.
  - reflexivity.
Defined.

(* ------------------------------------------------------------------ *)
(** ** Normalization, again *)

Lemma dict_set_idem {V : Type} (k : string) (v : V) (d : dict V) :
  dict_set k v (dict_set k v d) = dict_set k v d.
Proof.
  induction d as [|[k' v'] d IH]; cbn.
  - now rewrite String.eqb_refl.
  - destruct (String.eqb_spec k k') as [->|Hne]; cbn.
    + now rewrite String.eqb_refl.
    + destruct (String.eqb_spec k k'); [contradiction|]. now rewrite IH.
Qed.

Lemma dict_keys_set {V : Type} (k : string) (v : V) (d : dict V) :
  dict_keys (dict_set k v d)
  = if dict_mem k d then dict_keys d else dict_keys d ++ [k].
Proof.
  unfold dict_mem, dict_keys in *. induction d as [|[k' v'] d IH]; cbn; [reflexivity|].
  destruct (String.eqb_spec k k') as [->|Hne]; cbn; [reflexivity|].
  rewrite IH. destruct (dict_get k d); reflexivity.
Qed.

Lemma fix_record_idem (types : list string) (search_term : string) (r r' : record) :
  fix_record types search_term r = Ok r' ->
  fix_record types search_term r' = Ok r'.
Proof.
  destruct types as [|t0 ts]; [discriminate|]. unfold fix_record.
  destruct (String.eqb_spec t0 "email") as [->|He]; cbn [andb].
  - destruct (in_NA_None_empty (dict_get "email" r)) eqn:Hb; intros H; inversion H; subst.
    + rewrite dict_get_set_same.
      destruct (in_NA_None_empty (Some (JStr search_term))); [|reflexivity].
      now rewrite dict_set_idem.
    + rewrite Hb. reflexivity.
  - destruct (String.eqb_spec t0 "url") as [->|Hu]; cbn [andb].
    + destruct (in_NA_None_empty (dict_get "url" r)) eqn:Hb; intros H; inversion H; subst.
      * rewrite dict_get_set_same.
        destruct (in_NA_None_empty (Some (JStr search_term))); [|reflexivity].
        now rewrite dict_set_idem.
      * rewrite Hb. reflexivity.
    + destruct (String.eqb_spec t0 "username") as [->|Hn]; cbn [andb].
      * destruct (in_NA_None_empty (dict_get "username" r)) eqn:Hb;
          intros H; inversion H; subst.
        -- rewrite dict_get_set_same.
           destruct (in_NA_None_empty (Some (JStr search_term))); [|reflexivity].
           now rewrite dict_set_idem.
        -- rewrite Hb. reflexivity.
      * intros H. inversion H. reflexivity.
Qed.

Lemma fix_record_keys (t0 : string) (ts : list string) (search_term : string)
    (r r' : record) :
  fix_record (t0 :: ts) search_term r = Ok r' ->
  dict_keys r'
  = if repairable t0 && negb (dict_mem t0 r) then dict_keys r ++ [t0] else dict_keys r.
Proof.
  assert (Hblank : forall k, dict_mem k r = false -> in_NA_None_empty (dict_get k r) = true).
  { intros k. unfold dict_mem. destruct (dict_get k r); [discriminate|reflexivity]. }
  unfold fix_record, repairable.
  destruct (String.eqb_spec t0 "email") as [->|He]; cbn [andb orb].
  - destruct (in_NA_None_empty (dict_get "email" r)) eqn:Hb; intros H; injection H as <-.
    + rewrite dict_keys_set. destruct (dict_mem "email" r); reflexivity.
    + destruct (dict_mem "email" r) eqn:Hm; [reflexivity|].
      rewrite (Hblank _ Hm) in Hb. discriminate.
  - destruct (String.eqb_spec t0 "url") as [->|Hu]; cbn [andb orb].
    + destruct (in_NA_None_empty (dict_get "url" r)) eqn:Hb; intros H; injection H as <-.
      * rewrite dict_keys_set. destruct (dict_mem "url" r); reflexivity.
      * destruct (dict_mem "url" r) eqn:Hm; [reflexivity|].
        rewrite (Hblank _ Hm) in Hb. discriminate.
    + destruct (String.eqb_spec t0 "username") as [->|Hn]; cbn [andb orb].
      * destruct (in_NA_None_empty (dict_get "username" r)) eqn:Hb;
          intros H; injection H as <-.
        -- rewrite dict_keys_set. destruct (dict_mem "username" r); reflexivity.
        -- destruct (dict_mem "username" r) eqn:Hm; [reflexivity|].
           rewrite (Hblank _ Hm) in Hb. discriminate.
      * intros H. injection H as <-. reflexivity.
Qed.

(** X8.  Normalizing the records of a bucket keeps their number and their
    order, keeps the fields of each record in their order and adds at most
    one field, at the end, exactly when the type is "email", "url" or
    "username" and the record has no field of that name; and normalizing
    the result once more changes nothing. *)
Theorem normalization_is_stable (types : list string) (search_term : string)
    (l l' : list record) :
  fix_records types search_term l = Ok l' ->
  fix_records types search_term l' = Ok l'
  /\ len l' = len l
  /\ Forall2 (fun r r' =>
                exists t0, hd_error types = Some t0
                  /\ dict_keys r'
                     = if repairable t0 && negb (dict_mem t0 r)
                       then dict_keys r ++ [t0] else dict_keys r)
             l l'.
Proof.
  revert l'. induction l as [|r l IH]; cbn [fix_records]; intros l' H.
  - inversion H. repeat split. constructor.
  - destruct (fix_record types search_term r) as [r'|] eqn:Hr; [|discriminate].
    destruct (fix_records types search_term l) as [rest|] eqn:Hl; [|discriminate].
    inversion H; subst l'. destruct (IH rest eq_refl) as [Hi [Hn Hk]].
    cbn [fix_records]. rewrite (fix_record_idem _ _ _ _ Hr), Hi.
    split; [reflexivity|]. split.
    + unfold len in *. cbn [length]. lia.
    + constructor; [|exact Hk].
      destruct types as [|t0 ts]; [discriminate|].
      exists t0. split; [reflexivity|]. exact (fix_record_keys _ _ _ _ _ Hr).
Qed.

Lemma normalization_is_stable_witness :
  fix_records ["email"] "a@b.com"
              [[("email", JStr "a@b.com"); ("password", JStr "x")];
               [("password", JStr "y"); ("email", JStr "a@b.com")]]
  = Ok [[("email", JStr "a@b.com"); ("password", JStr "x")];
        [("password", JStr "y"); ("email", JStr "a@b.com")]]
  /\ len [[("email", JStr "a@b.com"); ("password", JStr "x")];
          [("password", JStr "y"); ("email", JStr "a@b.com")]]
     = len [[("email", JStr "N/A"); ("password", JStr "x")]; [("password", JStr "y")]]
  /\ Forall2 (fun r r' =>
                exists t0, hd_error ["email"] = Some t0
                  /\ dict_keys r'
                     = if repairable t0 && negb (dict_mem t0 r)
                       then dict_keys r ++ [t0] else dict_keys r)
             [[("email", JStr "N/A"); ("password", JStr "x")]; [("password", JStr "y")]]
             [[("email", JStr "a@b.com"); ("password", JStr "x")];
              [("password", JStr "y"); ("email", JStr "a@b.com")]].
Proof.
  apply (normalization_is_stable ["email"] "a@b.com"
           [[("email", JStr "N/A"); ("password", JStr "x")]; [("password", JStr "y")]]).
  reflexivity.
Defined.

Lemma Forall2_In_r {A B : Type} (R : A -> B -> Prop) (l : list A) (l' : list B) (y : B) :
  Forall2 R l l' -> In y l' -> exists x, In x l /\ R x y.
Proof.
  induction 1 as [|x y' l l' HR _ IH]; intros Hin; [contradiction|].
  destruct Hin as [<-|Hin].
  - exists x. split; [now left|exact HR].
  - destruct (IH Hin) as [x' [Hx HR']]. exists x'. split; [now right|exact HR'].
Qed.

Lemma normalized_not_blank (t0 search_term : string) (r r' : record) :
  repairable t0 = true ->
  search_term <> "" -> search_term <> "N/A" ->
  normalized t0 search_term r r' ->
  in_NA_None_empty (dict_get t0 r') = false.
Proof.
  intros Hrep Hne Hna. unfold normalized. rewrite Hrep. cbn [andb].
  destruct (in_NA_None_empty (dict_get t0 r)) eqn:Hb.
  - intros [-> _]. cbn.
    destruct (String.eqb_spec search_term "N/A"); [contradiction|].
    destruct (String.eqb_spec search_term ""); [contradiction|]. reflexivity.
  - intros ->. exact Hb.
Qed.

Lemma returned_record_not_blank (requests_post : Request -> HttpOutcome)
    (self : KeyscoreAPI) (t0 x : string) (key : string) (recs : list record)
    (r' : record) :
  repairable t0 = true ->
  x <> "" -> x <> "N/A" ->
  In (key, recs) (results (fst (search_all_sources requests_post self [x] [t0] x))) ->
  In r' recs ->
  in_NA_None_empty (dict_get t0 r') = false.
Proof.
  intros Hrep Hne Hna Hin Hr.
  assert (Hprov : from_response requests_post self [x] [t0] x key recs).
  { apply (search_loop_provenance requests_post self [x] [t0] x
             (enumerate 1 (all_sources self)) (search_start self)).
    - intros p Hp. exact (In_enumerate _ _ _ Hp).
    - intros k r [].
    - exact Hin. }
  destruct Hprov as [source [db [result [items [orig [_ [_ [_ [_ [_ Hall]]]]]]]]]].
  destruct (Forall2_In_r _ _ _ _ Hall Hr) as [r [_ [t [Ht Hn]]]].
  cbn in Ht. inversion Ht; subst t.
  exact (normalized_not_blank _ _ _ _ Hrep Hne Hna Hn).
Qed.

(** X9.  When the searched e-mail address, domain or user name is neither
    empty nor "N/A", every record returned by [search_email_all_sources]
    has an [email] field, every record returned by
    [search_domain_all_sources] a [url] field and every record returned by
    [search_username_all_sources] a [username] field that is present and
    is not null, empty or "N/A". *)
Theorem identity_field_never_blank (requests_post : Request -> HttpOutcome)
    (self : KeyscoreAPI) (x : string) :
  x <> "" -> x <> "N/A" ->
  (forall key recs r',
      In (key, recs) (results (fst (search_email_all_sources requests_post self x))) ->
      In r' recs -> in_NA_None_empty (dict_get "email" r') = false)
  /\ (forall key recs r',
         In (key, recs) (results (fst (search_domain_all_sources requests_post self x))) ->
         In r' recs -> in_NA_None_empty (dict_get "url" r') = false)
  /\ (forall key recs r',
         In (key, recs)
            (results (fst (search_username_all_sources requests_post self x))) ->
         In r' recs -> in_NA_None_empty (dict_get "username" r') = false).
Proof.
  intros Hne Hna. repeat split; intros key recs r' Hin Hr.
  - exact (returned_record_not_blank requests_post self "email" x key recs r'
                                     eq_refl Hne Hna Hin Hr).
  - exact (returned_record_not_blank requests_post self "url" x key recs r'
                                     eq_refl Hne Hna Hin Hr).
  - exact (returned_record_not_blank requests_post self "username" x key recs r'
                                     eq_refl Hne Hna Hin Hr).
Qed.

Lemma identity_field_never_blank_witness :
  (forall key recs r',
      In (key, recs)
         (results (fst (search_email_all_sources two_records_each sample_api "a@b.com"))) ->
      In r' recs -> in_NA_None_empty (dict_get "email" r') = false)
  /\ (forall key recs r',
         In (key, recs)
            (results (fst (search_domain_all_sources two_records_each sample_api
                                                     "a@b.com"))) ->
         In r' recs -> in_NA_None_empty (dict_get "url" r') = false)
  /\ (forall key recs r',
         In (key, recs)
            (results (fst (search_username_all_sources two_records_each sample_api
                                                       "a@b.com"))) ->
         In r' recs -> in_NA_None_empty (dict_get "username" r') = false).
Proof.
  apply (identity_field_never_blank two_records_each sample_api "a@b.com");
    discriminate.
Defined.

(* ------------------------------------------------------------------ *)
(** ** One line per group *)

Lemma str_in_In (x : string) (l : list string) : str_in x l = true <-> In x l.
Proof.
  unfold str_in. rewrite existsb_exists. split.
  - intros [y [Hy He]]. apply String.eqb_eq in He. now subst y.
  - intros H. exists x. split; [exact H|apply String.eqb_refl].
Qed.

Lemma selected_print_first (fields : list string) (r : record) :
  selected (print_first fields r)
  = match find (renderable r) fields with
    | Some f => match dict_get f r with Some v => [(true, f, v)] | None => [] end
    | None => []
    end.
Proof.
  induction fields as [|field fields IH]; cbn [print_first find]; [reflexivity|].
  unfold renderable at 1.
  destruct (dict_get field r) as [v|] eqn:Hget; [|exact IH].
  destruct (truthy v && negb (is_NA v)); [|exact IH].
  rewrite Hget. reflexivity.
Qed.

Lemma In_selected_print_first (fields : list string) (r : record)
    (g : bool) (f : string) (v : json) :
  In (g, f, v) (selected (print_first fields r))
  <-> g = true /\ find (renderable r) fields = Some f /\ dict_get f r = Some v.
Proof.
  rewrite selected_print_first.
  destruct (find (renderable r) fields) as [f'|] eqn:Hfind.
  - destruct (dict_get f' r) as [v'|] eqn:Hget.
    + cbn. split.
      * intros [H|[]]. inversion H; subst. auto.
      * intros [-> [H1 H2]]. inversion H1; subst. rewrite Hget in H2.
        inversion H2. now left.
    + cbn. split; [tauto|]. intros [_ [H1 H2]]. inversion H1; subst. congruence.
  - cbn. split; [tauto|]. intros [_ [H _]]. discriminate.
Qed.

Lemma length_selected_print_first (fields : list string) (r : record) :
  (length (selected (print_first fields r)) <= 1)%nat.
Proof.
  rewrite selected_print_first.
  destruct (find (renderable r) fields) as [f|]; [|cbn; lia].
  destruct (dict_get f r); cbn; lia.
Qed.

Lemma group_members_shown (group : list string) (f : string) :
  In group [priority_fields; password_fields; url_fields] ->
  In f group -> str_in f shown_fields = true.
Proof.
  intros Hg Hf. apply group_names_shown.
  destruct Hg as [<-|[<-|[<-|[]]]]; auto.
Qed.

Lemma groups_disjoint (group group' : list string) (f : string) :
  In group [priority_fields; password_fields; url_fields] ->
  In group' [priority_fields; password_fields; url_fields] ->
  In f group -> In f group' -> group = group'.
Proof.
  intros Hg Hg' Hf Hf'.
  apply str_in_In in Hf'.
  destruct Hg as [<-|[<-|[<-|[]]]];
    destruct Hg' as [<-|[<-|[<-|[]]]]; try reflexivity;
    cbn in Hf;
    repeat match type of Hf with
           | _ \/ _ => destruct Hf as [Hf|Hf]
           end; try contradiction; subst f; discriminate Hf'.
Qed.

Section GroupLines.

Variable lower : string -> string.

Lemma In_selected_print_record (n i : Z) (r : record) (x : bool * string * json) :
  In x (selected (print_record lower n i r))
  <-> In x (selected (print_first priority_fields r))
      \/ In x (selected (print_first password_fields r))
      \/ In x (selected (print_first url_fields r))
      \/ In x (selected (print_others lower r)).
Proof.
  unfold print_record. rewrite !selected_app, !in_app_iff.
  change (selected [line [Lit "  ["; Int n; Lit "] Record "; Int i; Lit ":"]])
    with (@nil (bool * string * json)).
  change (selected [line [Rep "-" 30]]) with (@nil (bool * string * json)).
  cbn [In]. tauto.
Qed.

Lemma others_are_not_group_lines (r : record) :
  filter (fun x : bool * string * json => fst (fst x)) (selected (print_others lower r))
  = [].
Proof.
  induction r as [|[field value] r IH]; cbn [print_others]; [reflexivity|].
  rewrite selected_app, filter_app, IH, app_nil_r.
  destruct (negb (str_in (lower field) shown_fields) && truthy value
            && negb (is_NA value)); reflexivity.
Qed.

Lemma group_lines_of_first (fields : list string) (r : record) :
  filter (fun x : bool * string * json => fst (fst x)) (selected (print_first fields r))
  = selected (print_first fields r).
Proof.
  rewrite selected_print_first.
  destruct (find (renderable r) fields) as [f|]; [|reflexivity].
  destruct (dict_get f r); reflexivity.
Qed.

End GroupLines.

Lemma filter_and_nil {A : Type} (p q : A -> bool) (l : list A) :
  filter p l = [] -> filter (fun x => p x && q x) l = [].
Proof.
  induction l as [|x l IH]; cbn; [reflexivity|].
  destruct (p x); [discriminate|]. cbn. exact IH.
Qed.

(** The lines a group scan prints for another group name no field of the
    given group. *)
Lemma other_group_lines (group group' : list string) (r : record) :
  In group [priority_fields; password_fields; url_fields] ->
  In group' [priority_fields; password_fields; url_fields] ->
  group <> group' ->
  filter (fun x : bool * string * json => fst (fst x) && str_in (snd (fst x)) group)
         (selected (print_first group' r)) = [].
Proof.
  intros Hg Hg' Hne. rewrite selected_print_first.
  destruct (find (renderable r) group') as [f|] eqn:Hfind; [|reflexivity].
  destruct (dict_get f r) as [v|]; [|reflexivity].
  cbn [filter fst snd andb].
  destruct (str_in f group) eqn:Hin; [|reflexivity].
  exfalso. apply Hne. apply str_in_In in Hin.
  exact (groups_disjoint group group' f Hg Hg' Hin (proj1 (find_some _ _ Hfind))).
Qed.

Lemma own_group_lines (group group' : list string) (r : record) :
  (length (filter (fun x : bool * string * json =>
                     fst (fst x) && str_in (snd (fst x)) group)
                  (selected (print_first group' r))) <= 1)%nat.
Proof.
  pose proof (filter_length_le
                (fun x : bool * string * json => fst (fst x) && str_in (snd (fst x)) group)
                (selected (print_first group' r))) as H.
  pose proof (length_selected_print_first group' r). lia.
Qed.

(** The lines of a record that stand for a field of the given group. *)
Lemma group_lines_at_most_one (lower : string -> string) (n i : Z) (r : record)
    (group : list string) :
  In group [priority_fields; password_fields; url_fields] ->
  (length (filter (fun x : bool * string * json =>
                     fst (fst x) && str_in (snd (fst x)) group)
                  (selected (print_record lower n i r))) <= 1)%nat.
Proof.
  intros Hgroup. unfold print_record.
  rewrite !selected_app, !filter_app, !length_app.
  rewrite (filter_and_nil _ _ _ (others_are_not_group_lines lower r)).
  change (selected [line [Lit "  ["; Int n; Lit "] Record "; Int i; Lit ":"]])
    with (@nil (bool * string * json)).
  change (selected [line [Rep "-" 30]]) with (@nil (bool * string * json)).
  cbn [filter length Nat.add].
  assert (H1 : In priority_fields [priority_fields; password_fields; url_fields])
    by (cbn; auto).
  assert (H2 : In password_fields [priority_fields; password_fields; url_fields])
    by (cbn; auto).
  assert (H3 : In url_fields [priority_fields; password_fields; url_fields])
    by (cbn; auto).
  destruct Hgroup as [<-|[<-|[<-|[]]]].
  - rewrite (other_group_lines priority_fields password_fields r H1 H2)
      by discriminate.
    rewrite (other_group_lines priority_fields url_fields r H1 H3) by discriminate.
    pose proof (own_group_lines priority_fields priority_fields r). cbn [length]. lia.
  - rewrite (other_group_lines password_fields priority_fields r H2 H1)
      by discriminate.
    rewrite (other_group_lines password_fields url_fields r H2 H3) by discriminate.
    pose proof (own_group_lines password_fields password_fields r). cbn [length]. lia.
  - rewrite (other_group_lines url_fields priority_fields r H3 H1) by discriminate.
    rewrite (other_group_lines url_fields password_fields r H3 H2) by discriminate.
    pose proof (own_group_lines url_fields url_fields r). cbn [length]. lia.
Qed.

(** X10.  In a rendered record each of the three groups has at most one
    line: at most one rendered group line names a field of the group, on
    the console and in the file.  A field whose name is a group name is
    rendered exactly when it is the first field of its group, in the order
    of the group, that is present, non-empty and not "N/A": a later field
    of the same group is shown nowhere in the record, not even among the
    remaining fields.  The file report renders the record in the same way.
    ([str.lower] leaves the group names, which are lower-case, unchanged.) *)
Theorem group_field_rendered_iff_first (lower : string -> string) (n total i : Z)
    (r : record) (group : list string) (f : string) :
  (forall g, In g shown_fields -> lower g = g) ->
  In group [priority_fields; password_fields; url_fields] ->
  In f group ->
  ((exists g v, In (g, f, v) (selected (print_record lower n i r)))
   <-> find (renderable r) group = Some f)
  /\ ((exists g v, In (g, f, v) (selected (snd (write_record lower n total i r))))
      <-> find (renderable r) group = Some f)
  /\ (length (filter (fun x : bool * string * json =>
                        fst (fst x) && str_in (snd (fst x)) group)
                     (selected (print_record lower n i r))) <= 1)%nat
  /\ (length (filter (fun x : bool * string * json =>
                        fst (fst x) && str_in (snd (fst x)) group)
                     (selected (snd (write_record lower n total i r)))) <= 1)%nat
  /\ (length (filter (fun x : bool * string * json => fst (fst x))
                     (selected (print_record lower n i r))) <= 3)%nat.
Proof.
  intros Hlow Hgroup Hf.
  assert (Hshown : str_in f shown_fields = true)
    by exact (group_members_shown group f Hgroup Hf).
  assert (Hiff : (exists g v, In (g, f, v) (selected (print_record lower n i r)))
                 <-> find (renderable r) group = Some f).
  { split.
    - intros [g [v Hin]]. apply In_selected_print_record in Hin.
      assert (Hcase : forall group',
                 In group' [priority_fields; password_fields; url_fields] ->
                 In (g, f, v) (selected (print_first group' r)) ->
                 find (renderable r) group = Some f).
      { intros group' Hg' H. apply In_selected_print_first in H.
        destruct H as [_ [Hfind _]].
        assert (Hin' : In f group') by exact (proj1 (find_some _ _ Hfind)).
        now rewrite (groups_disjoint group group' f Hgroup Hg' Hf Hin'). }
      destruct Hin as [H|[H|[H|H]]].
      + apply (Hcase priority_fields); [cbn; auto|exact H].
      + apply (Hcase password_fields); [cbn; auto|exact H].
      + apply (Hcase url_fields); [cbn; auto|exact H].
      + exfalso. pose proof (print_others_obeys lower r) as Hob.
        rewrite Forall_forall in Hob. destruct (Hob _ H) as [Hg _].
        cbn [fst snd] in Hg.
        apply str_in_In in Hshown. rewrite (Hlow f Hshown) in Hg.
        apply str_in_In in Hshown.
        destruct g; [|congruence].
        pose proof (others_are_not_group_lines lower r) as Hno.
        assert (Hf' : In (true, f, v)
                         (filter (fun x : bool * string * json => fst (fst x))
                                 (selected (print_others lower r)))).
        { apply filter_In. split; [exact H|reflexivity]. }
        rewrite Hno in Hf'. contradiction.
    - intros Hfind.
      destruct (find_some _ _ Hfind) as [_ Hrend].
      unfold renderable in Hrend.
      destruct (dict_get f r) as [v|] eqn:Hget; [|discriminate].
      exists true, v. apply In_selected_print_record.
      assert (Hin : In (true, f, v) (selected (print_first group r))).
      { apply In_selected_print_first. auto. }
      destruct Hgroup as [<-|[<-|[<-|[]]]]; auto. }
  split; [exact Hiff|]. split; [|split; [|split]].
  - rewrite <- (print_record_write_record lower n total i r). exact Hiff.
  - exact (group_lines_at_most_one lower n i r group Hgroup).
  - rewrite <- (print_record_write_record lower n total i r).
    exact (group_lines_at_most_one lower n i r group Hgroup).
  - unfold print_record. rewrite !selected_app, !filter_app, !length_app.
    rewrite others_are_not_group_lines, !group_lines_of_first.
    pose proof (length_selected_print_first priority_fields r).
    pose proof (length_selected_print_first password_fields r).
    pose proof (length_selected_print_first url_fields r).
    cbn [selected flat_map selected_field line app filter length]. lia.
Qed.

Lemma group_field_rendered_iff_first_witness :
  ((exists g v, In (g, "login", v)
                   (selected (print_record ascii_lower 1 1 two_names_record)))
   <-> find (renderable two_names_record) priority_fields = Some "login")
  /\ ((exists g v, In (g, "login", v)
                      (selected (snd (write_record ascii_lower 1 1 1 two_names_record))))
      <-> find (renderable two_names_record) priority_fields = Some "login")
  /\ (length (filter (fun x : bool * string * json =>
                        fst (fst x) && str_in (snd (fst x)) priority_fields)
                     (selected (print_record ascii_lower 1 1 two_names_record)))
      <= 1)%nat
  /\ (length (filter (fun x : bool * string * json =>
                        fst (fst x) && str_in (snd (fst x)) priority_fields)
                     (selected (snd (write_record ascii_lower 1 1 1 two_names_record))))
      <= 1)%nat
  /\ (length (filter (fun x : bool * string * json => fst (fst x))
                     (selected (print_record ascii_lower 1 1 two_names_record)))
      <= 3)%nat.
Proof.
  apply (group_field_rendered_iff_first ascii_lower 1 1 1 two_names_record
                                        priority_fields "login").
  - intros g Hg. cbn in Hg.
    repeat match type of Hg with
           | _ \/ _ => destruct Hg as [Hg|Hg]
           end; try contradiction; subst g; reflexivity.
  - cbn. auto.
  - cbn. auto.
Defined.

(* ------------------------------------------------------------------ *)
(** ** Record numbers and record counts *)

Lemma record_numbers_app (a b : list text) :
  record_numbers (a ++ b) = record_numbers a ++ record_numbers b.
Proof. unfold record_numbers. apply flat_map_app. Qed.

Lemma record_numbers_print_first (fields : list string) (r : record) :
  record_numbers (print_first fields r) = [].
Proof.
  induction fields as [|field fields IH]; cbn [print_first]; [reflexivity|].
  destruct (dict_get field r) as [v|]; [|exact IH].
  destruct (truthy v && negb (is_NA v)); [reflexivity|exact IH].
Qed.

Lemma Zseq_app (k1 k2 : nat) (start : Z) :
  Zseq start (k1 + k2) = Zseq start k1 ++ Zseq (start + Z.of_nat k1) k2.
Proof.
  revert start. induction k1 as [|k1 IH]; intros start.
  - cbn. now rewrite Z.add_0_r.
  - cbn [Nat.add Zseq app]. rewrite IH. f_equal. f_equal. f_equal. lia.
Qed.

Lemma map_fst_enumerate {A : Type} (l : list A) (start : Z) :
  map fst (enumerate start l) = Zseq start (length l).
Proof.
  revert start. induction l as [|x l IH]; intros start; cbn; [reflexivity|].
  now rewrite IH.
Qed.

Lemma total_records_all_records (items : buckets) :
  total_records items = len (all_records items).
Proof.
  unfold all_records, len.
  induction items as [|[db records] items IH]; [reflexivity|].
  rewrite total_records_cons, IH. cbn [flat_map snd].
  rewrite length_app. unfold len. lia.
Qed.

Section Numbering.

Variable lower : string -> string.

Lemma record_numbers_print_others (r : record) :
  record_numbers (print_others lower r) = [].
Proof.
  induction r as [|[field value] r IH]; cbn [print_others]; [reflexivity|].
  rewrite record_numbers_app, IH, app_nil_r.
  destruct (negb (str_in (lower field) shown_fields) && truthy value
            && negb (is_NA value)); reflexivity.
Qed.

Lemma record_numbers_print_record (n i : Z) (r : record) :
  record_numbers (print_record lower n i r) = [(n, i)].
Proof.
  unfold print_record. rewrite !record_numbers_app.
  rewrite !record_numbers_print_first, record_numbers_print_others.
  reflexivity.
Qed.

Lemma print_records_numbers (l : list (Z * record)) (n : Z) :
  record_numbers (fst (print_records lower l n))
  = combine (Zseq (n + 1) (length l)) (map fst l)
  /\ snd (print_records lower l n) = n + len l.
Proof.
  revert n. induction l as [|[i r] l IH]; intros n; cbn [print_records].
  - unfold len. cbn. split; [reflexivity|lia].
  - destruct (IH (n + 1)) as [H1 H2].
    destruct (print_records lower l (n + 1)) as [out m]. cbn [fst snd] in *.
    rewrite record_numbers_app, record_numbers_print_record, H1.
    split; [reflexivity|]. unfold len in *. cbn [length]. lia.
Qed.

Lemma combine_fst {A B : Type} (l : list A) (l' : list B) :
  length l = length l' -> map fst (combine l l') = l.
Proof.
  revert l'. induction l as [|x l IH]; intros [|y l'] H; cbn in *;
    try discriminate; [reflexivity|]. rewrite IH by lia. reflexivity.
Qed.

Lemma combine_snd {A B : Type} (l : list A) (l' : list B) :
  length l = length l' -> map snd (combine l l') = l'.
Proof.
  revert l'. induction l as [|x l IH]; intros [|y l'] H; cbn in *;
    try discriminate; [reflexivity|]. rewrite IH by lia. reflexivity.
Qed.

Lemma length_Zseq (start : Z) (k : nat) : length (Zseq start k) = k.
Proof. revert start. induction k as [|k IH]; intros start; cbn; [reflexivity|]. now rewrite IH. Qed.

Lemma length_enumerate {A : Type} (l : list A) (start : Z) :
  length (enumerate start l) = length l.
Proof.
  rewrite <- (length_map fst), map_fst_enumerate. apply length_Zseq.
Qed.

Lemma print_buckets_numbers (items : buckets) (n : Z) :
  map fst (record_numbers (fst (print_buckets lower items n)))
  = Zseq (n + 1) (length (all_records items))
  /\ map snd (record_numbers (fst (print_buckets lower items n)))
     = flat_map (fun kv : string * list record => Zseq 1 (length (snd kv))) items
  /\ snd (print_buckets lower items n) = n + total_records items.
Proof.
  revert n. induction items as [|[db_name records] items IH]; intros n;
    cbn [print_buckets].
  - unfold total_records, sum. cbn. repeat split. lia.
  - destruct (print_records_numbers (enumerate 1 records) n) as [H1 H2].
    destruct (print_records lower (enumerate 1 records) n) as [out1 n1].
    cbn [fst snd] in H1, H2.
    destruct (IH n1) as [K1 [K2 K3]].
    destruct (print_buckets lower items n1) as [out2 n2]. cbn [fst snd] in *.
    rewrite !record_numbers_app, !map_app, H1, K1, K2.
    change (record_numbers
              [line [NL; Lit "🗄️  Database: "; Lit db_name];
               line [Lit "📈 Records found: "; Int (len records)];
               line [Rep "-" 40]]) with (@nil (Z * Z)).
    cbn [map app].
    rewrite length_enumerate in *.
    rewrite combine_fst, combine_snd
      by (rewrite length_Zseq, length_map, length_enumerate; reflexivity).
    rewrite map_fst_enumerate.
    unfold all_records. cbn [flat_map snd]. rewrite length_app, Zseq_app.
    fold (all_records items).
    rewrite total_records_cons. subst n1 n2. unfold len.
    rewrite !length_enumerate.
    repeat split.
    + f_equal. f_equal. lia.
    + lia.
Qed.

Lemma write_buckets_numbers (items : buckets) (n total : Z) :
  record_numbers (snd (fst (write_buckets lower items n total)))
  = record_numbers (fst (print_buckets lower items n))
  /\ snd (write_buckets lower items n total) = snd (print_buckets lower items n).
Proof.
  revert n. induction items as [|[db_name records] items IH]; intros n;
    cbn [print_buckets write_buckets].
  - split; reflexivity.
  - rewrite (print_records_write_records lower (enumerate 1 records) n total).
    destruct (write_records lower (enumerate 1 records) n total) as [[con1 file1] n1].
    cbn [fst snd].
    destruct (IH n1) as [Hnum Hn].
    destruct (print_buckets lower items n1) as [out2 m2].
    destruct (write_buckets lower items n1 total) as [[con2 file2] m2'].
    cbn [fst snd] in *. split; [|exact Hn].
    rewrite !record_numbers_app, Hnum. reflexivity.
Qed.

End Numbering.

(** X11.  When a result dict has results and a size other than 0,
    [print_results] numbers the records it prints 1, 2, 3, ... across all
    buckets, numbers them again from 1 within each bucket, and ends with a
    count of displayed records that is the number of records in the
    buckets, whatever the size of the dict says. *)
Theorem print_results_numbers_records (lower : string -> string) (res : JsonDict)
    (items : buckets) :
  d_results res = Some items ->
  get_default (d_size res) 0 <> 0 ->
  map fst (record_numbers (print_results lower res))
  = Zseq 1 (length (all_records items))
  /\ map snd (record_numbers (print_results lower res))
     = flat_map (fun kv : string * list record => Zseq 1 (length (snd kv))) items
  /\ last (print_results lower res) []
     = line [NL; Lit "📈 Total records displayed: "; Int (total_records items)].
Proof.
  intros Hres Hsize. unfold print_results. rewrite Hres.
  destruct (Z.eqb_spec (get_default (d_size res) 0) 0) as [E|_]; [contradiction|].
  destruct (print_buckets_numbers lower items 0) as [H1 [H2 H3]].
  destruct (print_buckets lower items 0) as [out n]. cbn [fst snd] in *.
  rewrite !record_numbers_app, !map_app, H1, H2.
  cbn [record_numbers flat_map record_number line app map].
  rewrite !app_nil_r.
  repeat split.
  rewrite !app_comm_cons, last_last. subst n. reflexivity.
Qed.

Lemma print_results_numbers_records_witness :
  get_default (d_size two_bucket_results) 0 = 7
  /\ map fst (record_numbers (print_results ascii_lower two_bucket_results)) = [1; 2; 3]
  /\ map snd (record_numbers (print_results ascii_lower two_bucket_results)) = [1; 2; 1]
  /\ last (print_results ascii_lower two_bucket_results) []
     = line [NL; Lit "📈 Total records displayed: "; Int 3].
Proof.
  split; [reflexivity|].
  apply (print_results_numbers_records ascii_lower two_bucket_results
           [("🔸xkeyscore➤db", [sample_record; two_names_record]);
            ("🔸snusbase➤dump", [two_names_record])]).
  - reflexivity.
  - discriminate.
Defined.

(* ------------------------------------------------------------------ *)
(** ** The saved file *)

Lemma thousand_step (n : Z) :
  0 <= n ->
  (n + 1) / 1000 = n / 1000 + (if (n + 1) mod 1000 =? 0 then 1 else 0).
Proof.
  intros Hn.
  pose proof (Z.div_mod n 1000 ltac:(lia)) as E1.
  pose proof (Z.mod_pos_bound n 1000 ltac:(lia)) as B1.
  pose proof (Z.div_mod (n + 1) 1000 ltac:(lia)) as E2.
  pose proof (Z.mod_pos_bound (n + 1) 1000 ltac:(lia)) as B2.
  destruct (Z.eqb_spec ((n + 1) mod 1000) 0); lia.
Qed.

Section SavedFile.

Variable lower : string -> string.

Lemma write_records_count (l : list (Z * record)) (n total : Z) :
  snd (write_records lower l n total) = n + len l.
Proof.
  pose proof (print_records_write_records lower l n total) as H.
  destruct (print_records_numbers lower l n) as [_ H2].
  rewrite H in H2. exact H2.
Qed.

Lemma write_records_progress (l : list (Z * record)) (n total : Z) :
  0 <= n ->
  Z.of_nat (length (filter is_progress_line
                           (fst (fst (write_records lower l n total)))))
  = (n + len l) / 1000 - n / 1000.
Proof.
  revert n. induction l as [|[i r] l IH]; intros n Hn; cbn [write_records].
  - unfold len. cbn. rewrite Z.add_0_r. lia.
  - specialize (IH (n + 1) ltac:(lia)).
    unfold write_record.
    destruct (write_records lower l (n + 1) total) as [[con2 file2] m].
    cbn [fst snd] in *.
    rewrite filter_app, length_app, Nat2Z.inj_add, IH.
    pose proof (thousand_step n Hn) as Hstep.
    replace (n + len ((i, r) :: l)) with (n + 1 + len l)
      by (unfold len; cbn [length]; lia).
    set (a := (n + 1 + len l) / 1000) in *. set (b := (n + 1) / 1000) in *.
    set (c := n / 1000) in *.
    destruct ((n + 1) mod 1000 =? 0).
    + change (filter is_progress_line
                [line [Lit "   📝 Writing record "; Int (n + 1); Lit "/"; Int total;
                       Lit "..."]])
        with [line [Lit "   📝 Writing record "; Int (n + 1); Lit "/"; Int total;
                    Lit "..."]].
      cbn [length]. lia.
    + cbn [filter length]. lia.
Qed.

Lemma write_buckets_count (items : buckets) (n total : Z) :
  snd (write_buckets lower items n total) = n + total_records items.
Proof.
  destruct (write_buckets_numbers lower items n total) as [_ H].
  destruct (print_buckets_numbers lower items n) as [_ [_ H3]].
  now rewrite H.
Qed.

Lemma write_buckets_progress (items : buckets) (n total : Z) :
  0 <= n ->
  Z.of_nat (length (filter is_progress_line
                           (fst (fst (write_buckets lower items n total)))))
  = (n + total_records items) / 1000 - n / 1000.
Proof.
  revert n. induction items as [|[db_name records] items IH]; intros n Hn;
    cbn [write_buckets].
  - unfold total_records, sum. cbn. rewrite Z.add_0_r. lia.
  - pose proof (write_records_progress (enumerate 1 records) n total Hn) as H1.
    pose proof (write_records_count (enumerate 1 records) n total) as Hc.
    destruct (write_records lower (enumerate 1 records) n total) as [[con1 file1] n1].
    cbn [fst snd] in *.
    assert (Hn1 : 0 <= n1) by (subst n1; unfold len; lia).
    specialize (IH n1 Hn1).
    destruct (write_buckets lower items n1 total) as [[con2 file2] n2].
    cbn [fst snd] in *.
    rewrite filter_app, length_app, Nat2Z.inj_add, H1, IH.
    rewrite total_records_cons. subst n1.
    unfold len. rewrite length_enumerate.
    replace (n + (Z.of_nat (length records) + total_records items))
      with (n + Z.of_nat (length records) + total_records items) by lia.
    lia.
Qed.

End SavedFile.

(* ------------------------------------------------------------------ *)
(** ** The saved file on a file system that can fail *)

Lemma printed_app (a b : list file_event) : printed (a ++ b) = printed a ++ printed b.
Proof.
  induction a as [|[t|t] a IH]; cbn; [reflexivity| |exact IH]. now rewrite IH.
Qed.

Lemma written_app (a b : list file_event) : written (a ++ b) = written a ++ written b.
Proof.
  induction a as [|[t|t] a IH]; cbn; [reflexivity|exact IH|]. now rewrite IH.
Qed.

Lemma printed_Printed (l : list text) : printed (map Printed l) = l.
Proof. induction l as [|t l IH]; cbn; [reflexivity|]. now rewrite IH. Qed.

Lemma printed_Written (l : list text) : printed (map Written l) = [].
Proof. induction l as [|t l IH]; cbn; [reflexivity|exact IH]. Qed.

Lemma written_Printed (l : list text) : written (map Printed l) = [].
Proof. induction l as [|t l IH]; cbn; [reflexivity|exact IH]. Qed.

Lemma written_Written (l : list text) : written (map Written l) = l.
Proof. induction l as [|t l IH]; cbn; [reflexivity|]. now rewrite IH. Qed.

Lemma begins_refl {A : Type} (a : list A) : begins a a.
Proof. exists []. now rewrite app_nil_r. Qed.

Lemma begins_nil {A : Type} (a : list A) : begins [] a.
Proof. now exists a. Qed.

Lemma begins_cons {A : Type} (x : A) (a b : list A) : begins a b -> begins (x :: a) (x :: b).
Proof. intros [rest ->]. now exists rest. Qed.

Lemma begins_filter_length {A : Type} (p : A -> bool) (a b : list A) :
  begins a b -> (length (filter p a) <= length (filter p b))%nat.
Proof. intros [rest ->]. rewrite filter_app, length_app. lia. Qed.

(** When no write fails the whole block runs. *)
Lemma run_events_reliable (write : nat -> option exn) (k : nat) (evs : list file_event) :
  (forall j, write j = None) ->
  run_events write k evs = (printed evs, written evs, None).
Proof.
  intros H. revert k. induction evs as [|[t|t] evs IH]; intros k; cbn [run_events printed written].
  - reflexivity.
  - now rewrite IH.
  - now rewrite H, IH.
Qed.

(** In every case what was printed and written is the beginning of what
    the whole block prints and writes, and all of it when nothing was
    raised. *)
Lemma run_events_begins (write : nat -> option exn) (k : nat) (evs : list file_event) :
  begins (fst (fst (run_events write k evs))) (printed evs)
  /\ begins (snd (fst (run_events write k evs))) (written evs)
  /\ (snd (run_events write k evs) = None ->
      fst (fst (run_events write k evs)) = printed evs
      /\ snd (fst (run_events write k evs)) = written evs).
Proof.
  revert k. induction evs as [|[t|t] evs IH]; intros k; cbn [run_events printed written].
  - cbn. repeat split; apply begins_refl.
  - destruct (IH k) as [H1 [H2 H3]].
    destruct (run_events write k evs) as [[c f] e]. cbn [fst snd] in *.
    split; [now apply begins_cons|]. split; [exact H2|].
    intros He. destruct (H3 He) as [-> ->]. split; reflexivity.
  - destruct (write k) as [e0|].
    + cbn. split; [apply begins_nil|]. split; [apply begins_nil|]. discriminate.
    + destruct (IH (S k)) as [H1 [H2 H3]].
      destruct (run_events write (S k) evs) as [[c f] e]. cbn [fst snd] in *.
      split; [exact H1|]. split; [now apply begins_cons|].
      intros He. destruct (H3 He) as [-> ->]. split; reflexivity.
Qed.

(** A raised exception comes from a write that fails. *)
Lemma run_events_raised (write : nat -> option exn) (k : nat) (evs : list file_event)
    (e : exn) :
  snd (run_events write k evs) = Some e -> exists j, write j = Some e.
Proof.
  revert k. induction evs as [|[t|t] evs IH]; intros k; cbn [run_events].
  - discriminate.
  - specialize (IH k). destruct (run_events write k evs) as [[c f] e']. exact IH.
  - destruct (write k) as [e0|] eqn:Hw.
    + cbn. intros H. inversion H; subst. now exists k.
    + specialize (IH (S k)). destruct (run_events write (S k) evs) as [[c f] e'].
      exact IH.
Qed.

Lemma save_failed_no_progress (res : JsonDict) (filename : string) (e : exn) :
  filter is_progress_line (save_failed res filename e) = [].
Proof. unfold save_failed. destruct (exn_type e); reflexivity. Qed.

Section SavedOnFileSystem.

Variable lower : string -> string.
Variable isalnum : string -> bool.

Lemma record_events_spec (n total i : Z) (r : record) :
  printed (record_events lower n total i r) = fst (write_record lower n total i r)
  /\ written (record_events lower n total i r) = snd (write_record lower n total i r).
Proof.
  unfold record_events.
  rewrite printed_app, written_app, printed_Printed, printed_Written,
    written_Printed, written_Written, app_nil_r.
  split; reflexivity.
Qed.

Lemma records_events_spec (l : list (Z * record)) (n total : Z) :
  printed (fst (records_events lower l n total))
  = fst (fst (write_records lower l n total))
  /\ written (fst (records_events lower l n total))
     = snd (fst (write_records lower l n total))
  /\ snd (records_events lower l n total) = snd (write_records lower l n total).
Proof.
  revert n. induction l as [|[i r] l IH]; intros n; cbn [records_events write_records].
  - repeat split.
  - destruct (IH (n + 1)) as [H1 [H2 H3]].
    destruct (record_events_spec (n + 1) total i r) as [K1 K2].
    destruct (records_events lower l (n + 1) total) as [evs m].
    destruct (write_records lower l (n + 1) total) as [[con2 file2] m'].
    destruct (write_record lower (n + 1) total i r) as [con1 file1].
    cbn [fst snd] in *.
    rewrite printed_app, written_app, K1, K2, H1, H2, H3. repeat split.
Qed.

Lemma buckets_events_spec (items : buckets) (n total : Z) :
  printed (fst (buckets_events lower items n total))
  = fst (fst (write_buckets lower items n total))
  /\ written (fst (buckets_events lower items n total))
     = snd (fst (write_buckets lower items n total))
  /\ snd (buckets_events lower items n total) = snd (write_buckets lower items n total).
Proof.
  revert n. induction items as [|[db_name records] items IH]; intros n;
    cbn [buckets_events write_buckets].
  - repeat split.
  - destruct (records_events_spec (enumerate 1 records) n total) as [H1 [H2 H3]].
    destruct (records_events lower (enumerate 1 records) n total) as [evs1 n1].
    destruct (write_records lower (enumerate 1 records) n total) as [[con1 file1] n1'].
    cbn [fst snd] in H1, H2, H3. subst n1'.
    destruct (IH n1) as [K1 [K2 K3]].
    destruct (buckets_events lower items n1 total) as [evs2 n2].
    destruct (write_buckets lower items n1 total) as [[con2 file2] n2'].
    cbn [fst snd] in *.
    rewrite !printed_app, !written_app, H1, H2, K1, K2, K3.
    cbn. repeat split.
Qed.

(** What the block writes when no write fails is the report. *)
Lemma written_save_events (res : JsonDict) (search_term search_type : string) :
  written (save_events lower isalnum res search_term search_type)
  = file_report lower res search_term search_type.
Proof.
  unfold save_events, file_report.
  rewrite written_app, written_Written. f_equal.
  destruct (get_default (d_size res) 0 =? 0); [reflexivity|].
  destruct (buckets_events_spec (get_default (d_results res) []) 0
                                (get_default (d_size res) 0)) as [_ [H2 H3]].
  destruct (buckets_events lower (get_default (d_results res) []) 0
                           (get_default (d_size res) 0)) as [evs n].
  destruct (write_buckets lower (get_default (d_results res) []) 0
                          (get_default (d_size res) 0)) as [[con body] n'].
  cbn [fst snd] in *. subst n'.
  now rewrite written_app, written_Written, H2.
Qed.

Lemma printed_save_events (res : JsonDict) (search_term search_type : string) :
  get_default (d_size res) 0 <> 0 ->
  printed (save_events lower isalnum res search_term search_type)
  = fst (fst (write_buckets lower (get_default (d_results res) []) 0
                            (get_default (d_size res) 0))).
Proof.
  intros Hsize. unfold save_events.
  rewrite printed_app, printed_Written.
  destruct (Z.eqb_spec (get_default (d_size res) 0) 0) as [E|_]; [contradiction|].
  destruct (buckets_events_spec (get_default (d_results res) []) 0
                                (get_default (d_size res) 0)) as [H1 _].
  destruct (buckets_events lower (get_default (d_results res) []) 0
                           (get_default (d_size res) 0)) as [evs n].
  cbn [fst snd] in *.
  now rewrite printed_app, printed_Written, app_nil_r, H1.
Qed.

(** The report of results with a size other than 0. *)
Lemma file_report_nonempty (res : JsonDict) (search_term search_type : string) :
  get_default (d_size res) 0 <> 0 ->
  let items := get_default (d_results res) [] in
  (exists body,
      file_report lower res search_term search_type
      = write_header res search_term search_type ++ body
        ++ write_summary res search_term search_type (total_records items))
  /\ map fst (record_numbers (file_report lower res search_term search_type))
     = Zseq 1 (length (all_records items)).
Proof.
  intros Hsize items. unfold file_report.
  destruct (Z.eqb_spec (get_default (d_size res) 0) 0) as [E|_]; [contradiction|].
  fold items.
  pose proof (write_buckets_count lower items 0 (get_default (d_size res) 0)) as Hc.
  destruct (write_buckets_numbers lower items 0 (get_default (d_size res) 0))
    as [Hnum _].
  destruct (print_buckets_numbers lower items 0) as [Hseq _].
  destruct (write_buckets lower items 0 (get_default (d_size res) 0))
    as [[progress body] record_count].
  cbn [fst snd] in *. rewrite Z.add_0_l in Hc. subst record_count.
  split; [now exists body|].
  rewrite !record_numbers_app, !map_app, Hnum, Hseq.
  change (record_numbers (write_header res search_term search_type))
    with (@nil (Z * Z)).
  change (record_numbers
            (write_summary res search_term search_type (total_records items)))
    with (@nil (Z * Z)).
  cbn [map app]. now rewrite app_nil_r.
Qed.

Lemma buckets_events_count (items : buckets) (total : Z) :
  snd (buckets_events lower items 0 total) = total_records items.
Proof.
  destruct (buckets_events_spec items 0 total) as [_ [_ H]]. rewrite H.
  rewrite (write_buckets_count lower items 0 total). lia.
Qed.

(** The shape of the result of [save_results_to_file] in every case. *)
Lemma save_results_to_file_fs_cases (fs : FileSystem) (res : JsonDict)
    (search_term search_type : string) :
  let filename := output_filename isalnum search_term search_type in
  let preparing :=
    [line [Lit "💾 Preparing to save "; Int (get_default (d_size res) 0);
           Lit " records..."]] in
  let out := save_results_to_file_fs lower isalnum fs res search_term search_type in
  (exists e, fs_open fs filename = Some e
             /\ out = (preparing ++ save_failed res filename e, None, None))
  \/ (fs_open fs filename = None
      /\ exists console file,
           begins console (printed (save_events lower isalnum res search_term search_type))
           /\ begins file (file_report lower res search_term search_type)
           /\ ((exists e, out = (preparing ++ console ++ save_failed res filename e,
                                 Some file, None))
               \/ (file = file_report lower res search_term search_type
                   /\ console
                      = printed (save_events lower isalnum res search_term search_type)
                   /\ fs_close fs filename = None
                   /\ exists tail,
                        filter is_progress_line tail = []
                        /\ out = (preparing ++ console ++ tail, Some file,
                                  Some filename)))).
Proof.
  intros filename preparing out. subst out. unfold save_results_to_file_fs.
  fold filename. fold preparing.
  destruct (fs_open fs filename) as [e|] eqn:Hopen.
  - left. exists e. split; reflexivity.
  - right. split; [reflexivity|].
    destruct (run_events_begins (fs_write fs filename) 0
                (save_events lower isalnum res search_term search_type))
      as [H1 [H2 H3]].
    rewrite written_save_events in H2, H3.
    destruct (run_events (fs_write fs filename) 0
                         (save_events lower isalnum res search_term search_type))
      as [[console file] raised].
    cbn [fst snd] in *.
    exists console, file. split; [exact H1|]. split; [exact H2|].
    destruct (fs_close fs filename) as [e'|] eqn:Hclose.
    + left. now exists e'.
    + destruct raised as [e|].
      * left. now exists e.
      * destruct (H3 eq_refl) as [-> ->].
        destruct (get_default (d_size res) 0 =? 0).
        -- right. repeat split. exists []. split; [reflexivity|].
           now rewrite app_nil_r.
        -- destruct (fs_getsize fs filename) as [file_size|e].
           ++ right. repeat split. eexists. split; [|reflexivity]. reflexivity.
           ++ left. now exists e.
Qed.

End SavedOnFileSystem.

Lemma printed_progress (lower : string -> string) (isalnum : string -> bool)
    (res : JsonDict) (search_term search_type : string) :
  get_default (d_size res) 0 <> 0 ->
  Z.of_nat (length (filter is_progress_line
                           (printed (save_events lower isalnum res
                                                 search_term search_type))))
  = total_records (get_default (d_results res) []) / 1000.
Proof.
  intros Hsize. rewrite (printed_save_events lower isalnum res _ _ Hsize).
  rewrite (write_buckets_progress lower (get_default (d_results res) []) 0
             (get_default (d_size res) 0) ltac:(lia)).
  rewrite (Z.add_0_l (total_records (get_default (d_results res) []))).
  change (0 / 1000) with 0. lia.
Qed.

(** The block runs to its end exactly when none of its writes fails. *)
Lemma run_events_ok_iff (write : nat -> option exn) (k : nat) (evs : list file_event) :
  snd (run_events write k evs) = None
  <-> forall j, (k <= j < k + length (written evs))%nat -> write j = None.
Proof.
  revert k. induction evs as [|[t|t] evs IH]; intros k; cbn [run_events written].
  - cbn. split; [intros _ j Hj; lia|reflexivity].
  - specialize (IH k). destruct (run_events write k evs) as [[c f] e]. exact IH.
  - destruct (write k) as [e0|] eqn:Hw.
    + cbn. split; [discriminate|].
      intros H. rewrite (H k) in Hw by lia. discriminate.
    + specialize (IH (S k)). destruct (run_events write (S k) evs) as [[c f] e].
      cbn [fst snd length] in *. rewrite IH. split.
      * intros H j Hj. destruct (Nat.eq_dec j k) as [->|Hne]; [exact Hw|].
        apply H. lia.
      * intros H j Hj. apply H. lia.
Qed.

(** X12.  When the file can be opened, no write fails, the file can be
    closed and its size can be read, and the size of the dict is not 0,
    [save_results_to_file] returns the file name; the file is the header,
    the buckets and the summary; its records are numbered 1, 2, 3, ...
    across all buckets; and both the [Total Records] line of the summary
    and the [Records] line on the console give the number of records in the
    buckets, which the [Total Results] line of the header (the size of the
    dict) need not equal. *)
Theorem saved_file_counts_its_records
    (lower : string -> string) (isalnum : string -> bool) (fs : FileSystem)
    (res : JsonDict) (search_term search_type : string) (file_size : Z) :
  fs_open fs (output_filename isalnum search_term search_type) = None ->
  (forall k, fs_write fs (output_filename isalnum search_term search_type) k = None) ->
  fs_close fs (output_filename isalnum search_term search_type) = None ->
  fs_getsize fs (output_filename isalnum search_term search_type) = Ok file_size ->
  get_default (d_size res) 0 <> 0 ->
  let items := get_default (d_results res) [] in
  let out := save_results_to_file_fs lower isalnum fs res search_term search_type in
  snd out = Some (output_filename isalnum search_term search_type)
  /\ (exists body,
         snd (fst out)
         = Some (write_header res search_term search_type ++ body
                 ++ write_summary res search_term search_type (total_records items)))
  /\ (exists file,
         snd (fst out) = Some file
         /\ map fst (record_numbers file) = Zseq 1 (length (all_records items)))
  /\ In (line [Lit "   📊 Records: "; IntComma (total_records items)]) (fst (fst out)).
Proof.
  intros Hopen Hwrite Hclose Hgetsize Hsize items out. subst out.
  unfold save_results_to_file_fs.
  rewrite Hopen, (run_events_reliable _ 0 _ Hwrite), Hclose, Hgetsize.
  destruct (Z.eqb_spec (get_default (d_size res) 0) 0) as [E|_]; [contradiction|].
  cbn [fst snd].
  rewrite written_save_events, buckets_events_count.
  destruct (file_report_nonempty lower res search_term search_type Hsize)
    as [[body Hbody] Hnum].
  fold items in Hbody, Hnum. fold items.
  split; [reflexivity|]. split; [exists body; now rewrite Hbody|].
  split; [eexists; split; [reflexivity|exact Hnum]|].
  apply in_or_app. right. apply in_or_app. right. cbn. tauto.
Qed.

Lemma saved_file_counts_its_records_witness :
  get_default (d_size two_bucket_results) 0 = 7
  /\ total_records (get_default (d_results two_bucket_results) []) = 3
  /\ let items := get_default (d_results two_bucket_results) [] in
     let out := save_results_to_file_fs ascii_lower isalnum_ascii_only reliable_fs
                                        two_bucket_results "a@b.com" "email" in
     snd out = Some (output_filename isalnum_ascii_only "a@b.com" "email")
     /\ (exists body,
            snd (fst out)
            = Some (write_header two_bucket_results "a@b.com" "email" ++ body
                    ++ write_summary two_bucket_results "a@b.com" "email"
                                     (total_records items)))
     /\ (exists file,
            snd (fst out) = Some file
            /\ map fst (record_numbers file) = Zseq 1 (length (all_records items)))
     /\ In (line [Lit "   📊 Records: "; IntComma (total_records items)]) (fst (fst out)).
Proof.
  split; [reflexivity|]. split; [reflexivity|].
  apply (saved_file_counts_its_records ascii_lower isalnum_ascii_only reliable_fs
           two_bucket_results "a@b.com" "email" 2048).
  - reflexivity.
  - intros k. reflexivity.
  - reflexivity.
  - reflexivity.
  - discriminate.
Defined.

(** X13.  While it writes, [save_results_to_file] prints a progress message
    at every thousandth record and at no other: for a dict with a size
    other than 0, a file that can be opened and writes that do not fail,
    the number of progress messages is the number of records in the
    buckets divided by 1000, rounded down; and on any file system, where a
    failing write ends the messages early, it is at most that number. *)
Theorem one_progress_message_per_thousand_records
    (lower : string -> string) (isalnum : string -> bool) (fs : FileSystem)
    (res : JsonDict) (search_term search_type : string) :
  fs_open fs (output_filename isalnum search_term search_type) = None ->
  (forall k, fs_write fs (output_filename isalnum search_term search_type) k = None) ->
  get_default (d_size res) 0 <> 0 ->
  Z.of_nat (length (filter is_progress_line
                           (fst (fst (save_results_to_file_fs lower isalnum fs
                                        res search_term search_type)))))
  = total_records (get_default (d_results res) []) / 1000
  /\ forall fs' : FileSystem,
       Z.of_nat (length (filter is_progress_line
                                (fst (fst (save_results_to_file_fs lower isalnum fs'
                                             res search_term search_type)))))
       <= total_records (get_default (d_results res) []) / 1000.
Proof.
  intros Hopen Hwrite Hsize.
  pose proof (printed_progress lower isalnum res search_term search_type Hsize) as Hp.
  assert (Hpre : filter is_progress_line
                   [line [Lit "💾 Preparing to save "; Int (get_default (d_size res) 0);
                          Lit " records..."]] = []) by reflexivity.
  split.
  - unfold save_results_to_file_fs.
    rewrite Hopen, (run_events_reliable _ 0 _ Hwrite).
    destruct (fs_close fs (output_filename isalnum search_term search_type)).
    + cbn [fst snd]. rewrite !filter_app, save_failed_no_progress, Hpre.
      cbn [app]. rewrite app_nil_r. exact Hp.
    + destruct (Z.eqb_spec (get_default (d_size res) 0) 0) as [E|_]; [contradiction|].
      destruct (fs_getsize fs (output_filename isalnum search_term search_type));
        cbn [fst snd]; rewrite !filter_app, ?save_failed_no_progress, Hpre;
        cbn [app]; [|rewrite app_nil_r; exact Hp].
      match goal with
      | |- context [filter is_progress_line [?a; ?b; ?c; ?d]] =>
          change (filter is_progress_line [a; b; c; d]) with (@nil text)
      end.
      rewrite app_nil_r. exact Hp.
  - intros fs'.
    assert (Hnn : 0 <= total_records (get_default (d_results res) []) / 1000).
    { apply Z.div_pos; [|lia]. rewrite total_records_all_records. unfold len. lia. }
    destruct (save_results_to_file_fs_cases lower isalnum fs' res search_term search_type)
      as [[e [_ ->]]|[_ [console [file [Hc [_ Hout]]]]]].
    + cbn [fst snd]. rewrite filter_app, save_failed_no_progress, Hpre. cbn. exact Hnn.
    + pose proof (begins_filter_length is_progress_line _ _ Hc) as Hle.
      destruct Hout as [[e ->]|[_ [_ [_ [tail [Ht ->]]]]]]; cbn [fst snd];
        rewrite !filter_app, ?save_failed_no_progress, ?Ht, Hpre;
        cbn [app]; rewrite app_nil_r; lia.
Qed.

Lemma one_progress_message_per_thousand_records_witness :
  total_records (get_default (d_results many_records) []) / 1000 = 2
  /\ Z.of_nat (length (filter is_progress_line
                              (fst (fst (save_results_to_file_fs
                                           ascii_lower isalnum_ascii_only reliable_fs
                                           many_records "a@b.com" "email")))))
     = total_records (get_default (d_results many_records) []) / 1000
  /\ forall fs' : FileSystem,
       Z.of_nat (length (filter is_progress_line
                                (fst (fst (save_results_to_file_fs
                                             ascii_lower isalnum_ascii_only fs'
                                             many_records "a@b.com" "email")))))
       <= total_records (get_default (d_results many_records) []) / 1000.
Proof.
  split; [vm_compute; reflexivity|].
  apply (one_progress_message_per_thousand_records ascii_lower isalnum_ascii_only
           reliable_fs many_records "a@b.com" "email").
  - reflexivity.
  - intros k. reflexivity.
  - discriminate.
Defined.

(** X24.  [save_results_to_file] returns the file name exactly when every
    operation on the file succeeds: [open], each write of the report,
    [close] and, for a size other than 0, [os.path.getsize]; otherwise it
    returns [None] after printing the two lines of an [except] clause.  A
    returned name means that the whole report was written; in every case
    what was written is the beginning of the report, and nothing is written
    exactly when [open] fails. *)
Theorem save_returns_name_iff_all_operations_succeed
    (lower : string -> string) (isalnum : string -> bool) (fs : FileSystem)
    (res : JsonDict) (search_term search_type : string) :
  let filename := output_filename isalnum search_term search_type in
  let report := file_report lower res search_term search_type in
  let out := save_results_to_file_fs lower isalnum fs res search_term search_type in
  (snd out = Some filename
   <-> fs_open fs filename = None
       /\ (forall k, (k < length report)%nat -> fs_write fs filename k = None)
       /\ fs_close fs filename = None
       /\ (get_default (d_size res) 0 <> 0 -> exists n, fs_getsize fs filename = Ok n))
  /\ (snd out = Some filename \/ snd out = None)
  /\ (snd out = Some filename -> snd (fst out) = Some report)
  /\ (forall file, snd (fst out) = Some file -> begins file report)
  /\ (snd (fst out) = None <-> fs_open fs filename <> None)
  /\ (snd out = None ->
      exists e console,
        fst (fst out)
        = [line [Lit "💾 Preparing to save "; Int (get_default (d_size res) 0);
                 Lit " records..."]]
          ++ console ++ save_failed res filename e).
Proof.
  intros filename report out.
  pose proof (save_results_to_file_fs_cases lower isalnum fs res search_term search_type)
    as Hcases.
  cbv zeta in Hcases. fold filename report out in Hcases.
  assert (Hiff : snd out = Some filename
                 <-> fs_open fs filename = None
                     /\ (forall k, (k < length report)%nat -> fs_write fs filename k = None)
                     /\ fs_close fs filename = None
                     /\ (get_default (d_size res) 0 <> 0 ->
                         exists n, fs_getsize fs filename = Ok n)).
  { subst out. unfold save_results_to_file_fs. fold filename.
    destruct (fs_open fs filename) as [e|] eqn:Hopen.
    { cbn [fst snd]. split; [discriminate|]. intros [H _]. discriminate. }
    pose proof (run_events_ok_iff (fs_write fs filename) 0
                  (save_events lower isalnum res search_term search_type)) as Hok.
    rewrite written_save_events in Hok. fold report in Hok.
    destruct (run_events (fs_write fs filename) 0
                         (save_events lower isalnum res search_term search_type))
      as [[console file] raised].
    cbn [fst snd] in Hok.
    destruct (fs_close fs filename) as [e'|] eqn:Hclose.
    { cbn [fst snd]. split; [discriminate|]. intros [_ [_ [H _]]]. discriminate. }
    destruct raised as [e|].
    { cbn [fst snd]. split; [discriminate|]. intros [_ [H _]].
      assert (K : Some e = None) by (apply Hok; intros j Hj; apply H; lia).
      discriminate. }
    assert (Hw : forall k, (k < length report)%nat -> fs_write fs filename k = None).
    { intros k Hk. apply (proj1 Hok eq_refl). lia. }
    destruct (Z.eqb_spec (get_default (d_size res) 0) 0) as [E|E].
    { cbn [fst snd]. split; [|reflexivity]. intros _. repeat split; auto. contradiction. }
    destruct (fs_getsize fs filename) as [n|e].
    - cbn [fst snd]. split; [|reflexivity]. intros _. repeat split; auto. intros _. now exists n.
    - cbn [fst snd]. split; [discriminate|]. intros [_ [_ [_ H]]].
      destruct (H E) as [n Hn]. discriminate. }
  split; [exact Hiff|].
  destruct Hcases as [[e [Hopen Hout]]|[Hopen [console [file [Hc [Hf Hout]]]]]].
  - rewrite Hout. cbn [fst snd].
    split; [now right|]. split; [discriminate|]. split; [discriminate|].
    split; [split; [intros _; congruence|reflexivity]|].
    intros _. exists e, []. reflexivity.
  - destruct Hout as [[e Hout]|[Hfile [Hcon [Hclose [tail [Ht Hout]]]]]];
      rewrite Hout; cbn [fst snd].
    + split; [now right|]. split; [discriminate|].
      split; [intros file' H; inversion H; subst; exact Hf|].
      split; [split; [discriminate|intros H; contradiction]|].
      intros _. exists e, console. reflexivity.
    + split; [now left|]. split; [intros _; now rewrite Hfile|].
      split; [intros file' H; inversion H; subst; exact Hf|].
      split; [split; [discriminate|intros H; contradiction]|].
      discriminate.
Qed.

(** On a disk that is full at the sixth write, the header is cut after
    five lines, the failure is reported and no name is returned. *)
Lemma save_on_full_disk :
  save_results_to_file_fs ascii_lower isalnum_ascii_only disk_full_at_5
                          two_bucket_results "a@b.com" "email"
  = ([line [Lit "💾 Preparing to save "; Int 7; Lit " records..."];
      line [Lit "❌ File system error: "; Lit "No space left on device"];
      line [Lit "   💡 Check disk space and file path validity"]],
     Some [[Rep "=" 80; NL];
           [Lit "KEYSCORE BREACH DATABASE SEARCH RESULTS"; NL];
           [Rep "=" 80; NL];
           [Lit "Search Term: "; Lit "a@b.com"; NL];
           [Lit "Search Type: "; Lit "email"; NL]],
     None).
Proof. vm_compute. reflexivity. Qed.

(* ------------------------------------------------------------------ *)
(** ** The identity line of a returned record *)

Lemma print_first_head (field : string) (rest : list string) (r : record) (s : string) :
  dict_get field r = Some (JStr s) ->
  in_NA_None_empty (dict_get field r) = false ->
  print_first (field :: rest) r
  = [line [Lit "      "; Title field; Lit ": "; Val (JStr s)]].
Proof.
  intros Hget Hb. cbn [print_first]. rewrite Hget in *. cbn in Hb.
  apply orb_false_iff in Hb. destruct Hb as [Hna He].
  cbn [truthy is_NA]. rewrite Hna, He. reflexivity.
Qed.

(** X14.  When the searched term is neither empty nor "N/A", the identity
    line of every record returned by [search_email_all_sources] whose
    [email] is a string is its [Email] line, whatever other identity fields
    the record has; and the location line of every record returned by
    [search_domain_all_sources] whose [url] is a string is its [Url] line. *)
Theorem searched_field_is_rendered (requests_post : Request -> HttpOutcome)
    (self : KeyscoreAPI) (x : string) :
  x <> "" -> x <> "N/A" ->
  (forall key recs r',
      In (key, recs) (results (fst (search_email_all_sources requests_post self x))) ->
      In r' recs ->
      (forall v, dict_get "email" r' = Some v -> exists s, v = JStr s) ->
      exists s, dict_get "email" r' = Some (JStr s)
                /\ print_first priority_fields r'
                   = [line [Lit "      "; Title "email"; Lit ": "; Val (JStr s)]])
  /\ (forall key recs r',
         In (key, recs) (results (fst (search_domain_all_sources requests_post self x))) ->
         In r' recs ->
         (forall v, dict_get "url" r' = Some v -> exists s, v = JStr s) ->
         exists s, dict_get "url" r' = Some (JStr s)
                   /\ print_first url_fields r'
                      = [line [Lit "      "; Title "url"; Lit ": "; Val (JStr s)]]).
Proof.
  intros Hne Hna. split; intros key recs r' Hin Hr Hstr.
  - pose proof (returned_record_not_blank requests_post self "email" x key recs r'
                  eq_refl Hne Hna Hin Hr) as Hb.
    destruct (dict_get "email" r') as [v|] eqn:Hget; [|discriminate].
    destruct (Hstr v eq_refl) as [s ->]. exists s. split; [reflexivity|].
    apply print_first_head; [exact Hget|now rewrite Hget].
  - pose proof (returned_record_not_blank requests_post self "url" x key recs r'
                  eq_refl Hne Hna Hin Hr) as Hb.
    destruct (dict_get "url" r') as [v|] eqn:Hget; [|discriminate].
    destruct (Hstr v eq_refl) as [s ->]. exists s. split; [reflexivity|].
    apply print_first_head; [exact Hget|now rewrite Hget].
Qed.

Lemma searched_field_is_rendered_witness :
  (forall key recs r',
      In (key, recs)
         (results (fst (search_email_all_sources two_records_each sample_api "a@b.com"))) ->
      In r' recs ->
      (forall v, dict_get "email" r' = Some v -> exists s, v = JStr s) ->
      exists s, dict_get "email" r' = Some (JStr s)
                /\ print_first priority_fields r'
                   = [line [Lit "      "; Title "email"; Lit ": "; Val (JStr s)]])
  /\ (forall key recs r',
         In (key, recs)
            (results (fst (search_domain_all_sources two_records_each sample_api
                                                     "a@b.com"))) ->
         In r' recs ->
         (forall v, dict_get "url" r' = Some v -> exists s, v = JStr s) ->
         exists s, dict_get "url" r' = Some (JStr s)
                   /\ print_first url_fields r'
                      = [line [Lit "      "; Title "url"; Lit ": "; Val (JStr s)]]).
Proof.
  apply (searched_field_is_rendered two_records_each sample_api "a@b.com");
    discriminate.
Defined.

(* ------------------------------------------------------------------ *)
(** ** The page estimate *)

(** X15.  For more than 10000 records the printed number of pages is at
    least 2, always enough to hold the records at 10000 a page, and never
    more than one page above [ceil(count / 10000)]: the pages before the
    last are full. *)
Theorem pages_needed_bounds (count : Z) :
  10000 < count ->
  2 <= pages_needed count
  /\ count < pages_needed count * 10000
  /\ (pages_needed count - 1) * 10000 <= count
  /\ credit_estimate count <= pages_needed count <= credit_estimate count + 1.
Proof.
  intros Hgt. unfold pages_needed, credit_estimate, ceil_div.
  destruct (Z.leb_spec count 10000); [lia|].
  pose proof (Z.div_mod count 10000 ltac:(lia)) as E1.
  pose proof (Z.mod_pos_bound count 10000 ltac:(lia)) as B1.
  pose proof (Z.div_mod (count + 10000 - 1) 10000 ltac:(lia)) as E2.
  pose proof (Z.mod_pos_bound (count + 10000 - 1) 10000 ltac:(lia)) as B2.
  lia.
Qed.

Lemma pages_needed_bounds_witness :
  2 <= pages_needed 20000
  /\ 20000 < pages_needed 20000 * 10000
  /\ (pages_needed 20000 - 1) * 10000 <= 20000
  /\ credit_estimate 20000 <= pages_needed 20000 <= credit_estimate 20000 + 1.
Proof. apply (pages_needed_bounds 20000). lia. Defined.

(* ------------------------------------------------------------------ *)
(** ** count_all_sources over any catalog *)

Lemma dict_mem_In {V : Type} (k : string) (d : dict V) :
  dict_mem k d = true <-> In k (dict_keys d).
Proof.
  unfold dict_mem, dict_keys. induction d as [|[k' v'] d IH]; cbn.
  - split; [discriminate|tauto].
  - destruct (String.eqb_spec k k') as [->|Hne].
    + split; auto.
    + rewrite IH. split; [auto|]. intros [E|H]; [congruence|exact H].
Qed.

Lemma dict_set_wf {V : Type} (k : string) (v : V) (d : dict V) :
  dict_wf d -> dict_wf (dict_set k v d).
Proof.
  unfold dict_wf. intros H. rewrite dict_keys_set.
  destruct (dict_mem k d) eqn:Hm; [exact H|].
  apply NoDup_app; [exact H|constructor; [intros []|constructor]|].
  intros x Hx [<-|[]]. apply dict_mem_In in Hx. congruence.
Qed.

Lemma count_loop_at_spec (requests_post_at : nat -> Request -> HttpOutcome)
    (api : KeyscoreAPI) (terms types : list string)
    (l : list string) (k : nat) (st : CountState) :
  total_count (count_loop_at requests_post_at api terms types l k st)
  = total_count st
    + sum (map (fun c : nat * string =>
                  recorded_count (requests_post_at (fst c)) api terms types (snd c))
               (calls_from k l))
  /\ (forall s,
         dict_get s (source_counts (count_loop_at requests_post_at api terms types l k st))
         = match last_call_from k s l with
           | Some j => Some (recorded_count (requests_post_at j) api terms types s)
           | None => dict_get s (source_counts st)
           end)
  /\ (dict_wf (source_counts st) ->
      dict_wf (source_counts (count_loop_at requests_post_at api terms types l k st))).
Proof.
  revert k st. induction l as [|x l IH]; intros k st.
  - unfold sum. cbn. repeat split; auto; lia.
  - cbn [count_loop_at calls_from last_call_from map].
    destruct (IH (S k) (count_source (requests_post_at k) api terms types st x))
      as [H1 [H2 H3]].
    destruct (count_source_spec (requests_post_at k) api terms types st x) as [Ht Hc].
    split; [|split].
    + rewrite H1, Ht. unfold sum. cbn [fold_right fst snd]. lia.
    + intros s. rewrite H2, Hc.
      destruct (last_call_from (S k) s l); [reflexivity|].
      destruct (String.eqb_spec s x) as [->|Hne].
      * apply dict_get_set_same.
      * now apply dict_get_set_other.
    + intros Hwf. apply H3. rewrite Hc. now apply dict_set_wf.
Qed.

(** A service that does not change is the service of [count_all_sources]. *)
Lemma count_loop_at_constant (requests_post : Request -> HttpOutcome)
    (api : KeyscoreAPI) (terms types : list string)
    (l : list string) (k : nat) (st : CountState) :
  count_loop_at (fun _ => requests_post) api terms types l k st
  = count_loop requests_post api terms types l st.
Proof.
  revert k st. induction l as [|x l IH]; intros k st; [reflexivity|].
  cbn [count_loop_at]. rewrite IH. reflexivity.
Qed.

(** X16.  For any catalog, also one that names a source twice, and a
    service whose answers may change from one call to the next,
    [count_all_sources] returns a dict without a [count] key, with [took]
    0, with a total that adds the count of every call of the loop, and with
    per-source counts that hold, for each source of the catalog and for no
    other name, the count of the last call made for it (0 when that call
    failed) under a key of its own: for a source named twice the total
    counts both calls and the per-source count only the second.  With a
    service that does not change this is [count_all_sources] as modelled
    for a fixed service. *)
Theorem count_all_sources_any_catalog
    (requests_post_at : nat -> Request -> HttpOutcome)
    (api : KeyscoreAPI) (terms types : list string) :
  let returned := fst (count_all_sources_at requests_post_at api terms types) in
  let count_at (k : nat) (s : string) :=
    recorded_count (requests_post_at k) api terms types s in
  d_total_count returned
  = Some (sum (map (fun c : nat * string => count_at (fst c) (snd c))
                   (calls_from 0 (all_sources api))))
  /\ d_took returned = Some 0
  /\ d_count returned = None
  /\ (exists counts,
         d_counts returned = Some counts
         /\ dict_wf counts
         /\ forall s,
              dict_get s counts
              = option_map (fun k => count_at k s)
                           (last_call_from 0 s (all_sources api)))
  /\ (forall requests_post : Request -> HttpOutcome,
         count_all_sources_at (fun _ => requests_post) api terms types
         = count_all_sources requests_post api terms types).
Proof.
  intros returned count_at. subst returned count_at.
  unfold count_all_sources_at. cbn [fst].
  cbn [d_total_count d_took d_count d_counts].
  destruct (count_loop_at_spec requests_post_at api terms types (all_sources api) 0
              (mk_CountState 0 [] [[Lit "📊 Getting counts from all sources..."; NL]]))
    as [H1 [H2 H3]].
  cbn [total_count source_counts] in *.
  split; [now rewrite H1|]. split; [reflexivity|]. split; [reflexivity|].
  split.
  - eexists. split; [reflexivity|]. split.
    + apply H3. constructor.
    + intros s. rewrite H2. now destruct (last_call_from 0 s (all_sources api)).
  - intros requests_post. unfold count_all_sources, count_all_sources_state.
    now rewrite count_loop_at_constant.
Qed.

(** The source named twice: the first call counts 3 records, the second
    fails; the total is 3 and the per-source count 0. *)
Lemma count_all_sources_duplicate_source :
  fst (count_all_sources_at three_then_unauthorized catalog_with_duplicate
                            ["a@b.com"] ["email"])
  = mk_JsonDict None None (Some 0) None
                (Some [("xkeyscore", 0); ("snusbase", 0)]) (Some 3).
Proof. vm_compute. reflexivity. Qed.

(* ------------------------------------------------------------------ *)
(** ** Sanitized terms *)

Lemma chars_sanitize (isalnum : string -> bool) (search_term : string) :
  chars (sanitize isalnum search_term)
  = filter (keep_char isalnum) (chars search_term).
Proof.
  unfold sanitize. apply chars_concat. apply chars_wf_filter.
  unfold chars. apply chars_from_wf. reflexivity.
Qed.

Lemma filter_idem {A : Type} (p : A -> bool) (l : list A) :
  filter p (filter p l) = filter p l.
Proof.
  induction l as [|x l IH]; [reflexivity|]. cbn.
  destruct (p x) eqn:Hp; cbn; [rewrite Hp|]; now rewrite ?IH.
Qed.

(** X17.  Sanitizing a sanitized term changes nothing; and, [str.isalnum]
    being what it is on ASCII, every ASCII character of a sanitized term is
    a letter, a digit, "-", "_" or ".": in particular the term part of the
    file name holds no "/" and no backslash. *)
Theorem sanitize_is_idempotent_and_safe (isalnum : string -> bool)
    (search_term : string) :
  (forall a : ascii,
      (nat_of_ascii a < 128)%nat -> isalnum (String a "") = ascii_isalnum a) ->
  sanitize isalnum (sanitize isalnum search_term) = sanitize isalnum search_term
  /\ (forall a : ascii,
         In (String a "") (chars (sanitize isalnum search_term)) ->
         (nat_of_ascii a < 128)%nat ->
         ascii_isalnum a = true \/ In (String a "") ["-"; "_"; "."])
  /\ ~ In "/" (chars (sanitize isalnum search_term))
  /\ ~ In "\" (chars (sanitize isalnum search_term)).
Proof.
  intros Hascii.
  assert (Hsafe : forall a : ascii,
             In (String a "") (chars (sanitize isalnum search_term)) ->
             (nat_of_ascii a < 128)%nat ->
             ascii_isalnum a = true \/ In (String a "") ["-"; "_"; "."]).
  { intros a Hin Ha. rewrite chars_sanitize in Hin. apply filter_In in Hin.
    destruct Hin as [_ Hk]. unfold keep_char in Hk. apply orb_true_iff in Hk.
    destruct Hk as [Hk|Hk].
    - left. now rewrite <- Hascii.
    - right. now apply str_in_In. }
  split; [|split; [exact Hsafe|split]].
  - unfold sanitize at 1. rewrite chars_sanitize, filter_idem. reflexivity.
  - intros Hin. destruct (Hsafe "/"%char Hin ltac:(cbn; lia)) as [H|H].
    + discriminate H.
    + cbn in H. intuition discriminate.
  - intros Hin. destruct (Hsafe "\"%char Hin ltac:(cbn; lia)) as [H|H].
    + discriminate H.
    + cbn in H. intuition discriminate.
Qed.

Lemma sanitize_is_idempotent_and_safe_witness :
  sanitize isalnum_ascii_only (sanitize isalnum_ascii_only "../etc/a b@c.d")
  = sanitize isalnum_ascii_only "../etc/a b@c.d"
  /\ (forall a : ascii,
         In (String a "") (chars (sanitize isalnum_ascii_only "../etc/a b@c.d")) ->
         (nat_of_ascii a < 128)%nat ->
         ascii_isalnum a = true \/ In (String a "") ["-"; "_"; "."])
  /\ ~ In "/" (chars (sanitize isalnum_ascii_only "../etc/a b@c.d"))
  /\ ~ In "\" (chars (sanitize isalnum_ascii_only "../etc/a b@c.d")).
Proof.
  apply (sanitize_is_idempotent_and_safe isalnum_ascii_only "../etc/a b@c.d").
  intros a Ha. unfold isalnum_ascii_only.
  apply Nat.ltb_lt in Ha. rewrite Ha. reflexivity.
Defined.

(** X18.  A character that is not kept is dropped without a trace: for an
    ASCII character that is neither alphanumeric nor "-", "_" or ".",
    putting it in front of a term changes neither the sanitized term nor
    the file name, so that terms that differ in such characters only are
    saved to the same file. *)
Theorem dropped_characters_leave_no_trace (isalnum : string -> bool) (a : ascii)
    (search_term search_type : string) :
  (forall b : ascii,
      (nat_of_ascii b < 128)%nat -> isalnum (String b "") = ascii_isalnum b) ->
  (nat_of_ascii a < 128)%nat ->
  ascii_isalnum a = false ->
  str_in (String a "") ["-"; "_"; "."] = false ->
  sanitize isalnum (String a search_term) = sanitize isalnum search_term
  /\ output_filename isalnum (String a search_term) search_type
     = output_filename isalnum search_term search_type.
Proof.
  intros Hascii Ha Halnum Hset.
  assert (Hs : sanitize isalnum (String a search_term) = sanitize isalnum search_term).
  { unfold sanitize.
    change (String a search_term) with (String a "" ++ search_term)%string.
    rewrite chars_whole.
    - cbn [filter]. unfold keep_char at 1. rewrite (Hascii a Ha), Halnum, Hset.
      reflexivity.
    - cbn. unfold utf8_width.
      destruct (Nat.ltb_spec (nat_of_ascii a) 192); [reflexivity|lia]. }
  split; [exact Hs|]. unfold output_filename. now rewrite Hs.
Qed.

Lemma dropped_characters_leave_no_trace_witness :
  sanitize isalnum_ascii_only (String "@"%char "b.com")
  = sanitize isalnum_ascii_only "b.com"
  /\ output_filename isalnum_ascii_only (String "@"%char "b.com") "email"
     = output_filename isalnum_ascii_only "b.com" "email".
Proof.
  apply (dropped_characters_leave_no_trace isalnum_ascii_only "@"%char "b.com" "email").
  - intros b Hb. unfold isalnum_ascii_only.
    apply Nat.ltb_lt in Hb. rewrite Hb. reflexivity.
  - cbn. lia.
  - reflexivity.
  - reflexivity.
Defined.

(* ------------------------------------------------------------------ *)
(** ** Runs of main *)

Section MainInduction.

Variable requests_post : Request -> HttpOutcome.
Variable lower : string -> string.
Variable isalnum : string -> bool.
Variable fs : FileSystem.
Variable strip : string -> string.

(** A property of the effects of the rest of a run, given what is still to
    happen at the prompts, that every step of the menu loop preserves. *)
Variable Q : list user_input -> effects -> Prop.

Hypothesis Q_eof : forall prompt : text, Q [] (main_eof prompt).
Hypothesis Q_failed :
  forall (msg : string) (l : list user_input) (prompt : text),
    Q (Fails msg :: l) (main_failed prompt msg).
Hypothesis Q_interrupted :
  forall (l : list user_input) (prompt : text),
    Q (Interrupt :: l) (main_interrupted prompt).
Hypothesis Q_console :
  forall (l : list user_input) (c : list text) (e : effects),
    Q l e -> Q l (then_effects (c, []) e).
Hypothesis Q_read :
  forall (a : string) (l : list user_input) (e : effects), Q l e -> Q (Typed a :: l) e.
Hypothesis Q_caught :
  forall (msg : string) (l : list user_input) (e : effects),
    Q l e -> Q (Fails msg :: l) e.
Hypothesis Q_bye :
  forall (a : string) (l : list user_input),
    strip a = "8" -> Q (Typed a :: l) ([goodbye_line], []).
Hypothesis Q_save :
  forall (answer : string) (rest : list user_input) (results : JsonDict)
         (search_term search_type : string) (e : effects),
    says_yes lower strip (Typed answer) = true ->
    get_default (d_size results) 0 > 0 ->
    In search_type ["domain"; "email"; "username"; "wildcard"] ->
    Q rest e ->
    Q (Typed answer :: rest)
      (then_effects (save_effects lower isalnum fs results search_term search_type) e).

Lemma Q_console_only (l : list user_input) (a e : effects) :
  snd a = [] -> Q l e -> Q l (then_effects a e).
Proof. destruct a as [c f]. cbn. intros ->. apply Q_console. Qed.

Lemma show_and_offer_save_preserves (results : JsonDict)
    (search_term search_type : string) (loop : list user_input -> effects)
    (inputs : list user_input) :
  In search_type ["domain"; "email"; "username"; "wildcard"] ->
  (forall l', (length l' <= length inputs)%nat -> Q l' (loop l')) ->
  Q inputs (show_and_offer_save lower isalnum fs strip
                                results search_term search_type loop inputs).
Proof.
  intros Htype Hloop. unfold show_and_offer_save.
  destruct (Z.gtb_spec (get_default (d_size results) 0) 0) as [Hpos|Hle].
  - destruct inputs as [|[answer| |msg] rest].
    + apply Q_console_only; [reflexivity|]. apply Q_console. apply Hloop. apply le_n.
    + destruct (lower (strip answer) =? "y")%string eqn:Hyes.
      * apply Q_console_only; [reflexivity|].
        apply (Q_save answer rest results search_term search_type);
          [exact Hyes|lia|exact Htype|].
        apply Hloop. cbn. lia.
      * apply Q_console_only; [reflexivity|]. apply Q_read. apply Hloop. cbn. lia.
    + apply Q_console. apply Q_interrupted.
    + apply Q_console_only; [reflexivity|]. apply Q_caught. apply Q_console.
      apply Hloop. cbn. lia.
  - apply Q_console_only; [reflexivity|]. apply Hloop. apply le_n.
Qed.

Lemma main_domain_preserves (api : KeyscoreAPI) (loop : list user_input -> effects)
    (inputs : list user_input) :
  (forall l', (length l' <= length inputs)%nat -> Q l' (loop l')) ->
  Q inputs (main_domain requests_post lower isalnum fs strip api loop inputs).
Proof.
  intros Hloop. unfold main_domain.
  destruct inputs as [|[typed| |msg] rest];
    [apply Q_eof| |apply Q_interrupted|apply Q_failed].
  apply Q_read.
  destruct (negb (strip typed =? "")%string).
  - destruct (search_domain_all_sources requests_post api (strip typed))
      as [results console].
    apply Q_console. apply Q_console.
    apply show_and_offer_save_preserves; [cbn; tauto|].
    intros l' Hl. apply Hloop. cbn. lia.
  - apply Q_console. apply Hloop. cbn. lia.
Qed.

Lemma main_email_preserves (api : KeyscoreAPI) (loop : list user_input -> effects)
    (inputs : list user_input) :
  (forall l', (length l' <= length inputs)%nat -> Q l' (loop l')) ->
  Q inputs (main_email requests_post lower isalnum fs strip api loop inputs).
Proof.
  intros Hloop. unfold main_email.
  destruct inputs as [|[typed| |msg] rest];
    [apply Q_eof| |apply Q_interrupted|apply Q_failed].
  apply Q_read.
  destruct (negb (strip typed =? "")%string).
  - destruct (search_email_all_sources requests_post api (strip typed))
      as [results console].
    apply Q_console. apply Q_console.
    apply show_and_offer_save_preserves; [cbn; tauto|].
    intros l' Hl. apply Hloop. cbn. lia.
  - apply Q_console. apply Hloop. cbn. lia.
Qed.

Lemma main_username_preserves (api : KeyscoreAPI) (loop : list user_input -> effects)
    (inputs : list user_input) :
  (forall l', (length l' <= length inputs)%nat -> Q l' (loop l')) ->
  Q inputs (main_username requests_post lower isalnum fs strip api loop inputs).
Proof.
  intros Hloop. unfold main_username.
  destruct inputs as [|[typed| |msg] rest];
    [apply Q_eof| |apply Q_interrupted|apply Q_failed].
  apply Q_read.
  destruct (negb (strip typed =? "")%string).
  - destruct (search_username_all_sources requests_post api (strip typed))
      as [results console].
    apply Q_console. apply Q_console.
    apply show_and_offer_save_preserves; [cbn; tauto|].
    intros l' Hl. apply Hloop. cbn. lia.
  - apply Q_console. apply Hloop. cbn. lia.
Qed.

Lemma main_wildcard_preserves (api : KeyscoreAPI) (loop : list user_input -> effects)
    (inputs : list user_input) :
  (forall l', (length l' <= length inputs)%nat -> Q l' (loop l')) ->
  Q inputs (main_wildcard requests_post lower isalnum fs strip api loop inputs).
Proof.
  intros Hloop. unfold main_wildcard.
  destruct inputs as [|[typed| |msg] rest];
    [apply Q_eof| |apply Q_interrupted|apply Q_failed].
  apply Q_read.
  destruct (negb (strip typed =? "")%string).
  - destruct rest as [|[typed_source| |msg] rest'].
    + apply Q_console. apply Q_eof.
    + apply Q_read.
      destruct (search requests_post api _ _ _ _ _ _ _ _ _ _ _) as [results|e].
      * apply Q_console.
        apply show_and_offer_save_preserves; [cbn; tauto|].
        intros l' Hl. apply Hloop. cbn. lia.
      * apply Q_console. apply Q_console. apply Hloop. cbn. lia.
    + apply Q_console. apply Q_interrupted.
    + apply Q_console. apply Q_failed.
  - apply Q_console. apply Hloop. cbn. lia.
Qed.

Lemma main_count_preserves (api : KeyscoreAPI) (loop : list user_input -> effects)
    (inputs : list user_input) :
  (forall l', (length l' <= length inputs)%nat -> Q l' (loop l')) ->
  Q inputs (main_count requests_post strip api loop inputs).
Proof.
  intros Hloop. unfold main_count.
  destruct inputs as [|[typed| |msg] rest];
    [apply Q_console; apply Q_eof| |apply Q_console; apply Q_interrupted
    |apply Q_console; apply Q_failed].
  apply Q_read.
  destruct (negb (strip typed =? "")%string).
  - destruct rest as [|[typed_choice| |msg] rest'].
    + apply Q_console. apply Q_eof.
    + apply Q_read.
      destruct (dict_get (strip typed_choice) type_map) as [types|].
      * destruct (count_all_sources requests_post api [strip typed] types)
          as [count_result console].
        apply Q_console. apply Hloop. cbn. lia.
      * apply Q_console. apply Hloop. cbn. lia.
    + apply Q_console. apply Q_interrupted.
    + apply Q_console. apply Q_failed.
  - apply Q_console. apply Hloop. cbn. lia.
Qed.

Lemma main_loop_preserves (api : KeyscoreAPI) (n : nat) :
  forall inputs : list user_input,
    (length inputs <= n)%nat ->
    Q inputs (main_loop requests_post lower isalnum fs strip api inputs).
Proof.
  induction n as [|n IH]; intros inputs Hlen.
  - destruct inputs; [|cbn in Hlen; lia]. cbn [main_loop].
    apply Q_console. apply Q_eof.
  - destruct inputs as [|[typed| |msg] rest];
      [cbn [main_loop]; apply Q_console; apply Q_eof|
      |cbn [main_loop]; apply Q_console; apply Q_interrupted
      |cbn [main_loop]; apply Q_console; apply Q_failed].
    cbn [length] in Hlen.
    assert (Hloop : forall l', (length l' <= length rest)%nat ->
              Q l' (main_loop requests_post lower isalnum fs strip api l')).
    { intros l' Hl. apply IH. lia. }
    cbn [main_loop]. apply Q_console.
    destruct (strip typed =? "1")%string;
      [apply Q_read, Q_console, Hloop, le_n|].
    destruct (strip typed =? "2")%string;
      [apply Q_read, main_domain_preserves, Hloop|].
    destruct (strip typed =? "3")%string;
      [apply Q_read, main_email_preserves, Hloop|].
    destruct (strip typed =? "4")%string;
      [apply Q_read, main_username_preserves, Hloop|].
    destruct (strip typed =? "5")%string;
      [apply Q_read, main_wildcard_preserves, Hloop|].
    destruct (strip typed =? "6")%string;
      [apply Q_read, main_count_preserves, Hloop|].
    destruct (strip typed =? "7")%string;
      [apply Q_read, Q_console, Hloop, le_n|].
    destruct (String.eqb_spec (strip typed) "8") as [H8|_].
    + apply Q_bye. exact H8.
    + apply Q_read, Q_console, Hloop, le_n.
Qed.

Lemma main_preserves (inputs : list user_input) :
  Q inputs (main requests_post lower isalnum fs strip inputs).
Proof.
  unfold main. apply Q_console. apply (main_loop_preserves _ (length inputs)).
  apply le_n.
Qed.

End MainInduction.

Lemma save_effects_files (lower : string -> string) (isalnum : string -> bool)
    (fs : FileSystem) (results : JsonDict) (search_term search_type : string) :
  snd (save_effects lower isalnum fs results search_term search_type) = []
  \/ exists file,
       snd (save_effects lower isalnum fs results search_term search_type)
       = [(output_filename isalnum search_term search_type, file)]
       /\ fs_open fs (output_filename isalnum search_term search_type) = None
       /\ begins file (file_report lower results search_term search_type).
Proof.
  unfold save_effects.
  destruct (save_results_to_file_fs_cases lower isalnum fs results
                                          search_term search_type)
    as [[e [_ ->]]|[Hopen [console [file [_ [Hf Hout]]]]]]; [left; reflexivity|].
  right. exists file.
  destruct Hout as [[e ->]|[_ [_ [_ [tail [_ ->]]]]]]; auto.
Qed.

Lemma fst_save_effects_nonempty (lower : string -> string) (isalnum : string -> bool)
    (fs : FileSystem) (results : JsonDict) (search_term search_type : string) :
  fst (save_effects lower isalnum fs results search_term search_type) <> [].
Proof.
  unfold save_effects.
  destruct (save_results_to_file_fs_cases lower isalnum fs results
                                          search_term search_type)
    as [[e [_ ->]]|[_ [console [file [_ [_ Hout]]]]]]; [discriminate|].
  destruct Hout as [[e ->]|[_ [_ [_ [tail [_ ->]]]]]]; discriminate.
Qed.

Lemma last_app_nonempty {A : Type} (l l' : list A) (d : A) :
  l' <> [] -> last (l ++ l') d = last l' d.
Proof.
  intros Hne. induction l as [|x l IH]; [reflexivity|].
  cbn [app]. destruct (l ++ l') eqn:E.
  - apply app_eq_nil in E. destruct E as [_ E]. contradiction.
  - rewrite <- E in *. cbn [last]. rewrite E. rewrite <- E. exact IH.
Qed.

(** X19.  A run of [main] opens a file for writing only for an answer that,
    stripped and lower-cased, is "y": it never leaves more files than such
    lines were typed; and every file it leaves could be opened, is named
    after the sanitized term and one of the types "domain", "email",
    "username" and "wildcard", and holds the beginning of the report of a
    result dict of positive size: the whole report, or what was written
    before a write failed. *)
Theorem main_saves_only_on_request
    (requests_post : Request -> HttpOutcome) (lower : string -> string)
    (isalnum : string -> bool) (fs : FileSystem)
    (strip : string -> string) (inputs : list user_input) :
  let files := snd (main requests_post lower isalnum fs strip inputs) in
  (length files <= length (filter (says_yes lower strip) inputs))%nat
  /\ Forall (written_on_request lower isalnum fs) files.
Proof.
  cbn zeta.
  apply (main_preserves requests_post lower isalnum fs strip
           (fun l e =>
              (length (snd e) <= length (filter (says_yes lower strip) l))%nat
              /\ Forall (written_on_request lower isalnum fs) (snd e))).
  - intros prompt. cbn. split; [lia|constructor].
  - intros msg l prompt. cbn. split; [lia|constructor].
  - intros l prompt. cbn. split; [lia|constructor].
  - intros l c e H. exact H.
  - intros a l e [H1 H2]. split; [|exact H2].
    cbn [filter]. destruct (says_yes lower strip (Typed a)); cbn [length]; lia.
  - intros msg l e [H1 H2]. split; [|exact H2]. exact H1.
  - intros a l _. cbn. split; [lia|constructor].
  - intros answer rest results search_term search_type e Hyes Hpos Htype [H1 H2].
    cbn [filter]. rewrite Hyes.
    unfold then_effects. cbn [snd].
    destruct (save_effects_files lower isalnum fs results search_term search_type)
      as [E|[file [E [Hopen Hbegins]]]]; rewrite E; cbn [app length].
    + split; [lia|exact H2].
    + split; [lia|]. constructor; [|exact H2].
      exists search_term, search_type, results. cbn [fst snd]. auto.
Qed.

(** X20.  A run of [main] ends in one of three ways: with the goodbye line
    after choice 8, with the line of the [except KeyboardInterrupt] clause
    after an interrupt, or with the line that reports an exception of
    [input] as an unexpected error.  It does not end with the goodbye line
    unless a line that strips to "8" is typed; when lines are typed at
    every prompt it ends with the goodbye line or, the input being
    exhausted, with the line that reports [EOFError]; and when none of
    these lines strips to "8" it ends in that way, whatever was searched,
    saved or mistyped before. *)
Theorem main_ends_in_one_of_three_ways
    (requests_post : Request -> HttpOutcome) (lower : string -> string)
    (isalnum : string -> bool) (fs : FileSystem)
    (strip : string -> string) (inputs : list user_input) :
  let out := fst (main requests_post lower isalnum fs strip inputs) in
  (last out [] = goodbye_line
   \/ last out [] = interrupted_line
   \/ exists msg, last out [] = unexpected_line msg)
  /\ (Forall (fun a => types_8 strip a = false) inputs ->
      last out [] = interrupted_line \/ exists msg, last out [] = unexpected_line msg)
  /\ (Forall (fun a => is_typed a = true) inputs ->
      last out [] = goodbye_line \/ last out [] = eof_line)
  /\ (Forall (fun a => is_typed a = true /\ types_8 strip a = false) inputs ->
      last out [] = eof_line).
Proof.
  cbn zeta.
  pose (P := fun (l : list user_input) (e : effects) =>
               fst e <> []
               /\ (last (fst e) [] = goodbye_line
                   \/ last (fst e) [] = interrupted_line
                   \/ exists msg, last (fst e) [] = unexpected_line msg)
               /\ (Forall (fun a => types_8 strip a = false) l ->
                   last (fst e) [] = interrupted_line
                   \/ exists msg, last (fst e) [] = unexpected_line msg)
               /\ (Forall (fun a => is_typed a = true) l ->
                   last (fst e) [] = goodbye_line \/ last (fst e) [] = eof_line)
               /\ (Forall (fun a => is_typed a = true /\ types_8 strip a = false) l ->
                   last (fst e) [] = eof_line)).
  assert (Hthen : forall (c e : effects), fst e <> [] ->
                    fst (then_effects c e) <> []
                    /\ last (fst (then_effects c e)) [] = last (fst e) []).
  { intros c e Hne. unfold then_effects. cbn [fst].
    rewrite (last_app_nonempty (fst c) (fst e) [] Hne). split; [|reflexivity].
    intros E. apply app_eq_nil in E. destruct E as [_ E]. contradiction. }
  assert (H : P inputs (main requests_post lower isalnum fs strip inputs)).
  { apply (main_preserves requests_post lower isalnum fs strip P); unfold P.
    - intros prompt. cbn [main_eof main_failed fst last].
      split; [discriminate|]. split; [right; right; now exists eof_message|].
      split; [intros _; right; now exists eof_message|]. split; auto.
    - intros msg l prompt. cbn [main_failed fst last].
      split; [discriminate|]. split; [right; right; now exists msg|].
      split; [intros _; right; now exists msg|].
      split; intros HF; inversion HF as [|? ? Hx]; subst;
        [discriminate Hx|destruct Hx as [Hx _]; discriminate Hx].
    - intros l prompt. cbn [main_interrupted fst last].
      split; [discriminate|]. split; [right; now left|].
      split; [intros _; now left|].
      split; intros HF; inversion HF as [|? ? Hx]; subst;
        [discriminate Hx|destruct Hx as [Hx _]; discriminate Hx].
    - intros l c e [Hne H]. destruct (Hthen (c, []) e Hne) as [Hne' ->].
      split; [exact Hne'|exact H].
    - intros a l e [Hne [H1 [H2 [H3 H4]]]]. split; [exact Hne|]. split; [exact H1|].
      split; [intros HF; apply H2; now inversion HF|].
      split; intros HF; [apply H3|apply H4]; now inversion HF.
    - intros msg l e [Hne [H1 [H2 [H3 H4]]]]. split; [exact Hne|]. split; [exact H1|].
      split; [intros HF; apply H2; now inversion HF|].
      split; intros HF; inversion HF as [|? ? Hx]; subst;
        [discriminate Hx|destruct Hx as [Hx _]; discriminate Hx].
    - intros a l H8. cbn [fst last]. split; [discriminate|]. split; [now left|].
      split; [|split; [intros _; now left|]];
        intros HF; inversion HF as [|? ? Hx]; subst; cbn [types_8] in Hx.
      + apply String.eqb_neq in Hx. contradiction.
      + destruct Hx as [_ Hx]. apply String.eqb_neq in Hx. contradiction.
    - intros answer rest results search_term search_type e _ _ _
             [Hne [H1 [H2 [H3 H4]]]].
      destruct (Hthen (save_effects lower isalnum fs results
                                    search_term search_type) e Hne)
        as [Hne' ->].
      split; [exact Hne'|]. split; [exact H1|].
      split; [intros HF; apply H2; now inversion HF|].
      split; intros HF; [apply H3|apply H4]; now inversion HF. }
  destruct H as [_ H]. exact H.
Qed.

(** Sample runs: a search for an e-mail address whose results are saved,
    one whose results are not, one that is interrupted at the question, and
    one whose input ends after the address. *)
Lemma main_sample_run :
  snd (main first_source_fails ascii_lower isalnum_ascii_only reliable_fs
            (fun s => s) [Typed "3"; Typed "a@b.com"; Typed "y"; Typed "8"])
  = [("ab.com-email-output.txt",
      file_report ascii_lower
                  (as_dict (fst (search_email_all_sources first_source_fails
                                   (KeyscoreAPI_init "place-your-api-key") "a@b.com")))
                  "a@b.com" "email")]
  /\ last (fst (main first_source_fails ascii_lower isalnum_ascii_only reliable_fs
                     (fun s => s) [Typed "3"; Typed "a@b.com"; Typed "y"; Typed "8"])) []
     = goodbye_line
  /\ snd (main first_source_fails ascii_lower isalnum_ascii_only reliable_fs
              (fun s => s) [Typed "3"; Typed "a@b.com"; Typed "n"; Typed "8"]) = []
  /\ last (fst (main first_source_fails ascii_lower isalnum_ascii_only reliable_fs
                     (fun s => s) [Typed "3"; Typed "a@b.com"; Interrupt; Typed "8"])) []
     = interrupted_line
  /\ length (snd (main first_source_fails ascii_lower isalnum_ascii_only disk_full_at_5
                       (fun s => s)
                       [Typed "3"; Typed "a@b.com"; Typed "y"; Typed "8"])) = 1%nat
  /\ last (fst (main first_source_fails ascii_lower isalnum_ascii_only reliable_fs
                     (fun s => s) [Typed "3"; Typed "a@b.com"])) []
     = eof_line.
Proof. vm_compute. repeat split. Qed.

(* ------------------------------------------------------------------ *)
(** ** Edge cases of the fan-out *)

Lemma search_loop_all_fail (requests_post : Request -> HttpOutcome) (self : KeyscoreAPI)
    (terms types : list string) (search_term : string) (l : list (Z * string))
    (st : SearchState) :
  (forall p, In p l ->
             exists e, search requests_post self terms types (snd p)
                              false false "OR" None None 1 None 10000 = Raise e) ->
  all_results (search_loop requests_post self terms types search_term l st)
  = all_results st
  /\ successful_sources (search_loop requests_post self terms types search_term l st)
     = successful_sources st.
Proof.
  revert st. induction l as [|[i x] l IH]; intros st H; [split; reflexivity|].
  unfold search_loop in *. cbn [fold_left fst snd].
  destruct (H (i, x) (or_introl eq_refl)) as [e He]. cbn [snd] in He.
  rewrite (query_source_raise requests_post self terms types search_term st i x e He).
  destruct (IH (say ([Lit "⚠️ Error: "] ++ exn_msg e)
                    (say_end_space [Lit "   ["; Int i; Lit "/";
                                    Int (len (all_sources self));
                                    Lit "] Querying "; Lit x; Lit "..."] st)))
    as [H1 H2].
  - intros p Hp. apply H. now right.
  - rewrite H1, H2. split; reflexivity.
Qed.

(** X21.  When the call fails for every source of the catalog, the
    multi-source search still returns: the dict is the empty aggregate (no
    bucket, size 0, took 0), no source is counted as successful, and
    [print_results] answers it with the four heading lines and the line
    that says no results were found. *)
Theorem total_failure_gives_empty_aggregate
    (requests_post : Request -> HttpOutcome) (lower : string -> string)
    (self : KeyscoreAPI) (terms types : list string) (search_term : string) :
  (forall source,
      In source (all_sources self) ->
      exists e, search requests_post self terms types source
                       false false "OR" None None 1 None 10000 = Raise e) ->
  fst (search_all_sources requests_post self terms types search_term)
  = mk_AllResults [] 0 0
  /\ successful_sources
       (search_all_sources_state requests_post self terms types search_term) = 0
  /\ print_results lower
       (as_dict (fst (search_all_sources requests_post self terms types search_term)))
     = [line [NL; Lit "=== 📊 SEARCH RESULTS ==="];
        line [Lit "Total results: "; Int 0];
        line [Lit "Search took: "; Int 0; Lit "ms"];
        line [Rep "-" 60];
        line [Lit "❌ No results found across any sources"]].
Proof.
  intros Hfail.
  destruct (search_loop_all_fail requests_post self terms types search_term
              (enumerate 1 (all_sources self)) (search_start self)) as [H1 H2].
  { intros p Hp. apply Hfail. exact (In_enumerate _ _ _ Hp). }
  assert (E : fst (search_all_sources requests_post self terms types search_term)
              = mk_AllResults [] 0 0).
  { unfold search_all_sources, search_all_sources_state. cbn [fst say all_results].
    rewrite H1. reflexivity. }
  split; [exact E|]. split.
  - unfold search_all_sources_state. rewrite H2. reflexivity.
  - rewrite E. reflexivity.
Qed.

Lemma total_failure_gives_empty_aggregate_witness :
  fst (search_all_sources always_401 sample_api ["a@b.com"] ["email"] "a@b.com")
  = mk_AllResults [] 0 0
  /\ successful_sources
       (search_all_sources_state always_401 sample_api ["a@b.com"] ["email"] "a@b.com")
     = 0
  /\ print_results ascii_lower
       (as_dict (fst (search_all_sources always_401 sample_api ["a@b.com"] ["email"]
                                         "a@b.com")))
     = [line [NL; Lit "=== 📊 SEARCH RESULTS ==="];
        line [Lit "Total results: "; Int 0];
        line [Lit "Search took: "; Int 0; Lit "ms"];
        line [Rep "-" 60];
        line [Lit "❌ No results found across any sources"]].
Proof.
  apply (total_failure_gives_empty_aggregate always_401 ascii_lower sample_api
           ["a@b.com"] ["email"] "a@b.com").
  intros source _. eexists. reflexivity.
Defined.

(** X22.  With an empty list of types the multi-source search returns no
    record at all: reading [types[0]] fails at the first record of a
    response, the failure is handled like a failed call, and only buckets
    without records can have been merged before it. *)
Theorem empty_types_return_no_record (requests_post : Request -> HttpOutcome)
    (self : KeyscoreAPI) (terms : list string) (search_term : string)
    (key : string) (recs : list record) :
  In (key, recs)
     (results (fst (search_all_sources requests_post self terms [] search_term))) ->
  recs = [].
Proof.
  intros Hin.
  assert (Hprov : from_response requests_post self terms [] search_term key recs).
  { apply (search_loop_provenance requests_post self terms [] search_term
             (enumerate 1 (all_sources self)) (search_start self)).
    - intros p Hp. exact (In_enumerate _ _ _ Hp).
    - intros k r [].
    - exact Hin. }
  destruct Hprov as [source [db [result [items [orig [_ [_ [_ [_ [_ Hall]]]]]]]]]].
  unfold normalized_all in Hall. destruct Hall as [|r r' l l' [t0 [Ht _]] _].
  - reflexivity.
  - discriminate Ht.
Qed.

Lemma empty_types_return_no_record_witness :
  @nil record = [].
Proof.
  apply (empty_types_return_no_record
           (fun _ => Response 200 (mk_JsonDict (Some [("empty", []); ("db", [[]])])
                                               (Some 1) (Some 1) None None None))
           sample_api ["a@b.com"] "a@b.com" "🔸xkeyscore➤empty" []).
  vm_compute. left. reflexivity.
Defined.

(* ------------------------------------------------------------------ *)
(** ** The count report *)

Lemma print_breakdown_map (f : string -> Z) (l : list string) :
  print_breakdown (map (fun s => (s, f s)) l)
  = map (fun s =>
           if f s >? 0
           then line [Lit "   ✅ "; Lit s; Lit ": "; IntComma (f s); Lit " records"]
           else line [Lit "   ❌ "; Lit s; Lit ": No records"])
        l.
Proof.
  induction l as [|s l IH]; cbn [map print_breakdown]; [reflexivity|].
  now rewrite IH.
Qed.

(** X23.  The report [print_count_results] gives for the dict returned by
    [count_all_sources] is always the multi-source one: after the heading
    it shows the sum of the per-source counts as the total and 0 ms, then
    one line for each source of the catalog in catalog order, with its
    count when that is positive and "No records" otherwise (so a failed
    call reads like an empty source), and the credit estimate for the
    total when the total is positive. *)
Theorem count_report_of_count_all_sources (requests_post : Request -> HttpOutcome)
    (key : string) (terms types search_terms : list string) (search_type : string) :
  let api := KeyscoreAPI_init key in
  let count_of := recorded_count requests_post api terms types in
  let total := sum (map count_of (all_sources api)) in
  print_count_results (fst (count_all_sources requests_post api terms types))
                      search_terms search_type
  = [line [NL; Lit "=== 📊 COUNT RESULTS ==="];
     line [Lit "Search terms: "; Lit (String.concat ", " search_terms)];
     line [Lit "Search type: "; Lit search_type];
     line [Rep "-" 50];
     line [Lit "🔢 Total records available: "; IntComma total];
     line [Lit "⏱️  Search took: "; Int 0; Lit "ms"];
     line [NL; Lit "📊 Breakdown by source:"]]
    ++ map (fun s =>
              if count_of s >? 0
              then line [Lit "   ✅ "; Lit s; Lit ": "; IntComma (count_of s);
                         Lit " records"]
              else line [Lit "   ❌ "; Lit s; Lit ": No records"])
           (all_sources api)
    ++ (if total >? 0
        then [line [NL; Lit "💰 Estimated credits for full search:"];
              line [Lit "   - Single page: 1 credit (up to 10,000 records)"]]
             ++ (if total >? 10000
                 then [line [Lit "   - All data: ~"; Int (pages_needed total);
                             Lit " credits ("; Int (pages_needed total);
                             Lit " pages)"]]
                 else [])
        else []).
Proof.
  intros api count_of total.
  destruct (count_loop_spec requests_post api terms types (all_sources api)
              (prefix_free_NoDup _ (catalog_prefix_free key))
              (mk_CountState 0 [] [[Lit "📊 Getting counts from all sources..."; NL]]))
    as [Hc Ht].
  { intros s _ []. }
  cbn [source_counts total_count app] in Hc, Ht.
  unfold print_count_results, count_all_sources, count_all_sources_state.
  cbn [fst d_count d_counts d_total_count d_took get_default].
  rewrite Hc, Ht, Z.add_0_l. fold count_of. fold total.
  rewrite (print_breakdown_map count_of (all_sources api)).
  reflexivity.
Qed.
